(** * Fortnox documentation server: endpoint index and query engine

    A shallow embedding of [src/openapi-parser.ts] (class [OpenAPIParser]) and
    of the server class [FortnoxMCPServer], followed by the properties of the
    index construction and of the seven query operations.  The tool list of
    the server, the parser singleton and the pure part of the API client
    ([validateConfig], the constructor, [buildUrl], [buildHeaders],
    [createFortnoxClient]) are embedded as well; the requests of the client,
    which go over the network, are not.

    Modelling conventions.
    - A JavaScript string is a [string] of ASCII characters; the case
      conversions map the 26 ASCII letters and leave every other character
      alone.
    - A JavaScript object used as a record keeps its own properties in the
      order [Object.keys] reports them: array-index keys first, by ascending
      numeric value, then the other keys in creation order ([JsObject]).
      Property names that an empty object literal inherits from
      [Object.prototype] (constructor, toString, ...) are outside the model.
    - A number is an integer of [Z]; [NaN], infinities and fractions are not
      modelled.
    - The document is the value [JSON.parse] returns, read at the types the
      interfaces declare: a field is there with its declared type or is
      absent; a table of the document lists its entries in [Object.entries]
      order.  Module [OpenAPI] has an operation with its [responses] and a
      request body with its [content]; module [Raw] has the two fields
      optional, with the construction of the index that throws where one is
      absent, and the reading of the one document as the other.
    - The arguments of a tool call are a record of optional members; module
      [Handler] has the request, whose arguments object may be absent as a
      whole.
    - An exception is a value of [Completion]; the markdown rendering of a
      successful reply is not modelled, the data it renders is. *)

From Stdlib Require Import Bool Arith ZArith NArith Lia List Ascii String.
From Stdlib Require Import Permutation Sorted DecimalString.
Import ListNotations.
Open Scope string_scope.
Open Scope list_scope.

Set Implicit Arguments.

(* ------------------------------------------------------------------ *)
(** ** JavaScript strings *)

Module JsString.

Definition is_upper (c : ascii) : bool :=
  let n := nat_of_ascii c in ((65 <=? n) && (n <=? 90))%nat.

Definition is_lower (c : ascii) : bool :=
  let n := nat_of_ascii c in ((97 <=? n) && (n <=? 122))%nat.

Definition toLowerChar (c : ascii) : ascii :=
  if is_upper c then ascii_of_nat (nat_of_ascii c + 32) else c.

Definition toUpperChar (c : ascii) : ascii :=
  if is_lower c then ascii_of_nat (nat_of_ascii c - 32) else c.

Fixpoint map_chars (f : ascii -> ascii) (s : string) : string :=
  match s with
  | EmptyString => EmptyString
  | String c s' => String (f c) (map_chars f s')
  end.

(** [String.prototype.toLowerCase] and [toUpperCase]. *)
Definition toLowerCase : string -> string := map_chars toLowerChar.
Definition toUpperCase : string -> string := map_chars toUpperChar.

(** [s.startsWith(p)]. *)
Definition startsWith (s p : string) : bool := String.prefix p s.

(** [s.includes(k)]: [k] occurs in [s] as a contiguous substring. *)
Fixpoint includes (s k : string) : bool :=
  if String.prefix k s then true
  else match s with
       | EmptyString => false
       | String _ s' => includes s' k
       end.

Fixpoint drop (n : nat) (s : string) : string :=
  match n, s with
  | O, _ => s
  | S _, EmptyString => EmptyString
  | S n', String _ s' => drop n' s'
  end.

(** [s.replace(pat, rep)] with a string pattern: the first occurrence of
    [pat], wherever it is, is replaced; [s] is returned unchanged when there
    is none.  ([rep] is the empty string at every call site, so the [$]
    patterns of a replacement string do not arise.) *)
Fixpoint replace (s pat rep : string) : string :=
  if String.prefix pat s then (rep ++ drop (String.length pat) s)%string
  else match s with
       | EmptyString => EmptyString
       | String c s' => String c (replace s' pat rep)
       end.

(** Truthiness of a string: every string but the empty one. *)
Definition truthy (s : string) : bool := negb (s =? "")%string.

(** The value of a decimal digit. *)
Definition digit (c : ascii) : option N :=
  let n := nat_of_ascii c in
  if ((48 <=? n) && (n <=? 57))%nat then Some (N.of_nat (n - 48)) else None.

Fixpoint digits (acc : N) (s : string) : option N :=
  match s with
  | EmptyString => Some acc
  | String c s' =>
      match digit c with
      | Some d => digits (acc * 10 + d) s'
      | None => None
      end
  end.

(** A property key is an array index when it is the canonical decimal form
    of an integer between 0 and 2^32 - 2. *)
Definition array_index (s : string) : option N :=
  match s with
  | EmptyString => None
  | String c s' =>
      match digit c with
      | None => None
      | Some d =>
          if (d =? 0)%N then
            match s' with EmptyString => Some 0%N | _ => None end
          else
            match digits d s' with
            | Some n => if (n <=? 4294967294)%N then Some n else None
            | None => None
            end
      end
  end.

(** The double quote, written by its code. *)
Definition dq : string := String (ascii_of_nat 34) EmptyString.

(** ** [localeCompare]

    A model of the default collation on printable ASCII: strings are
    compared first by the letters, digits and signs they are made of, case
    set aside, in the order of [collation_order]; strings that agree there
    are compared by case, a lower-case letter before its capital.
    Characters outside printable ASCII are outside the model (they are
    given the weight 0). *)
Definition collation_order : string :=
  (" _-,;:!?.'" ++ dq ++ "()[]{}@*/\&#%`^+<=>|~$0123456789abcdefghijklmnopqrstuvwxyz")%string.

Fixpoint index_from (i : N) (c : ascii) (table : string) : N :=
  match table with
  | EmptyString => 0%N
  | String d table' =>
      if Ascii.eqb c d then i else index_from (i + 1)%N c table'
  end.

Definition primary (c : ascii) : N :=
  index_from 1%N (toLowerChar c) collation_order.

Definition tertiary (c : ascii) : N := if is_upper c then 1%N else 0%N.

Fixpoint weights (w : ascii -> N) (s : string) : list N :=
  match s with
  | EmptyString => []
  | String c s' => w c :: weights w s'
  end.

Fixpoint lex_compare (a b : list N) : comparison :=
  match a, b with
  | [], [] => Eq
  | [], _ :: _ => Lt
  | _ :: _, [] => Gt
  | x :: a', y :: b' =>
      match (x ?= y)%N with
      | Eq => lex_compare a' b'
      | c => c
      end
  end.

Definition sign (c : comparison) : Z :=
  match c with
  | Lt => (-1)%Z
  | Eq => 0%Z
  | Gt => 1%Z
  end.

Definition localeCompare (a b : string) : Z :=
  match lex_compare (weights primary a) (weights primary b) with
  | Eq => sign (lex_compare (weights tertiary a) (weights tertiary b))
  | c => sign c
  end.

(** The line feed of the template literals. *)
Definition nl : string := String (ascii_of_nat 10) EmptyString.

End JsString.

(* ------------------------------------------------------------------ *)
(** ** JavaScript objects as ordered property tables *)

Module JsObject.
Import JsString.

Section Table.
Variable V : Type.

(** Own string-keyed properties, in [Object.keys] order. *)
Definition t := list (string * V).

Definition empty : t := [].

Fixpoint get (o : t) (k : string) : option V :=
  match o with
  | [] => None
  | (k', v) :: o' => if (k' =? k)%string then Some v else get o' k
  end.

Fixpoint update (o : t) (k : string) (v : V) : t :=
  match o with
  | [] => []
  | (k', v') :: o' =>
      if (k' =? k)%string then (k', v) :: o' else (k', v') :: update o' k v
  end.

(** A new array-index key goes among the index keys, by value. *)
Fixpoint insert_index (n : N) (k : string) (v : V) (o : t) : t :=
  match o with
  | [] => [(k, v)]
  | (k', v') :: o' =>
      match array_index k' with
      | Some n' =>
          if (n <? n')%N then (k, v) :: o
          else (k', v') :: insert_index n k v o'
      | None => (k, v) :: o
      end
  end.

(** [o[k] = v]. *)
Definition set (o : t) (k : string) (v : V) : t :=
  match get o k with
  | Some _ => update o k v
  | None =>
      match array_index k with
      | Some n => insert_index n k v o
      | None => o ++ [(k, v)]
      end
  end.

Definition entries (o : t) : list (string * V) := o.
Definition keys (o : t) : list string := map fst o.
End Table.

Arguments empty {V}.
End JsObject.

(* ------------------------------------------------------------------ *)
(** ** Arrays: [slice], [sort] *)

Module JsArray.

Section Slice.
Variable A : Type.

(** [l.slice(0, e)] for an integer [e]: a negative end counts from the
    end of the array. *)
Definition slice0 (l : list A) (e : Z) : list A :=
  let len := Z.of_nat (List.length l) in
  let final := if (e <? 0)%Z then Z.max (len + e) 0 else Z.min e len in
  firstn (Z.to_nat final) l.
End Slice.

Section Sort.
Variable A : Type.
Variable cmp : A -> A -> Z.

(** [Array.prototype.sort] is stable; with a consistent comparator every
    stable sort returns the same array, computed here by insertion. *)
Fixpoint insert (x : A) (l : list A) : list A :=
  match l with
  | [] => [x]
  | y :: l' => if (cmp x y <=? 0)%Z then x :: l else y :: insert x l'
  end.

Fixpoint sort (l : list A) : list A :=
  match l with
  | [] => []
  | x :: l' => insert x (sort l')
  end.

(** The comparator lets [a] stand before [b]. *)
Definition before (a b : A) : Prop := (cmp a b <= 0)%Z.
End Sort.

End JsArray.

(* ------------------------------------------------------------------ *)
(** ** Completions *)

Inductive JsError : Type :=
| SyntaxError
| TypeError
| IOError
| Error (message : string).

Inductive Completion (A : Type) : Type :=
| Normal (a : A)
| Throw (e : JsError).

Arguments Normal {A} a.
Arguments Throw {A} e.

Definition bind {A B : Type} (c : Completion A) (k : A -> Completion B)
  : Completion B :=
  match c with
  | Normal a => k a
  | Throw e => Throw e
  end.

Notation "x <- c ;; k" := (bind c (fun x => k))
  (at level 61, c at next level, right associativity).

(* ------------------------------------------------------------------ *)
(** ** The data model of [openapi-parser.ts] *)

Module OpenAPI.
Import JsString.

(** [interface Schema].  The fields that only the JSON rendering of a schema
    reads ([format], [required], [enum], [maxLength], [minLength],
    [minimum], [maximum], [pattern], [additionalProperties]) are left out. *)
Local Unset Elimination Schemes.
Inductive Schema : Type := mkSchema {
  s_type : option string;
  s_description : option string;
  s_properties : option (list (string * Schema));
  s_items : option Schema;
  s_ref : option string
}.
Local Set Elimination Schemes.

Inductive ParamIn : Type := InQuery | InPath | InHeader | InCookie.

(** [interface Parameter]. *)
Record Param : Type := mkParam {
  p_name : string;
  p_in : ParamIn;
  p_description : option string;
  p_required : option bool;
  p_schema : Schema
}.

(** One entry of a [content] table: [{ schema: Schema }]. *)
Record MediaType : Type := mkMediaType {
  mt_schema : option Schema
}.

Record RequestBody : Type := mkRequestBody {
  rb_description : option string;
  rb_required : option bool;
  rb_content : JsObject.t MediaType
}.

Record Response : Type := mkResponse {
  r_description : string;
  r_content : option (JsObject.t MediaType)
}.

Record Operation : Type := mkOperation {
  op_operationId : string;
  op_summary : option string;
  op_description : option string;
  op_tags : option (list string);
  op_parameters : option (list Param);
  op_requestBody : option RequestBody;
  op_responses : JsObject.t Response
}.

Record PathItem : Type := mkPathItem {
  pi_get : option Operation;
  pi_post : option Operation;
  pi_put : option Operation;
  pi_delete : option Operation;
  pi_patch : option Operation
}.

Record Info : Type := mkInfo {
  i_title : string;
  i_description : option string;
  i_version : option string
}.

Record ServerEntry : Type := mkServerEntry {
  sv_url : string;
  sv_description : string
}.

Record Components : Type := mkComponents {
  c_schemas : option (JsObject.t Schema)
}.

(** [interface OpenAPISpec], as [JSON.parse] delivers it: nothing checks
    that a top-level field is there, so each may be absent. *)
Record OpenAPISpec : Type := mkOpenAPISpec {
  info : option Info;
  servers : option (list ServerEntry);
  paths : option (JsObject.t PathItem);
  components : option Components
}.

Record FortnoxEndpoint : Type := mkEndpoint {
  path : string;
  method : string;
  operationId : string;
  summary : option string;
  description : option string;
  parameters : list Param;
  requestBodySchema : option Schema;
  responseSchema : option Schema;
  tags : option (list string)
}.

(** An optional string as a condition sees it: [undefined] and the empty
    string are falsy. *)
Definition if_truthy (x : option string) : option string :=
  match x with
  | Some s => if truthy s then Some s else None
  | None => None
  end.

(** [x || d] for an optional string [x]. *)
Definition or_default (x : option string) (d : string) : string :=
  match if_truthy x with
  | Some s => s
  | None => d
  end.

(** What the file at [specPath] holds: [readFileSync] may fail, [JSON.parse]
    may reject the text, or a document comes out. *)
Inductive SpecFile : Type :=
| Unreadable
| Malformed
| Json (doc : OpenAPISpec).

Record OpenAPIParser : Type := mkParser { spec : OpenAPISpec }.

(** [constructor(specPath)]. *)
Definition OpenAPIParser_new (f : SpecFile) : Completion OpenAPIParser :=
  match f with
  | Unreadable => Throw IOError
  | Malformed => Throw SyntaxError
  | Json doc => Normal {| spec := doc |}
  end.

Definition getSpec (this : OpenAPIParser) : OpenAPISpec := spec this.

Definition getBaseUrl (this : OpenAPIParser) : Completion string :=
  match servers (spec this) with
  | None => Throw (Error "No servers defined in OpenAPI spec")
  | Some [] => Throw (Error "No servers defined in OpenAPI spec")
  | Some (s :: _) => Normal (sv_url s)
  end.

(** The schema of the first entry of a [content] table:
    [Object.keys(content)[0]], then [content[contentType]?.schema]. *)
Definition firstSchema (content : JsObject.t MediaType) : option Schema :=
  match hd_error (JsObject.keys content) with
  | Some contentType =>
      if truthy contentType then
        match JsObject.get content contentType with
        | Some entry => mt_schema entry
        | None => None
        end
      else None
  | None => None
  end.

(** [operation.responses['200'] || operation.responses['201']]. *)
Definition successResponse (operation : Operation) : option Response :=
  match JsObject.get (op_responses operation) "200" with
  | Some r => Some r
  | None => JsObject.get (op_responses operation) "201"
  end.

Definition parseOperation (path method : string) (operation : Operation)
  : FortnoxEndpoint :=
  {| path := path;
     method := toUpperCase method;
     operationId := op_operationId operation;
     summary := op_summary operation;
     description := op_description operation;
     parameters := match op_parameters operation with
                   | Some ps => ps
                   | None => []
                   end;
     tags := op_tags operation;
     requestBodySchema :=
       match op_requestBody operation with
       | Some body => firstSchema (rb_content body)
       | None => None
       end;
     responseSchema :=
       match successResponse operation with
       | Some r =>
           match r_content r with
           | Some content => firstSchema content
           | None => None
           end
       | None => None
       end |}.

Definition methods : list string := ["get"; "post"; "put"; "delete"; "patch"].

(** [pathItem[method]]. *)
Definition pathItem_get (pathItem : PathItem) (method : string)
  : option Operation :=
  if (method =? "get")%string then pi_get pathItem
  else if (method =? "post")%string then pi_post pathItem
  else if (method =? "put")%string then pi_put pathItem
  else if (method =? "delete")%string then pi_delete pathItem
  else if (method =? "patch")%string then pi_patch pathItem
  else None.

(** The inner loop of [getAllEndpoints]: one [push] per operation found. *)
Definition pushOperations (path : string) (pathItem : PathItem)
  (endpoints : list FortnoxEndpoint) : list FortnoxEndpoint :=
  fold_left
    (fun endpoints method =>
       match pathItem_get pathItem method with
       | Some operation =>
           endpoints ++ [parseOperation path method operation]
       | None => endpoints
       end)
    methods endpoints.

(** [getAllEndpoints()]; [Object.entries] of a missing [paths] throws. *)
Definition getAllEndpoints (this : OpenAPIParser)
  : Completion (list FortnoxEndpoint) :=
  match paths (spec this) with
  | None => Throw TypeError
  | Some table =>
      Normal
        (fold_left
           (fun endpoints entry =>
              pushOperations (fst entry) (snd entry) endpoints)
           (JsObject.entries table) [])
  end.

(** [endpoint.tags?.includes(tag)]. *)
Definition tags_include (e : FortnoxEndpoint) (tag : string) : bool :=
  match tags e with
  | Some ts => existsb (fun t => (t =? tag)%string) ts
  | None => false
  end.

Definition getEndpointsByTag (this : OpenAPIParser) (tag : string)
  : Completion (list FortnoxEndpoint) :=
  all <- getAllEndpoints this ;;
  Normal (filter (fun endpoint => tags_include endpoint tag) all).

(** [schemas?.[schemaName]] is modelled over the table's own keys.  Under a
    name that every object inherits ([constructor], [toString] and the like)
    and that the table does not hold, the lookup of the source finds the
    inherited member; statements about such lookups leave these names out. *)
Definition resolveSchemaRef (this : OpenAPIParser) (ref : string)
  : option Schema :=
  if negb (startsWith ref "#/components/schemas/") then None
  else
    let schemaName := replace ref "#/components/schemas/" "" in
    match components (spec this) with
    | Some c =>
        match c_schemas c with
        | Some table => JsObject.get table schemaName
        | None => None
        end
    | None => None
    end.

Definition getSchemaDescription (this : OpenAPIParser) (schema : Schema)
  : string :=
  match if_truthy (s_ref schema) with
  | Some ref =>
      match resolveSchemaRef this ref with
      | Some resolved => or_default (s_description resolved) "Schema reference"
      | None => "Schema reference"
      end
  | None =>
      match if_truthy (s_description schema) with
      | Some d => d
      | None =>
          match s_type schema, s_properties schema, s_items schema with
          | Some "object", Some properties, _ =>
              let names := JsObject.keys properties in
              ("Object with properties: "
                 ++ String.concat ", " (firstn 3 names)
                 ++ (if (3 <? List.length names)%nat then "..." else ""))%string
          | Some "array", _, Some items =>
              ("Array of " ++ or_default (s_type items) "items")%string
          | _, _, _ => or_default (s_type schema) "unknown"
          end
      end
  end.

End OpenAPI.

(* ------------------------------------------------------------------ *)
(** ** The server class [FortnoxMCPServer] *)

Module Server.
Import JsString OpenAPI.

(** The arguments of a tool call, by the names the tools read. *)
Record ToolCallArguments : Type := mkArgs {
  a_method : option string;
  a_tag : option string;
  a_limit : option Z;
  a_path : option string;
  a_resource : option string;
  a_keyword : option string;
  a_schemaName : option string
}.

Definition noArgs : ToolCallArguments :=
  mkArgs None None None None None None None.

Record FortnoxMCPServer : Type := mkServer {
  parser : OpenAPIParser;
  endpoints : list FortnoxEndpoint
}.

(** The constructor: the parser is made from the file, the endpoints are
    collected once. *)
Definition FortnoxMCPServer_new (f : SpecFile) : Completion FortnoxMCPServer :=
  p <- OpenAPIParser_new f ;;
  es <- getAllEndpoints p ;;
  Normal {| parser := p; endpoints := es |}.

(** [args.limit ? Number(args.limit) : d]: zero is falsy. *)
Definition limit_or (limit : option Z) (d : Z) : Z :=
  match limit with
  | Some n => if (n =? 0)%Z then d else n
  | None => d
  end.

(** *** Counting tables *)

(** [counts[k] = (counts[k] || 0) + 1]. *)
Definition bump (counts : JsObject.t Z) (k : string) : JsObject.t Z :=
  let old := match JsObject.get counts k with
             | Some n => if (n =? 0)%Z then 0%Z else n
             | None => 0%Z
             end in
  JsObject.set counts k (old + 1)%Z.

Definition countMethods (es : list FortnoxEndpoint) : JsObject.t Z :=
  fold_left (fun methodCounts endpoint => bump methodCounts (method endpoint))
    es JsObject.empty.

Definition countTags (es : list FortnoxEndpoint) : JsObject.t Z :=
  fold_left
    (fun tagCounts endpoint =>
       match tags endpoint with
       | Some ts => fold_left bump ts tagCounts
       | None => tagCounts
       end)
    es JsObject.empty.

(** [(a, b) => b[1] - a[1]]. *)
Definition byCountDesc (a b : string * Z) : Z := (snd b - snd a)%Z.

(** [(a, b) => a[0].localeCompare(b[0])]. *)
Definition byTagName (a b : string * Z) : Z := localeCompare (fst a) (fst b).

(** *** Replies *)

Record Overview : Type := mkOverview {
  ov_title : string;
  ov_version : string;
  ov_baseUrl : string;
  ov_totalEndpoints : nat;
  ov_resourceGroups : nat;
  ov_byMethod : list (string * Z);
  ov_topGroups : list (string * Z);
  ov_description : string
}.

Record EndpointRow : Type := mkRow {
  row_method : string;
  row_path : string;
  row_operationId : string;
  row_summary : string;
  row_tags : list string
}.

Record EndpointList : Type := mkEndpointList {
  el_method : option string;
  el_tag : option string;
  el_totalFound : nat;
  el_showing : nat;
  el_limitedTo : option Z;
  el_rows : list EndpointRow;
  el_notShown : option Z
}.

Record Details : Type := mkDetails {
  d_endpoint : FortnoxEndpoint;
  d_pathParams : list Param;
  d_queryParams : list Param;
  d_requiredParams : list Param;
  d_optionalParams : list Param
}.

Record Grouped : Type := mkGrouped {
  g_list : list FortnoxEndpoint;
  g_get : list FortnoxEndpoint;
  g_create : list FortnoxEndpoint;
  g_update : list FortnoxEndpoint;
  g_delete : list FortnoxEndpoint
}.

Record ResourceEndpoints : Type := mkResourceEndpoints {
  re_resource : string;
  re_total : nat;
  re_grouped : Grouped
}.

Record SearchResults : Type := mkSearchResults {
  sr_keyword : string;
  sr_totalMatches : nat;
  sr_showing : nat;
  sr_results : list FortnoxEndpoint;
  sr_notShown : option Z
}.

Record ResourceGroups : Type := mkResourceGroups {
  rg_total : nat;
  rg_categories : list (string * list (string * Z));
  rg_all : list (string * Z)
}.

(** What a reply says.  [Text] is a reply whose text is modelled word for
    word; the other replies carry the data their markdown is rendered from;
    [Failure] is the text Error: followed by the message of the exception. *)
Inductive Content : Type :=
| Text (text : string)
| OverviewReply (v : Overview)
| EndpointsReply (v : EndpointList)
| DetailsReply (v : Details)
| ResourceReply (v : ResourceEndpoints)
| SearchReply (v : SearchResults)
| GroupsReply (v : ResourceGroups)
| SchemaReply (schemaName : string) (schema : Schema)
| Failure (e : JsError).

Record ToolResult : Type := mkResult {
  content : Content;
  isError : bool
}.

Definition ok (c : Content) : ToolResult := {| content := c; isError := false |}.
Definition failed (c : Content) : ToolResult := {| content := c; isError := true |}.

(** How a template literal prints an optional string. *)
Definition show (x : option string) : string :=
  match x with
  | Some s => s
  | None => "undefined"
  end.

Section Tools.
Variable this : FortnoxMCPServer.

Definition getAPIOverview : Completion ToolResult :=
  let spec := getSpec (parser this) in
  baseUrl <- getBaseUrl (parser this) ;;
  let methodCounts := countMethods (endpoints this) in
  let tagCounts := countTags (endpoints this) in
  match info spec with
  | None => Throw TypeError
  | Some i =>
      Normal (ok (OverviewReply
        {| ov_title := i_title i;
           ov_version := or_default (i_version i) "Not specified";
           ov_baseUrl := baseUrl;
           ov_totalEndpoints := List.length (endpoints this);
           ov_resourceGroups := List.length (JsObject.keys tagCounts);
           ov_byMethod := JsObject.entries methodCounts;
           ov_topGroups :=
             JsArray.slice0
               (JsArray.sort byCountDesc (JsObject.entries tagCounts)) 10;
           ov_description :=
             or_default (i_description i) "No description available" |}))
  end.

(** The two filters of [listAllEndpoints], applied one after the other. *)
Definition filterEndpoints (args : ToolCallArguments) : list FortnoxEndpoint :=
  let filteredEndpoints := endpoints this in
  let filteredEndpoints :=
    match if_truthy (a_method args) with
    | Some m =>
        filter (fun e => (toUpperCase (method e) =? toUpperCase m)%string)
          filteredEndpoints
    | None => filteredEndpoints
    end in
  match if_truthy (a_tag args) with
  | Some tag => filter (fun e => tags_include e tag) filteredEndpoints
  | None => filteredEndpoints
  end.

Definition toRow (endpoint : FortnoxEndpoint) : EndpointRow :=
  {| row_method := method endpoint;
     row_path := path endpoint;
     row_operationId := operationId endpoint;
     row_summary := or_default (summary endpoint) "No summary";
     row_tags := match tags endpoint with Some ts => ts | None => [] end |}.

(** The Total Found line names the method and the tag as the arguments give
    them, when they are not empty: [el_method] and [el_tag]. *)
Definition listAllEndpoints (args : ToolCallArguments) : ToolResult :=
  let filteredEndpoints := filterEndpoints args in
  let len := Z.of_nat (List.length filteredEndpoints) in
  let limit := limit_or (a_limit args) len in
  let limitedEndpoints := JsArray.slice0 filteredEndpoints limit in
  let result := map toRow limitedEndpoints in
  ok (EndpointsReply
    {| el_method := if_truthy (a_method args);
       el_tag := if_truthy (a_tag args);
       el_totalFound := List.length filteredEndpoints;
       el_showing := List.length limitedEndpoints;
       el_limitedTo := if (limit <? len)%Z then Some limit else None;
       el_rows := result;
       el_notShown := if (limit <? len)%Z then Some (len - limit)%Z else None |}).

Definition isPathParam (p : Param) : bool :=
  match p_in p with InPath => true | _ => false end.
Definition isQueryParam (p : Param) : bool :=
  match p_in p with InQuery => true | _ => false end.
Definition isRequired (p : Param) : bool :=
  match p_required p with Some b => b | None => false end.

(** [e.path === path], where [path] may be [undefined]. *)
Definition same_path (e : FortnoxEndpoint) (p : option string) : bool :=
  match p with
  | Some s => (path e =? s)%string
  | None => false
  end.

Definition getEndpointDetails (args : ToolCallArguments)
  : Completion ToolResult :=
  let path := a_path args in
  match a_method args with
  | None => Throw TypeError
  | Some m =>
      let method := toUpperCase m in
      match find (fun e => same_path e path && (OpenAPI.method e =? method)%string)
              (endpoints this) with
      | None =>
          Normal (failed (Text
            ("Endpoint not found: " ++ method ++ " " ++ show path ++ nl ++ nl
             ++ "Tip: Use search_endpoints or list_all_endpoints to find the correct path.")%string))
      | Some endpoint =>
          Normal (ok (DetailsReply
            {| d_endpoint := endpoint;
               d_pathParams := filter isPathParam (parameters endpoint);
               d_queryParams := filter isQueryParam (parameters endpoint);
               d_requiredParams := filter isRequired (parameters endpoint);
               d_optionalParams :=
                 filter (fun p => negb (isRequired p)) (parameters endpoint) |}))
      end
  end.

(** The test of [getEndpointsByResource] on one tag. *)
Definition tagMatchesResource (resource tag : string) : bool :=
  includes (toLowerCase tag) (toLowerCase resource)
  || includes (toLowerCase resource)
       (replace (toLowerCase tag) "fortnox_" "").

Definition matchesResource (resource : string) (e : FortnoxEndpoint) : bool :=
  match tags e with
  | Some ts => existsb (tagMatchesResource resource) ts
  | None => false
  end.

Definition hasTag (e : FortnoxEndpoint) : bool :=
  match tags e with
  | Some (_ :: _) => true
  | _ => false
  end.

Definition isList (e : FortnoxEndpoint) : bool :=
  (method e =? "GET")%string && negb (includes (path e) "{").
Definition isGet (e : FortnoxEndpoint) : bool :=
  (method e =? "GET")%string && includes (path e) "{".
Definition isCreate (e : FortnoxEndpoint) : bool := (method e =? "POST")%string.
Definition isUpdate (e : FortnoxEndpoint) : bool :=
  (method e =? "PUT")%string || (method e =? "PATCH")%string.
Definition isDelete (e : FortnoxEndpoint) : bool := (method e =? "DELETE")%string.

Definition group (matchingEndpoints : list FortnoxEndpoint) : Grouped :=
  {| g_list := filter isList matchingEndpoints;
     g_get := filter isGet matchingEndpoints;
     g_create := filter isCreate matchingEndpoints;
     g_update := filter isUpdate matchingEndpoints;
     g_delete := filter isDelete matchingEndpoints |}.

Definition resourceNotFound (resource : option string) : ToolResult :=
  failed (Text
    ("No endpoints found for resource: " ++ show resource ++ nl ++ nl
     ++ "Tip: Use list_resource_groups to see all available resources.")%string).

(** Without a [resource] the first tag that is tested throws; with no tag
    to test nothing matches. *)
Definition getEndpointsByResource (args : ToolCallArguments)
  : Completion ToolResult :=
  match a_resource args with
  | None =>
      if existsb hasTag (endpoints this) then Throw TypeError
      else Normal (resourceNotFound None)
  | Some resource =>
      let matchingEndpoints := filter (matchesResource resource) (endpoints this) in
      match matchingEndpoints with
      | [] => Normal (resourceNotFound (Some resource))
      | _ :: _ =>
          Normal (ok (ResourceReply
            {| re_resource := resource;
               re_total := List.length matchingEndpoints;
               re_grouped := group matchingEndpoints |}))
      end
  end.

(** [x?.toLowerCase().includes(keyword)] for an optional string [x]. *)
Definition opt_includes (x : option string) (keyword : string) : bool :=
  match x with
  | Some s => includes (toLowerCase s) keyword
  | None => false
  end.

(** The filter of [searchEndpoints]; [keyword] is already in lower case. *)
Definition searchMatch (keyword : string) (endpoint : FortnoxEndpoint) : bool :=
  let pathMatch := includes (toLowerCase (path endpoint)) keyword in
  let summaryMatch := opt_includes (summary endpoint) keyword in
  let descMatch := opt_includes (description endpoint) keyword in
  let tagMatch :=
    match tags endpoint with
    | Some ts => existsb (fun t => includes (toLowerCase t) keyword) ts
    | None => false
    end in
  let operationMatch := includes (toLowerCase (operationId endpoint)) keyword in
  pathMatch || summaryMatch || descMatch || tagMatch || operationMatch.

Definition searchEndpoints (args : ToolCallArguments) : Completion ToolResult :=
  match a_keyword args with
  | None => Throw TypeError
  | Some k =>
      let keyword := toLowerCase k in
      let limit := limit_or (a_limit args) 20 in
      let results := filter (searchMatch keyword) (endpoints this) in
      let limitedResults := JsArray.slice0 results limit in
      let len := Z.of_nat (List.length results) in
      match results with
      | [] =>
          Normal (ok (Text
            ("No endpoints found matching " ++ dq ++ keyword ++ dq ++ nl ++ nl
             ++ "Tip: Try different keywords or use list_resource_groups to explore available resources.")%string))
      | _ :: _ =>
          Normal (ok (SearchReply
            {| sr_keyword := keyword;
               sr_totalMatches := List.length results;
               sr_showing := List.length limitedResults;
               sr_results := limitedResults;
               sr_notShown :=
                 if (limit <? len)%Z then Some (len - limit)%Z else None |}))
      end
  end.

(** The rule table of [listResourceGroups], first match wins. *)
Definition categoryRules : list (string * list string) :=
  [ ("Core Business", ["Customers"; "Suppliers"; "Employees"; "Articles"; "Products"]);
    ("Financial", ["Invoice"; "Payment"; "Account"; "Currency"; "Financial"]);
    ("Documents", ["Order"; "Offer"; "Contract"; "Voucher"]);
    ("Configuration", ["Settings"; "Mode"; "Price"; "Label"; "Unit"]) ].

Fixpoint categoryOf (rules : list (string * list string)) (tag : string) : string :=
  match rules with
  | [] => "Other"
  | (category, keywords) :: rules' =>
      if existsb (fun k => includes tag k) keywords then category
      else categoryOf rules' tag
  end.

Definition emptyCategories : JsObject.t (list (string * Z)) :=
  [ ("Core Business", []); ("Financial", []); ("Documents", []);
    ("Configuration", []); ("Other", []) ].

(** [categories[c].push(entry)]. *)
Definition pushEntry (categories : JsObject.t (list (string * Z)))
  (c : string) (entry : string * Z) : JsObject.t (list (string * Z)) :=
  match JsObject.get categories c with
  | Some items => JsObject.update categories c (items ++ [entry])
  | None => categories
  end.

Definition listResourceGroups : ToolResult :=
  let tagCounts := countTags (endpoints this) in
  let sorted := JsArray.sort byCountDesc (JsObject.entries tagCounts) in
  let categories :=
    fold_left
      (fun categories entry =>
         let tag := fst entry in
         let cleanTag := replace tag "fortnox_" "" in
         pushEntry categories (categoryOf categoryRules tag)
           (cleanTag, snd entry))
      sorted emptyCategories in
  ok (GroupsReply
    {| rg_total := List.length sorted;
       rg_categories :=
         filter (fun c => (0 <? List.length (snd c))%nat)
           (JsObject.entries categories);
       rg_all :=
         map (fun entry => (replace (fst entry) "fortnox_" "", snd entry))
           (JsArray.sort byTagName sorted) |}).

Definition getSchemaDetails (args : ToolCallArguments) : ToolResult :=
  let schemaName := show (a_schemaName args) in
  match resolveSchemaRef (parser this)
          ("#/components/schemas/" ++ schemaName)%string with
  | None => failed (Text ("Schema not found: " ++ schemaName)%string)
  | Some schema => ok (SchemaReply schemaName schema)
  end.

(** [handleToolCall]: the dispatch, with its [catch]. *)
Definition dispatch (toolName : string) (args : ToolCallArguments)
  : Completion ToolResult :=
  if (toolName =? "get_api_overview")%string then getAPIOverview
  else if (toolName =? "list_all_endpoints")%string then Normal (listAllEndpoints args)
  else if (toolName =? "get_endpoint_details")%string then getEndpointDetails args
  else if (toolName =? "get_endpoints_by_resource")%string then getEndpointsByResource args
  else if (toolName =? "search_endpoints")%string then searchEndpoints args
  else if (toolName =? "list_resource_groups")%string then Normal listResourceGroups
  else if (toolName =? "get_schema_details")%string then Normal (getSchemaDetails args)
  else Normal (failed (Text ("Unknown tool: " ++ toolName)%string)).

Definition handleToolCall (toolName : string) (args : ToolCallArguments)
  : ToolResult :=
  match dispatch toolName args with
  | Normal r => r
  | Throw e => failed (Failure e)
  end.
End Tools.

End Server.

(* ------------------------------------------------------------------ *)
(** ** The request handler of the tool calls *)

Module Handler.
Import JsString OpenAPI Server.

(** [request.params.arguments] is the arguments object of the request, or
    [undefined] when the request carries none.  A tool that reads a member
    of [args] throws a TypeError on [undefined], at its first read. *)
Definition reading (A : Type) (args : option ToolCallArguments)
  (tool : ToolCallArguments -> Completion A) : Completion A :=
  match args with
  | Some a => tool a
  | None => Throw TypeError
  end.

(** The [switch] of [handleToolCall], for the [args] of a request:
    [getAPIOverview] and [listResourceGroups] take no argument. *)
Definition dispatchRequest (this : FortnoxMCPServer) (toolName : string)
  (args : option ToolCallArguments) : Completion ToolResult :=
  if (toolName =? "get_api_overview")%string then getAPIOverview this
  else if (toolName =? "list_all_endpoints")%string
  then reading args (fun a => Normal (listAllEndpoints this a))
  else if (toolName =? "get_endpoint_details")%string
  then reading args (getEndpointDetails this)
  else if (toolName =? "get_endpoints_by_resource")%string
  then reading args (getEndpointsByResource this)
  else if (toolName =? "search_endpoints")%string
  then reading args (searchEndpoints this)
  else if (toolName =? "list_resource_groups")%string
  then Normal (listResourceGroups this)
  else if (toolName =? "get_schema_details")%string
  then reading args (fun a => Normal (getSchemaDetails this a))
  else Normal (failed (Text ("Unknown tool: " ++ toolName)%string)).

(** The handler of a tool call request:
    [handleToolCall(request.params.name, request.params.arguments)], with
    the [catch] of [handleToolCall]. *)
Definition callTool (this : FortnoxMCPServer) (toolName : string)
  (args : option ToolCallArguments) : ToolResult :=
  match dispatchRequest this toolName args with
  | Normal r => r
  | Throw e => failed (Failure e)
  end.

End Handler.

(* ------------------------------------------------------------------ *)
(** ** The tool list of the server *)

Module ToolList.
Import JsString OpenAPI Server.

(** One property of an input schema: its name, its type and, when the schema
    lists them, the values it may take.  The descriptions, which are prose
    for the calling agent, are left out. *)
Record Property : Type := mkProperty {
  pr_name : string;
  pr_type : string;
  pr_enum : option (list string)
}.

Record Tool : Type := mkTool {
  t_name : string;
  t_properties : list Property;
  t_required : list string
}.

Definition methodEnum : list string := ["GET"; "POST"; "PUT"; "DELETE"; "PATCH"].

(** [generateTools()]. *)
Definition generateTools : list Tool :=
  [ mkTool "get_api_overview" [] [];
    mkTool "list_all_endpoints"
      [ mkProperty "method" "string" (Some methodEnum);
        mkProperty "tag" "string" None;
        mkProperty "limit" "number" None ] [];
    mkTool "get_endpoint_details"
      [ mkProperty "path" "string" None;
        mkProperty "method" "string" (Some methodEnum) ]
      ["path"; "method"];
    mkTool "get_endpoints_by_resource"
      [ mkProperty "resource" "string" None ] ["resource"];
    mkTool "search_endpoints"
      [ mkProperty "keyword" "string" None;
        mkProperty "limit" "number" None ] ["keyword"];
    mkTool "list_resource_groups" [] [];
    mkTool "get_schema_details"
      [ mkProperty "schemaName" "string" None ] ["schemaName"] ].

Definition isSome (A : Type) (x : option A) : bool :=
  match x with
  | Some _ => true
  | None => false
  end.

(** The arguments hold a value under the name [n]. *)
Definition holds (args : ToolCallArguments) (n : string) : bool :=
  if (n =? "method")%string then isSome (a_method args)
  else if (n =? "tag")%string then isSome (a_tag args)
  else if (n =? "limit")%string then isSome (a_limit args)
  else if (n =? "path")%string then isSome (a_path args)
  else if (n =? "resource")%string then isSome (a_resource args)
  else if (n =? "keyword")%string then isSome (a_keyword args)
  else if (n =? "schemaName")%string then isSome (a_schemaName args)
  else false.

End ToolList.

(* ------------------------------------------------------------------ *)
(** ** The parser singleton and the API client *)

Module Client.
Import JsString OpenAPI.

(** [getOpenAPIParser()], with the module variable [parser] passed in and
    out: the file is read when the variable is [null], and the variable is
    set when the constructor returns. *)
Definition getOpenAPIParser (parser : option OpenAPIParser) (f : SpecFile)
  : Completion OpenAPIParser * option OpenAPIParser :=
  match parser with
  | Some p => (Normal p, Some p)
  | None =>
      match OpenAPIParser_new f with
      | Normal p => (Normal p, Some p)
      | Throw e => (Throw e, None)
      end
  end.

(** The ASCII characters [trim] takes off: tab, line feed, vertical tab,
    form feed, carriage return and space.  [trim] also takes off white space
    beyond ASCII (U+00A0, U+FEFF, U+2028 and the like), which a string of
    ASCII characters does not hold: statements about [trim] are over the
    strings of [is_ascii] characters. *)
Definition is_ascii (c : ascii) : bool := (nat_of_ascii c <? 128)%nat.

Definition is_space (c : ascii) : bool :=
  let n := nat_of_ascii c in
  (((9 <=? n) && (n <=? 13)) || (n =? 32))%nat.

Fixpoint trimStart (s : string) : string :=
  match s with
  | EmptyString => EmptyString
  | String c s' => if is_space c then trimStart s' else s
  end.

Fixpoint trimEnd (s : string) : string :=
  match s with
  | EmptyString => EmptyString
  | String c s' =>
      match trimEnd s' with
      | EmptyString => if is_space c then EmptyString else String c EmptyString
      | t => String c t
      end
  end.

(** [s.trim()]. *)
Definition trim (s : string) : string := trimEnd (trimStart s).

Record FortnoxConfig : Type := mkConfig {
  accessToken : string;
  cfg_baseUrl : option string;
  clientSecret : option string
}.

Record FortnoxAPIClient : Type := mkClient {
  config : FortnoxConfig;
  baseUrl : string
}.

Definition validateConfig (config : FortnoxConfig) : Completion unit :=
  if negb (truthy (accessToken config))
     || (trim (accessToken config) =? "")%string
  then Throw (Error "FORTNOX_ACCESS_TOKEN is required but not provided")
  else Normal tt.

(** The constructor of the client; the parser singleton is consulted only
    when the configuration has no base URL. *)
Definition FortnoxAPIClient_new (parser : option OpenAPIParser) (f : SpecFile)
  (config : FortnoxConfig)
  : Completion FortnoxAPIClient * option OpenAPIParser :=
  match validateConfig config with
  | Throw e => (Throw e, parser)
  | Normal _ =>
      match if_truthy (cfg_baseUrl config) with
      | Some url => (Normal {| config := config; baseUrl := url |}, parser)
      | None =>
          let (loaded, parser') := getOpenAPIParser parser f in
          (p <- loaded ;;
           url <- getBaseUrl p ;;
           Normal {| config := config; baseUrl := url |},
           parser')
      end
  end.

(** The three variables [createFortnoxClient] reads from the environment. *)
Record Env : Type := mkEnv {
  FORTNOX_ACCESS_TOKEN : option string;
  FORTNOX_CLIENT_SECRET : option string;
  FORTNOX_BASE_URL : option string
}.

(** [createFortnoxClient()]: [null] without an access token. *)
Definition createFortnoxClient (parser : option OpenAPIParser) (f : SpecFile)
  (env : Env)
  : Completion (option FortnoxAPIClient) * option OpenAPIParser :=
  match if_truthy (FORTNOX_ACCESS_TOKEN env) with
  | None => (Normal None, parser)
  | Some accessToken =>
      let (made, parser') :=
        FortnoxAPIClient_new parser f
          {| accessToken := accessToken;
             clientSecret := FORTNOX_CLIENT_SECRET env;
             cfg_baseUrl := FORTNOX_BASE_URL env |} in
      (c <- made ;; Normal (Some c), parser')
  end.

(** A value of a query parameter. *)
Inductive QueryValue : Type :=
| QString (s : string)
| QNumber (n : Z)
| QBoolean (b : bool)
| QUndefined.

(** [String(value)] for a value that is not [undefined].  A number of the
    model is an integer, printed in decimal, as [String] prints the integers
    below 10^21 in absolute value; fractions, larger numbers, [NaN] and the
    infinities are outside the model. *)
Definition toParam (value : QueryValue) : option string :=
  match value with
  | QString s => Some s
  | QNumber n => Some (NilZero.string_of_int (Z.to_int n))
  | QBoolean true => Some "true"
  | QBoolean false => Some "false"
  | QUndefined => None
  end.

(** The bytes the form encoding leaves as they are: letters, digits and
    the four signs * - . _ *)
Definition unreserved (c : ascii) : bool :=
  let n := nat_of_ascii c in
  ((n =? 42) || (n =? 45) || (n =? 46) || ((48 <=? n) && (n <=? 57))
   || ((65 <=? n) && (n <=? 90)) || (n =? 95)
   || ((97 <=? n) && (n <=? 122)))%nat.

Definition hexDigit (n : nat) : ascii :=
  if (n <? 10)%nat then ascii_of_nat (48 + n) else ascii_of_nat (55 + n).

Definition encodeChar (c : ascii) : string :=
  let n := nat_of_ascii c in
  if unreserved c then String c EmptyString
  else if (n =? 32)%nat then "+"
  else String "%" (String (hexDigit (n / 16))
                     (String (hexDigit (n mod 16)) EmptyString)).

Fixpoint encode (s : string) : string :=
  match s with
  | EmptyString => EmptyString
  | String c s' => (encodeChar c ++ encode s')%string
  end.

(** [URLSearchParams.prototype.toString], for ASCII names and values. *)
Definition serialize (params : list (string * string)) : string :=
  String.concat "&"
    (map (fun kv => (encode (fst kv) ++ "=" ++ encode (snd kv))%string) params).

(** The loop of [buildUrl]: one [append] for each value that is there. *)
Definition appendParams (queryParams : JsObject.t QueryValue)
  : list (string * string) :=
  fold_left
    (fun params kv =>
       match toParam (snd kv) with
       | Some value => params ++ [(fst kv, value)]
       | None => params
       end)
    (JsObject.entries queryParams) [].

Definition buildUrl (this : FortnoxAPIClient) (path : string)
  (queryParams : option (JsObject.t QueryValue)) : string :=
  let normalizedPath :=
    if startsWith path "/" then path else ("/" ++ path)%string in
  let url := (baseUrl this ++ normalizedPath)%string in
  match queryParams with
  | Some table =>
      let queryString := serialize (appendParams table) in
      if truthy queryString then (url ++ "?" ++ queryString)%string else url
  | None => url
  end.

(** [Object.assign(headers, customHeaders)]. *)
Definition assign (headers custom : JsObject.t string) : JsObject.t string :=
  fold_left (fun h kv => JsObject.set h (fst kv) (snd kv))
    (JsObject.entries custom) headers.

Definition buildHeaders (this : FortnoxAPIClient)
  (customHeaders : option (JsObject.t string)) : JsObject.t string :=
  let headers :=
    [ ("Content-Type", "application/json");
      ("Accept", "application/json");
      ("Access-Token", accessToken (config this)) ] in
  let headers :=
    match if_truthy (clientSecret (config this)) with
    | Some secret => JsObject.set headers "Client-Secret" secret
    | None => headers
    end in
  match customHeaders with
  | Some custom => assign headers custom
  | None => headers
  end.

End Client.

(* ------------------------------------------------------------------ *)
(** ** The document as [JSON.parse] delivers it *)

(** The interfaces of [openapi-parser.ts] declare [responses] of an
    operation and [content] of a request body without a question mark, and
    nothing checks the document against them: in the parsed document these
    two fields may be absent all the same.  This module has the document
    with the two fields optional, and the part of the code that reads them:
    the construction of the index.  Every field that is there has the type
    its interface declares. *)
Module Raw.
Import JsString OpenAPI.

(** [JSON.parse] of an object, from its members in the order of the text:
    each member is defined in turn, so a name that comes again keeps the
    place of its first occurrence and takes the later value, and the names
    that are array indices stand first, in ascending order. *)
Definition define (A : Type) (o : JsObject.t A) (member : string * A)
  : JsObject.t A :=
  JsObject.set o (fst member) (snd member).

Definition parseObject (A : Type) (members : list (string * A))
  : JsObject.t A :=
  fold_left (@define A) members JsObject.empty.

Record RequestBody : Type := mkRequestBody {
  rb_description : option string;
  rb_required : option bool;
  rb_content : option (JsObject.t MediaType)
}.

Record Operation : Type := mkOperation {
  op_operationId : string;
  op_summary : option string;
  op_description : option string;
  op_tags : option (list string);
  op_parameters : option (list Param);
  op_requestBody : option RequestBody;
  op_responses : option (JsObject.t Response)
}.

Record PathItem : Type := mkPathItem {
  pi_get : option Operation;
  pi_post : option Operation;
  pi_put : option Operation;
  pi_delete : option Operation;
  pi_patch : option Operation
}.

Record OpenAPISpec : Type := mkOpenAPISpec {
  info : option Info;
  servers : option (list ServerEntry);
  paths : option (JsObject.t PathItem);
  components : option Components
}.

Inductive SpecFile : Type :=
| Unreadable
| Malformed
| Json (doc : OpenAPISpec).

Record OpenAPIParser : Type := mkParser { spec : OpenAPISpec }.

(** [constructor(specPath)]. *)
Definition OpenAPIParser_new (f : SpecFile) : Completion OpenAPIParser :=
  match f with
  | Unreadable => Throw IOError
  | Malformed => Throw SyntaxError
  | Json doc => Normal {| spec := doc |}
  end.

(** The request body schema of [parseOperation]: [Object.keys(content)]
    throws when a request body has no [content]. *)
Definition requestBodySchemaOf (operation : Operation)
  : Completion (option Schema) :=
  match op_requestBody operation with
  | Some body =>
      match rb_content body with
      | Some content => Normal (firstSchema content)
      | None => Throw TypeError
      end
  | None => Normal None
  end.

(** The response schema of [parseOperation]: [operation.responses['200']]
    throws when the operation has no [responses]. *)
Definition responseSchemaOf (operation : Operation)
  : Completion (option Schema) :=
  match op_responses operation with
  | None => Throw TypeError
  | Some responses =>
      let successResponse :=
        match JsObject.get responses "200" with
        | Some r => Some r
        | None => JsObject.get responses "201"
        end in
      Normal
        match successResponse with
        | Some r =>
            match r_content r with
            | Some content => firstSchema content
            | None => None
            end
        | None => None
        end
  end.

Definition parseOperation (path method : string) (operation : Operation)
  : Completion FortnoxEndpoint :=
  requestBodySchema <- requestBodySchemaOf operation ;;
  responseSchema <- responseSchemaOf operation ;;
  Normal
    {| OpenAPI.path := path;
       OpenAPI.method := toUpperCase method;
       OpenAPI.operationId := op_operationId operation;
       OpenAPI.summary := op_summary operation;
       OpenAPI.description := op_description operation;
       OpenAPI.parameters := match op_parameters operation with
                             | Some ps => ps
                             | None => []
                             end;
       OpenAPI.tags := op_tags operation;
       OpenAPI.requestBodySchema := requestBodySchema;
       OpenAPI.responseSchema := responseSchema |}.

(** [pathItem[method]]. *)
Definition pathItem_get (pathItem : PathItem) (method : string)
  : option Operation :=
  if (method =? "get")%string then pi_get pathItem
  else if (method =? "post")%string then pi_post pathItem
  else if (method =? "put")%string then pi_put pathItem
  else if (method =? "delete")%string then pi_delete pathItem
  else if (method =? "patch")%string then pi_patch pathItem
  else None.

(** The inner loop of [getAllEndpoints]; an exception ends it. *)
Definition pushOperations (path : string) (pathItem : PathItem)
  (endpoints : list FortnoxEndpoint) : Completion (list FortnoxEndpoint) :=
  fold_left
    (fun acc method =>
       endpoints <- acc ;;
       match pathItem_get pathItem method with
       | Some operation =>
           endpoint <- parseOperation path method operation ;;
           Normal (endpoints ++ [endpoint])
       | None => Normal endpoints
       end)
    methods (Normal endpoints).

(** [getAllEndpoints()]. *)
Definition getAllEndpoints (this : OpenAPIParser)
  : Completion (list FortnoxEndpoint) :=
  match paths (spec this) with
  | None => Throw TypeError
  | Some table =>
      fold_left
        (fun acc entry =>
           endpoints <- acc ;;
           pushOperations (fst entry) (snd entry) endpoints)
        (JsObject.entries table) (Normal [])
  end.

Record FortnoxMCPServer : Type := mkServer {
  parser : OpenAPIParser;
  endpoints : list FortnoxEndpoint
}.

(** The constructor of the server. *)
Definition FortnoxMCPServer_new (f : SpecFile) : Completion FortnoxMCPServer :=
  p <- OpenAPIParser_new f ;;
  es <- getAllEndpoints p ;;
  Normal {| parser := p; endpoints := es |}.

(** *** The document read through the interfaces *)

(** An operation that has [responses], and [content] under its request body
    when it has one, is an [Operation] of the interfaces, field by field. *)
Definition declaredRequestBody (body : RequestBody)
  : option OpenAPI.RequestBody :=
  match rb_content body with
  | Some content =>
      Some (OpenAPI.mkRequestBody (rb_description body) (rb_required body)
              content)
  | None => None
  end.

Definition declaredOperation (operation : Operation)
  : option OpenAPI.Operation :=
  match op_responses operation with
  | None => None
  | Some responses =>
      match op_requestBody operation with
      | None =>
          Some (OpenAPI.mkOperation (op_operationId operation)
                  (op_summary operation) (op_description operation)
                  (op_tags operation) (op_parameters operation)
                  None responses)
      | Some body =>
          match declaredRequestBody body with
          | Some body' =>
              Some (OpenAPI.mkOperation (op_operationId operation)
                      (op_summary operation) (op_description operation)
                      (op_tags operation) (op_parameters operation)
                      (Some body') responses)
          | None => None
          end
      end
  end.

Definition declaredSlot (slot : option Operation)
  : option (option OpenAPI.Operation) :=
  match slot with
  | None => Some None
  | Some operation =>
      match declaredOperation operation with
      | Some operation' => Some (Some operation')
      | None => None
      end
  end.

Definition declaredPathItem (pathItem : PathItem) : option OpenAPI.PathItem :=
  match declaredSlot (pi_get pathItem), declaredSlot (pi_post pathItem),
        declaredSlot (pi_put pathItem), declaredSlot (pi_delete pathItem),
        declaredSlot (pi_patch pathItem) with
  | Some g, Some po, Some pu, Some de, Some pa =>
      Some (OpenAPI.mkPathItem g po pu de pa)
  | _, _, _, _, _ => None
  end.

Fixpoint declaredTable (table : JsObject.t PathItem)
  : option (JsObject.t OpenAPI.PathItem) :=
  match table with
  | [] => Some []
  | (k, pathItem) :: rest =>
      match declaredPathItem pathItem, declaredTable rest with
      | Some pathItem', Some rest' => Some ((k, pathItem') :: rest')
      | _, _ => None
      end
  end.

Definition declaredSpec (doc : OpenAPISpec) : option OpenAPI.OpenAPISpec :=
  match paths doc with
  | None =>
      Some (OpenAPI.mkOpenAPISpec (info doc) (servers doc) None
              (components doc))
  | Some table =>
      match declaredTable table with
      | Some table' =>
          Some (OpenAPI.mkOpenAPISpec (info doc) (servers doc) (Some table')
                  (components doc))
      | None => None
      end
  end.

(** The server the tools run on: the parser over the document read through
    the interfaces, and the index as it was built. *)
Definition declaredServer (this : FortnoxMCPServer)
  : option Server.FortnoxMCPServer :=
  match declaredSpec (spec (parser this)) with
  | Some doc =>
      Some {| Server.parser := {| OpenAPI.spec := doc |};
              Server.endpoints := endpoints this |}
  | None => None
  end.

End Raw.

(* ------------------------------------------------------------------ *)
(** ** The vocabulary of the specification *)

Module Spec.
Import JsString OpenAPI Server.

Definition is_letter (c : ascii) : bool := is_upper c || is_lower c.

(** Two characters are the same letter when they are equal or are the two
    cases of one ASCII letter (the codes of which differ by 32). *)
Definition same_letter (c d : ascii) : Prop :=
  c = d \/
  (is_letter c = true /\ is_letter d = true /\
   (nat_of_ascii c + 32 = nat_of_ascii d \/ nat_of_ascii d + 32 = nat_of_ascii c)).

Definition same_letterb (c d : ascii) : bool :=
  Ascii.eqb c d
  || (is_letter c && is_letter d
      && (Nat.eqb (nat_of_ascii c + 32) (nat_of_ascii d)
          || Nat.eqb (nat_of_ascii d + 32) (nat_of_ascii c))).

(** Equality of strings up to the case of their letters. *)
Inductive ci_eq : string -> string -> Prop :=
| ci_eq_empty : ci_eq EmptyString EmptyString
| ci_eq_cons c d s t :
    same_letter c d -> ci_eq s t -> ci_eq (String c s) (String d t).

(** [k] occurs in [s] as a substring. *)
Definition occurs (k s : string) : Prop :=
  exists pre post, s = (pre ++ k ++ post)%string.

(** [k] occurs in [s] as a substring, up to case. *)
Definition ci_occurs (k s : string) : Prop :=
  exists pre mid post, s = (pre ++ mid ++ post)%string /\ ci_eq mid k.

(** [s] with the prefix [p] taken off, when it starts with it. *)
Definition strip_prefix (p s : string) : string :=
  if String.prefix p s then drop (String.length p) s else s.

Definition all_ascii : list ascii := map ascii_of_nat (seq 0 256).

(** The five methods, in the order of the traversal. *)
Definition canonicalMethods : list string :=
  ["GET"; "POST"; "PUT"; "DELETE"; "PATCH"].

Definition operationAt (item : PathItem) (m : string) : option Operation :=
  if (m =? "GET")%string then pi_get item
  else if (m =? "POST")%string then pi_post item
  else if (m =? "PUT")%string then pi_put item
  else if (m =? "DELETE")%string then pi_delete item
  else if (m =? "PATCH")%string then pi_patch item
  else None.

(** The operations of one path item, in canonical method order. *)
Definition operationsOf (entry : string * PathItem)
  : list (string * string * Operation) :=
  flat_map
    (fun m =>
       match operationAt (snd entry) m with
       | Some operation => [(fst entry, m, operation)]
       | None => []
       end)
    canonicalMethods.

(** The traversal the index is specified by: paths in the order of the
    document, and for each path the methods in the canonical order, one
    entry for each operation that is there. *)
Definition traversal (table : list (string * PathItem))
  : list (string * string * Operation) :=
  flat_map operationsOf table.

Definition endpointOf (x : string * string * Operation) : FortnoxEndpoint :=
  parseOperation (fst (fst x)) (snd (fst x)) (snd x).

(** The number of times [k] stands in a list of strings. *)
Definition occurrences (k : string) (l : list string) : Z :=
  Z.of_nat (count_occ string_dec l k).

(** All the tags of the endpoints, one per (endpoint, tag) pair, in index
    order. *)
Definition allTags (es : list FortnoxEndpoint) : list string :=
  flat_map (fun e => match tags e with Some ts => ts | None => [] end) es.

(** The strings of a list in the order they are first seen. *)
Fixpoint firstSeen (seen l : list string) : list string :=
  match l with
  | [] => []
  | x :: l' =>
      if existsb (fun y => (y =? x)%string) seen then firstSeen seen l'
      else x :: firstSeen (x :: seen) l'
  end.

(** The first entry of a content table, as the flattening reads it. *)
Definition firstEntrySchema (content : list (string * MediaType))
  : option Schema :=
  match content with
  | [] => None
  | (k, entry) :: _ => if truthy k then mt_schema entry else None
  end.

(** The schema the first entry of a content table carries. *)
Definition firstEntryCarries (content : list (string * MediaType))
  : option Schema :=
  match content with
  | [] => None
  | (_, entry) :: _ => mt_schema entry
  end.

Definition sampleSchema : Schema :=
  mkSchema (Some "object") None None None None.

(** An operation whose request body has one media type, named by the empty
    string. *)
Definition unnamedMediaOperation : Operation :=
  {| op_operationId := "createThing";
     op_summary := None;
     op_description := None;
     op_tags := None;
     op_parameters := None;
     op_requestBody :=
       Some {| rb_description := None;
               rb_required := None;
               rb_content := [("", {| mt_schema := Some sampleSchema |})] |};
     op_responses := [] |}.

(** A document with nothing but an empty [paths] table. *)
Definition barePathsDocument : OpenAPISpec :=
  {| info := None; servers := None; paths := Some []; components := None |}.




(** No endpoint of the list has the key ([p], [m]). *)
Definition noSuchKey (es : list FortnoxEndpoint) (p m : string) : Prop :=
  forall e, In e es -> ~ (path e = p /\ method e = m).

(** The count a table holds for a key, none counting as zero. *)
Definition cnt (o : JsObject.t Z) (k : string) : Z :=
  match JsObject.get o k with
  | Some n => n
  | None => 0%Z
  end.

Definition isIndexKey (k : string) : bool :=
  match array_index k with
  | Some _ => true
  | None => false
  end.

Definition indexValue (k : string) : N :=
  match array_index k with
  | Some n => n
  | None => 0%N
  end.

(** Array-index keys stand ahead of the other keys, in ascending order of
    their value. *)
Fixpoint indexKeysAhead (ks : list string) : Prop :=
  match ks with
  | [] => True
  | k :: ks' =>
      match array_index k with
      | Some n =>
          Forall (fun k' => isIndexKey k' = true -> (n <= indexValue k')%N) ks'
          /\ indexKeysAhead ks'
      | None => Forall (fun k' => isIndexKey k' = false) ks'
      end
  end.

(** The names every object inherits from [Object.prototype]; a table made
    from an object literal does not hold them as counts. *)
Definition inheritedNames : list string :=
  [ "constructor"; "__proto__"; "hasOwnProperty"; "isPrototypeOf";
    "propertyIsEnumerable"; "toLocaleString"; "toString"; "valueOf";
    "__defineGetter__"; "__defineSetter__"; "__lookupGetter__";
    "__lookupSetter__" ].

Definition plainNames (l : list string) : Prop :=
  Forall (fun t => ~ In t inheritedNames) l.

(** The filter of [listAllEndpoints] as one test. *)
Definition keepTest (args : ToolCallArguments) (e : FortnoxEndpoint) : bool :=
  match if_truthy (a_method args) with
  | Some m => (toUpperCase (method e) =? toUpperCase m)%string
  | None => true
  end
  && match if_truthy (a_tag args) with
     | Some t => tags_include e t
     | None => true
     end.

(** What [listAllEndpoints] keeps: the method, when a non-empty one is
    given, is the endpoint's up to case; the tag, when a non-empty one is
    given, is one of the endpoint's. *)
Definition listAllKeeps (args : ToolCallArguments) (e : FortnoxEndpoint) : Prop :=
  (forall m, a_method args = Some m -> m <> EmptyString -> ci_eq (method e) m)
  /\ (forall t, a_tag args = Some t -> t <> EmptyString ->
                exists ts, tags e = Some ts /\ In t ts).

(** The part of a list a limit lets through: the first [n] entries for a
    positive [n]; what [unlimited] gives without a limit and for the limit 0;
    all but the last [-n] entries for a negative [n]. *)
Definition truncated (A : Type) (limit : option Z)
  (unlimited : list A -> list A) (l : list A) : list A :=
  match limit with
  | None => unlimited l
  | Some n =>
      if (0 <? n)%Z then firstn (Z.to_nat n) l
      else if (n =? 0)%Z then unlimited l
      else firstn (List.length l - Z.to_nat (- n)) l
  end.

(** The keyword occurs, up to case, in one of the five fields. *)
Definition searchHit (k : string) (e : FortnoxEndpoint) : Prop :=
  ci_occurs k (path e)
  \/ (exists s, summary e = Some s /\ ci_occurs k s)
  \/ (exists d, description e = Some d /\ ci_occurs k d)
  \/ ci_occurs k (operationId e)
  \/ (exists ts t, tags e = Some ts /\ In t ts /\ ci_occurs k t).

(** The resource matches one of the tags, one way or the other. *)
Definition resourceHit (r : string) (e : FortnoxEndpoint) : Prop :=
  exists ts t,
    tags e = Some ts /\ In t ts
    /\ (occurs (toLowerCase r) (toLowerCase t)
        \/ occurs (replace (toLowerCase t) "fortnox_" "") (toLowerCase r)).

(** The match as the claim words it, with the prefix stripped. *)
Definition resourceHitByPrefix (r : string) (e : FortnoxEndpoint) : Prop :=
  exists ts t,
    tags e = Some ts /\ In t ts
    /\ (occurs (toLowerCase r) (toLowerCase t)
        \/ occurs (strip_prefix "fortnox_" (toLowerCase t)) (toLowerCase r)).

(** The five buckets by method and path: a placeholder is an opening brace
    in the path. *)
Definition listBucket (e : FortnoxEndpoint) : Prop :=
  method e = "GET" /\ ~ occurs "{" (path e).
Definition getBucket (e : FortnoxEndpoint) : Prop :=
  method e = "GET" /\ occurs "{" (path e).
Definition createBucket (e : FortnoxEndpoint) : Prop := method e = "POST".
Definition updateBucket (e : FortnoxEndpoint) : Prop :=
  method e = "PUT" \/ method e = "PATCH".
Definition deleteBucket (e : FortnoxEndpoint) : Prop := method e = "DELETE".

(** In how many of the five buckets an endpoint falls. *)
Definition bucketsHolding (e : FortnoxEndpoint) : nat :=
  List.length
    (filter (fun b : bool => b)
       [isList e; isGet e; isCreate e; isUpdate e; isDelete e]).

(** Two endpoints of the scenarios: the list and the creation of customers. *)
Definition getCustomers : FortnoxEndpoint :=
  {| path := "/3/customers"; method := "GET"; operationId := "listCustomers";
     summary := Some "Retrieve a list of customers"; description := None;
     parameters := []; requestBodySchema := None; responseSchema := None;
     tags := Some ["fortnox_Customers"] |}.

Definition postCustomers : FortnoxEndpoint :=
  {| path := "/3/customers"; method := "POST"; operationId := "createCustomer";
     summary := None; description := None;
     parameters := []; requestBodySchema := None; responseSchema := None;
     tags := Some ["fortnox_Customers"] |}.

Definition customersServer : FortnoxMCPServer :=
  {| parser := {| spec := barePathsDocument |};
     endpoints := [getCustomers; postCustomers] |}.

(** An endpoint whose tag carries the vendor string in the middle. *)
Definition legacyArchive : FortnoxEndpoint :=
  {| path := "/3/archive"; method := "GET"; operationId := "listArchive";
     summary := None; description := None;
     parameters := []; requestBodySchema := None; responseSchema := None;
     tags := Some ["Legacy_fortnox_Archive"] |}.

Definition legacyServer : FortnoxMCPServer :=
  {| parser := {| spec := barePathsDocument |};
     endpoints := [legacyArchive] |}.

(** Every tag of the endpoint carries the vendor string at its start or
    not at all. *)
Definition vendorOnlyAsPrefix (e : FortnoxEndpoint) : Prop :=
  forall ts t,
    tags e = Some ts -> In t ts ->
    String.prefix "fortnox_" (toLowerCase t) = true
    \/ includes (toLowerCase t) "fortnox_" = false.

(** A document with the two customer operations under one path. *)
Definition customersDocument : OpenAPISpec :=
  {| info := None; servers := None; components := None;
     paths :=
       Some [("/3/customers",
              {| pi_get :=
                   Some {| op_operationId := "listCustomers";
                           op_summary := Some "Retrieve a list of customers";
                           op_description := None;
                           op_tags := Some ["fortnox_Customers"];
                           op_parameters := None;
                           op_requestBody := None;
                           op_responses := [] |};
                 pi_post :=
                   Some {| op_operationId := "createCustomer";
                           op_summary := None;
                           op_description := None;
                           op_tags := Some ["fortnox_Customers"];
                           op_parameters := None;
                           op_requestBody := None;
                           op_responses := [] |};
                 pi_put := None; pi_delete := None; pi_patch := None |})] |}.

Definition taggedEndpoint (p t : string) : FortnoxEndpoint :=
  {| path := p; method := "GET"; operationId := "op";
     summary := None; description := None;
     parameters := []; requestBodySchema := None; responseSchema := None;
     tags := Some [t] |}.

Definition servedDocument : OpenAPISpec :=
  {| info := Some {| i_title := "Fortnox API"; i_description := None;
                     i_version := Some "1.0" |};
     servers := Some [{| sv_url := "https://api.fortnox.se";
                         sv_description := "Production" |}];
     paths := Some [];
     components := None |}.

(** Two groups, one with the vendor prefix and one without. *)
Definition mixedPrefixServer : FortnoxMCPServer :=
  {| parser := {| spec := servedDocument |};
     endpoints := [taggedEndpoint "/3/apples" "fortnox_Apple";
                   taggedEndpoint "/3/bananas" "Banana"] |}.

(** Two groups of one endpoint each, the second named by a number. *)
Definition numberedTagServer : FortnoxMCPServer :=
  {| parser := {| spec := servedDocument |};
     endpoints := [taggedEndpoint "/3/b" "b"; taggedEndpoint "/3/1" "1"] |}.

(** An index over a document whose list of servers is empty. *)
Definition noServersServer : FortnoxMCPServer :=
  {| parser :=
       {| spec := {| info := info servedDocument; servers := Some [];
                     paths := Some []; components := None |} |};
     endpoints := [] |}.

(** *** The parsed document *)

(** An operation that lacks [responses], or [content] under its request
    body. *)
Definition lacksField (operation : Raw.Operation) : bool :=
  match Raw.op_responses operation with
  | None => true
  | Some _ =>
      match Raw.op_requestBody operation with
      | Some body =>
          match Raw.rb_content body with
          | None => true
          | Some _ => false
          end
      | None => false
      end
  end.

Definition rawOperationAt (item : Raw.PathItem) (m : string)
  : option Raw.Operation :=
  if (m =? "GET")%string then Raw.pi_get item
  else if (m =? "POST")%string then Raw.pi_post item
  else if (m =? "PUT")%string then Raw.pi_put item
  else if (m =? "DELETE")%string then Raw.pi_delete item
  else if (m =? "PATCH")%string then Raw.pi_patch item
  else None.

Definition rawOperationsOf (entry : string * Raw.PathItem)
  : list (string * string * Raw.Operation) :=
  flat_map
    (fun m =>
       match rawOperationAt (snd entry) m with
       | Some operation => [(fst entry, m, operation)]
       | None => []
       end)
    canonicalMethods.

(** The operations of a parsed [paths] table: the paths in the order of the
    table, and for each path the methods in the canonical order. *)
Definition rawTraversal (table : list (string * Raw.PathItem))
  : list (string * string * Raw.Operation) :=
  flat_map rawOperationsOf table.

(** Path, method and identifier of the operations of a traversal. *)
Definition labels (l : list (string * string * Operation))
  : list (string * string * string) :=
  map (fun x => (fst x, op_operationId (snd x))) l.

Definition rawLabels (l : list (string * string * Raw.Operation))
  : list (string * string * string) :=
  map (fun x => (fst x, Raw.op_operationId (snd x))) l.

(** One step of the inner loop: the operation under one method. *)
Definition pushed (p m : string) (slot : option Operation)
  (acc : list FortnoxEndpoint) : list FortnoxEndpoint :=
  match slot with
  | Some operation => acc ++ [parseOperation p m operation]
  | None => acc
  end.

(** Some operation of the table lacks a field. *)
Definition incomplete (table : list (string * Raw.PathItem)) : Prop :=
  exists x, In x (rawTraversal table) /\ lacksField (snd x) = true.

(** Path, method and operation identifier of an endpoint. *)
Definition nameOf (e : FortnoxEndpoint) : string * string * string :=
  (path e, method e, operationId e).

Definition rowNameOf (r : EndpointRow) : string * string * string :=
  (row_path r, row_method r, row_operationId r).

(** The rows of a listing reply. *)
Definition rowsOf (r : ToolResult) : list EndpointRow :=
  match content r with
  | EndpointsReply l => el_rows l
  | _ => []
  end.

(** An operation that has [responses] and its name, and a path item with
    that operation under [get]. *)
Definition namedOperation (id : string) : Raw.Operation :=
  Raw.mkOperation id None None None None None (Some []).

Definition getOnly (id : string) : Raw.PathItem :=
  Raw.mkPathItem (Some (namedOperation id)) None None None None.

(** The members of a [paths] object as a document writes them: the path
    [b], then the path [1]. *)
Definition numberedPathsMembers : list (string * Raw.PathItem) :=
  [("b", getOnly "opB"); ("1", getOnly "op1")].

Definition numberedPathsDocument : Raw.OpenAPISpec :=
  Raw.mkOpenAPISpec None None
    (Some (Raw.parseObject numberedPathsMembers)) None.

(** A document with the members of its [paths] object as the text has
    them. *)
Definition parsedDocument (i : option Info) (sv : option (list ServerEntry))
  (c : option Components) (members : list (string * Raw.PathItem))
  : Raw.OpenAPISpec :=
  Raw.mkOpenAPISpec i sv (Some (Raw.parseObject members)) c.

Definition numberedPathsIndex : list FortnoxEndpoint :=
  [ mkEndpoint "1" "GET" "op1" None None [] None None None;
    mkEndpoint "b" "GET" "opB" None None [] None None None ].

Definition numberedPathsServer : FortnoxMCPServer :=
  {| parser :=
       {| spec :=
            mkOpenAPISpec None None
              (Some [ ("1", mkPathItem
                              (Some (mkOperation "op1" None None None None
                                       None []))
                              None None None None);
                      ("b", mkPathItem
                              (Some (mkOperation "opB" None None None None
                                       None []))
                              None None None None) ])
              None |};
     endpoints := numberedPathsIndex |}.

(** A complete header over a path whose operation has no [responses]. *)
Definition noResponsesDocument : Raw.OpenAPISpec :=
  Raw.mkOpenAPISpec
    (Some {| i_title := "Fortnox API"; i_description := None;
             i_version := Some "1.0" |})
    (Some [ {| sv_url := "https://api.fortnox.se"; sv_description := "" |} ])
    (Some (Raw.parseObject
             [("/3/customers",
               Raw.mkPathItem
                 (Some (Raw.mkOperation "listCustomers" None None None None
                          None None))
                 None None None None)]))
    (Some {| c_schemas := Some [] |}).

End Spec.

(* ------------------------------------------------------------------ *)
(** ** Facts about strings *)

Module JsStringFacts.
Import JsString Spec.

Lemma in_all_ascii (c : ascii) : In c all_ascii.
Proof.
  unfold all_ascii. rewrite <- (ascii_nat_embedding c).
  apply in_map, in_seq. pose proof (nat_ascii_bounded c). lia.
Qed.

Lemma same_letterb_spec (c d : ascii) :
  same_letterb c d = true <-> same_letter c d.
Proof.
  unfold same_letterb, same_letter.
  rewrite orb_true_iff, !andb_true_iff, orb_true_iff, Ascii.eqb_eq,
    !Nat.eqb_eq.
  tauto.
Qed.

Lemma pairs_checked (P : ascii -> ascii -> bool) :
  forallb (fun c => forallb (P c) all_ascii) all_ascii = true ->
  forall c d, P c d = true.
Proof.
  intros H c d. rewrite forallb_forall in H.
  specialize (H c (in_all_ascii c)). rewrite forallb_forall in H.
  apply H, in_all_ascii.
Qed.

Lemma toLowerChar_eqb (c d : ascii) :
  Ascii.eqb (toLowerChar c) (toLowerChar d) = same_letterb c d.
Proof.
  apply eqb_prop.
  apply (pairs_checked
           (fun c d => Bool.eqb (Ascii.eqb (toLowerChar c) (toLowerChar d))
                         (same_letterb c d))).
  vm_compute. reflexivity.
Qed.

Lemma toUpperChar_eqb (c d : ascii) :
  Ascii.eqb (toUpperChar c) (toUpperChar d) = same_letterb c d.
Proof.
  apply eqb_prop.
  apply (pairs_checked
           (fun c d => Bool.eqb (Ascii.eqb (toUpperChar c) (toUpperChar d))
                         (same_letterb c d))).
  vm_compute. reflexivity.
Qed.

Lemma toLowerChar_same (c d : ascii) :
  toLowerChar c = toLowerChar d <-> same_letter c d.
Proof.
  rewrite <- same_letterb_spec, <- toLowerChar_eqb. symmetry.
  apply Ascii.eqb_eq.
Qed.

Lemma toUpperChar_same (c d : ascii) :
  toUpperChar c = toUpperChar d <-> same_letter c d.
Proof.
  rewrite <- same_letterb_spec, <- toUpperChar_eqb. symmetry.
  apply Ascii.eqb_eq.
Qed.

Section MapChars.
Variable f : ascii -> ascii.
Hypothesis f_same : forall c d, f c = f d <-> same_letter c d.

Lemma map_chars_ci (s t : string) :
  map_chars f s = map_chars f t <-> ci_eq s t.
Proof.
  revert t. induction s as [|c s IH]; intros [|d t]; simpl.
  - split; [constructor | reflexivity].
  - split; [discriminate | inversion 1].
  - split; [discriminate | inversion 1].
  - split.
    + intros H. injection H as Hc Hs.
      constructor; [apply f_same, Hc | apply IH, Hs].
    + inversion 1; subst. f_equal; [apply f_same | apply IH]; assumption.
Qed.
End MapChars.

Lemma toLowerCase_ci (s t : string) :
  toLowerCase s = toLowerCase t <-> ci_eq s t.
Proof. apply map_chars_ci, toLowerChar_same. Qed.

Lemma toUpperCase_ci (s t : string) :
  toUpperCase s = toUpperCase t <-> ci_eq s t.
Proof. apply map_chars_ci, toUpperChar_same. Qed.

Lemma map_chars_app (f : ascii -> ascii) (s t : string) :
  map_chars f (s ++ t) = (map_chars f s ++ map_chars f t)%string.
Proof. induction s as [|c s IH]; simpl; [reflexivity | now rewrite IH]. Qed.

Lemma map_chars_app_inv (f : ascii -> ascii) (a b s : string) :
  map_chars f s = (a ++ b)%string ->
  exists sa sb, s = (sa ++ sb)%string
                /\ map_chars f sa = a /\ map_chars f sb = b.
Proof.
  revert s. induction a as [|c a IH]; intros s H; simpl in H.
  - exists EmptyString, s. auto.
  - destruct s as [|d s]; simpl in H; [discriminate|].
    injection H as Hc Hs. destruct (IH _ Hs) as (sa & sb & -> & Ha & Hb).
    exists (String d sa), sb. simpl. now rewrite Hc, Ha, Hb.
Qed.

Lemma prefix_spec (p s : string) :
  String.prefix p s = true <-> exists post, s = (p ++ post)%string.
Proof.
  revert s. induction p as [|c p IH]; intros s.
  - split; [intros _; now exists s | intros _; now destruct s].
  - destruct s as [|d s]; simpl.
    + split; [discriminate | intros [post H]; discriminate].
    + destruct (ascii_dec c d) as [->|Hcd].
      * rewrite IH. split; intros [post H]; exists post.
        -- now rewrite H.
        -- simpl in H. now injection H.
      * split; [discriminate | intros [post H]].
        simpl in H. injection H as H1 _. congruence.
Qed.

Lemma includes_unfold (s k : string) :
  includes s k =
  if String.prefix k s then true
  else match s with
       | EmptyString => false
       | String _ s' => includes s' k
       end.
Proof. destruct s; reflexivity. Qed.

Lemma replace_unfold (s pat rep : string) :
  replace s pat rep =
  if String.prefix pat s then (rep ++ drop (String.length pat) s)%string
  else match s with
       | EmptyString => EmptyString
       | String c s' => String c (replace s' pat rep)
       end.
Proof. destruct s; reflexivity. Qed.

Lemma includes_spec (s k : string) :
  includes s k = true <-> occurs k s.
Proof.
  unfold occurs. induction s as [|c s IH]; rewrite includes_unfold.
  - destruct (String.prefix k EmptyString) eqn:E.
    + split; [intros _ | reflexivity].
      apply prefix_spec in E. destruct E as [post E].
      now exists EmptyString, post.
    + split; [discriminate|]. intros (pre & post & H).
      destruct pre; simpl in H; [|discriminate].
      assert (String.prefix k EmptyString = true)
        by (apply prefix_spec; now exists post).
      congruence.
  - destruct (String.prefix k (String c s)) eqn:E.
    + split; [intros _ | reflexivity].
      apply prefix_spec in E. destruct E as [post E].
      now exists EmptyString, post.
    + rewrite IH. split; intros (pre & post & H).
      * exists (String c pre), post. simpl. now rewrite H.
      * destruct pre as [|c' pre]; simpl in H.
        -- assert (String.prefix k (String c s) = true)
             by (apply prefix_spec; now exists post).
           congruence.
        -- injection H as _ H. now exists pre, post.
Qed.

(** The test the search applies is an occurrence up to case. *)
Lemma includes_lower_ci (s k : string) :
  includes (toLowerCase s) (toLowerCase k) = true <-> ci_occurs k s.
Proof.
  rewrite includes_spec. unfold occurs, ci_occurs, toLowerCase. split.
  - intros (pre & post & H).
    apply map_chars_app_inv in H. destruct H as (sa & sb & -> & Ha & Hb).
    apply map_chars_app_inv in Hb. destruct Hb as (sm & sp & -> & Hm & Hp).
    exists sa, sm, sp. split; [reflexivity|]. now apply toLowerCase_ci.
  - intros (pre & mid & post & -> & H). apply toLowerCase_ci in H.
    exists (map_chars toLowerChar pre), (map_chars toLowerChar post).
    rewrite !map_chars_app. unfold toLowerCase in H. now rewrite H.
Qed.

Lemma toLowerCase_idem (s : string) :
  toLowerCase (toLowerCase s) = toLowerCase s.
Proof.
  induction s as [|c s IH]; simpl; [reflexivity|].
  unfold toLowerCase in *. simpl. rewrite IH. f_equal.
  apply Ascii.eqb_eq.
  assert (H : forallb (fun c => Ascii.eqb (toLowerChar (toLowerChar c)) (toLowerChar c))
                all_ascii = true) by (vm_compute; reflexivity).
  rewrite forallb_forall in H. apply H, in_all_ascii.
Qed.

Lemma truthy_spec (s : string) : truthy s = true <-> s <> EmptyString.
Proof.
  unfold truthy. rewrite negb_true_iff. split.
  - intros H ->. discriminate.
  - intros H. apply String.eqb_neq, H.
Qed.

(** When the pattern stands at the start, or nowhere, [replace] strips a
    prefix. *)
Lemma replace_strip_prefix (s p : string) :
  String.prefix p s = true \/ includes s p = false ->
  replace s p "" = strip_prefix p s.
Proof.
  unfold strip_prefix. intros [H|H].
  - rewrite replace_unfold, H. reflexivity.
  - induction s as [|c s IH]; rewrite replace_unfold;
      rewrite includes_unfold in H;
      destruct (String.prefix p _) eqn:E; try discriminate.
    + reflexivity.
    + f_equal. rewrite (IH H).
      rewrite includes_unfold in H.
      destruct (String.prefix p s); [discriminate | reflexivity].
Qed.

End JsStringFacts.

(* ------------------------------------------------------------------ *)
(** ** Property tables *)

Module JsObjectFacts.
Import JsString Spec JsStringFacts.

Section Table.
Variable V : Type.
Implicit Types (o : JsObject.t V) (k : string) (v : V).

Lemma get_update o k v k' :
  JsObject.get (JsObject.update o k v) k'
  = if (k =? k')%string
    then match JsObject.get o k with Some _ => Some v | None => None end
    else JsObject.get o k'.
Proof.
  induction o as [|[k0 v0] o IH]; simpl.
  - now destruct (k =? k')%string.
  - destruct (k0 =? k)%string eqn:E0; simpl.
    + apply String.eqb_eq in E0. subst k0.
      destruct (k =? k')%string; reflexivity.
    + destruct (k0 =? k')%string eqn:E1.
      * apply String.eqb_eq in E1. subst k0.
        rewrite String.eqb_sym in E0. now rewrite E0.
      * exact IH.
Qed.

Lemma keys_update o k v : JsObject.keys (JsObject.update o k v) = JsObject.keys o.
Proof.
  unfold JsObject.keys. induction o as [|[k0 v0] o IH]; simpl; [reflexivity|].
  destruct (k0 =? k)%string; simpl; [reflexivity | now rewrite IH].
Qed.

Lemma get_none_keys o k : JsObject.get o k = None <-> ~ In k (JsObject.keys o).
Proof.
  unfold JsObject.keys. induction o as [|[k0 v0] o IH]; simpl.
  - tauto.
  - destruct (k0 =? k)%string eqn:E.
    + apply String.eqb_eq in E. split; [discriminate | tauto].
    + apply String.eqb_neq in E. rewrite IH. tauto.
Qed.

Lemma get_insert_index n o k v k' :
  JsObject.get o k = None ->
  JsObject.get (JsObject.insert_index n k v o) k'
  = if (k =? k')%string then Some v else JsObject.get o k'.
Proof.
  induction o as [|[k0 v0] o IH]; intros Hn; simpl in *.
  - reflexivity.
  - destruct (k0 =? k)%string eqn:E0; [discriminate|].
    destruct (array_index k0) as [n0|].
    + destruct (n <? n0)%N; simpl.
      * reflexivity.
      * destruct (k0 =? k')%string eqn:E1.
        -- apply String.eqb_eq in E1. subst k'.
           rewrite String.eqb_sym in E0. now rewrite E0.
        -- apply IH, Hn.
    + reflexivity.
Qed.

Lemma get_app_new o k v k' :
  JsObject.get o k = None ->
  JsObject.get (o ++ [(k, v)]) k'
  = if (k =? k')%string then Some v else JsObject.get o k'.
Proof.
  induction o as [|[k0 v0] o IH]; intros Hn; simpl in *.
  - reflexivity.
  - destruct (k0 =? k)%string eqn:E0; [discriminate|].
    destruct (k0 =? k')%string eqn:E1.
    + apply String.eqb_eq in E1. subst k'.
      rewrite String.eqb_sym in E0. now rewrite E0.
    + apply IH, Hn.
Qed.

(** Reading after writing. *)
Lemma get_set o k v k' :
  JsObject.get (JsObject.set o k v) k'
  = if (k =? k')%string then Some v else JsObject.get o k'.
Proof.
  unfold JsObject.set. destruct (JsObject.get o k) as [v0|] eqn:E.
  - rewrite get_update, E. reflexivity.
  - destruct (array_index k) as [n|].
    + now apply get_insert_index.
    + now apply get_app_new.
Qed.

Lemma keys_insert_index_perm n o k v :
  Permutation (JsObject.keys (JsObject.insert_index n k v o))
    (k :: JsObject.keys o).
Proof.
  unfold JsObject.keys. induction o as [|[k0 v0] o IH]; simpl; [reflexivity|].
  destruct (array_index k0) as [n0|]; [|reflexivity].
  destruct (n <? n0)%N; simpl; [reflexivity|].
  rewrite IH. apply perm_swap.
Qed.

(** Writing keeps the keys, or adds the new one. *)
Lemma keys_set_perm o k v :
  Permutation (JsObject.keys (JsObject.set o k v))
    (match JsObject.get o k with
     | Some _ => JsObject.keys o
     | None => k :: JsObject.keys o
     end).
Proof.
  unfold JsObject.set. destruct (JsObject.get o k) as [v0|] eqn:E.
  - now rewrite keys_update.
  - destruct (array_index k) as [n|].
    + apply keys_insert_index_perm.
    + unfold JsObject.keys. rewrite map_app. simpl.
      symmetry. apply Permutation_cons_append.
Qed.

Lemma set_NoDup o k v :
  NoDup (JsObject.keys o) -> NoDup (JsObject.keys (JsObject.set o k v)).
Proof.
  intros H. eapply Permutation_NoDup; [symmetry; apply keys_set_perm|].
  destruct (JsObject.get o k) eqn:E; [exact H|].
  constructor; [now apply get_none_keys | exact H].
Qed.

Lemma in_entries_get o k v :
  NoDup (JsObject.keys o) -> In (k, v) o -> JsObject.get o k = Some v.
Proof.
  unfold JsObject.keys. induction o as [|[k0 v0] o IH]; simpl; [tauto|].
  intros Hnd [H|H].
  - injection H as -> ->. now rewrite String.eqb_refl.
  - inversion Hnd as [|? ? Hni Hnd']; subst.
    destruct (k0 =? k)%string eqn:E.
    + apply String.eqb_eq in E. subst k0. exfalso. apply Hni.
      apply (in_map fst) in H. exact H.
    + now apply IH.
Qed.

Lemma get_in_entries o k v : JsObject.get o k = Some v -> In (k, v) o.
Proof.
  induction o as [|[k0 v0] o IH]; simpl; [discriminate|].
  destruct (k0 =? k)%string eqn:E.
  - apply String.eqb_eq in E. subst k0. intros [= ->]. now left.
  - intros H. right. now apply IH.
Qed.

(** *** The order of the keys *)

Lemma indexKeysAhead_app_plain (ks : list string) k :
  indexKeysAhead ks -> array_index k = None -> indexKeysAhead (ks ++ [k]).
Proof.
  intros H Hk. induction ks as [|k0 ks IH]; simpl in *.
  - now rewrite Hk.
  - destruct (array_index k0) as [n0|].
    + destruct H as [Hall Hrest]. split; [|now apply IH].
      apply Forall_app. split; [exact Hall|].
      constructor; [|constructor]. unfold isIndexKey. now rewrite Hk.
    + apply Forall_app. split; [exact H|].
      constructor; [|constructor]. unfold isIndexKey. now rewrite Hk.
Qed.

Lemma indexKeysAhead_insert n o k v :
  indexKeysAhead (JsObject.keys o) -> array_index k = Some n ->
  indexKeysAhead (JsObject.keys (JsObject.insert_index n k v o)).
Proof.
  unfold JsObject.keys. intros H Hk.
  induction o as [|[k0 v0] o IH]; simpl in *.
  - now rewrite Hk.
  - destruct (array_index k0) as [n0|] eqn:E0.
    + destruct H as [Hall Hrest]. destruct (n <? n0)%N eqn:En; simpl.
      * rewrite Hk. apply N.ltb_lt in En. split.
        -- constructor.
           ++ intros _. unfold indexValue. rewrite E0. lia.
           ++ eapply Forall_impl; [|exact Hall]. simpl. intros a Ha Hi.
              specialize (Ha Hi). lia.
        -- simpl. rewrite E0. auto.
      * rewrite E0. apply N.ltb_ge in En. split; [|now apply IH].
        eapply Permutation_Forall;
          [symmetry; apply (keys_insert_index_perm n o k v)|].
        constructor; [|exact Hall].
        intros _. unfold indexValue. now rewrite Hk.
    + simpl. rewrite Hk. split.
      * constructor.
        -- unfold isIndexKey. rewrite E0. discriminate.
        -- eapply Forall_impl; [|exact H]. simpl. intros a Ha Hi. congruence.
      * simpl. now rewrite E0.
Qed.

Lemma indexKeysAhead_set o k v :
  indexKeysAhead (JsObject.keys o) ->
  indexKeysAhead (JsObject.keys (JsObject.set o k v)).
Proof.
  intros H. unfold JsObject.set. destruct (JsObject.get o k).
  - now rewrite keys_update.
  - destruct (array_index k) as [n|] eqn:E.
    + now apply indexKeysAhead_insert.
    + unfold JsObject.keys. rewrite map_app. simpl.
      now apply indexKeysAhead_app_plain.
Qed.

Lemma plain_keys_insert_index n o k v :
  isIndexKey k = true ->
  filter (fun x => negb (isIndexKey x))
    (JsObject.keys (JsObject.insert_index n k v o))
  = filter (fun x => negb (isIndexKey x)) (JsObject.keys o).
Proof.
  unfold JsObject.keys. intros Hk.
  induction o as [|[k0 v0] o IH]; simpl.
  - now rewrite Hk.
  - destruct (array_index k0) as [n0|] eqn:E0.
    + destruct (n <? n0)%N; simpl.
      * now rewrite Hk.
      * now rewrite IH.
    + simpl. now rewrite Hk.
Qed.

(** The keys that are no array index, after a write: the new key goes last. *)
Lemma plain_keys_set o k v :
  filter (fun x => negb (isIndexKey x)) (JsObject.keys (JsObject.set o k v))
  = filter (fun x => negb (isIndexKey x)) (JsObject.keys o)
    ++ (match JsObject.get o k with
        | Some _ => []
        | None => if isIndexKey k then [] else [k]
        end).
Proof.
  unfold JsObject.set. destruct (JsObject.get o k) as [v0|].
  - now rewrite keys_update, app_nil_r.
  - unfold isIndexKey at 3. destruct (array_index k) as [n|] eqn:E.
    + rewrite plain_keys_insert_index, app_nil_r; [reflexivity|].
      unfold isIndexKey. now rewrite E.
    + unfold JsObject.keys. rewrite map_app, filter_app. simpl.
      unfold isIndexKey. now rewrite E.
Qed.

End Table.
End JsObjectFacts.

(* ------------------------------------------------------------------ *)
(** ** Sorting *)

Module SortFacts.

Section Sort.
Variable A : Type.
Variable cmp : A -> A -> Z.

Lemma insert_perm (x : A) (l : list A) :
  Permutation (JsArray.insert cmp x l) (x :: l).
Proof.
  induction l as [|y l IH]; simpl; [reflexivity|].
  destruct (cmp x y <=? 0)%Z; [reflexivity|].
  rewrite IH. apply perm_swap.
Qed.

Lemma sort_perm (l : list A) : Permutation (JsArray.sort cmp l) l.
Proof.
  induction l as [|x l IH]; simpl; [reflexivity|].
  rewrite insert_perm. now apply perm_skip.
Qed.

Lemma sort_length (l : list A) :
  List.length (JsArray.sort cmp l) = List.length l.
Proof. apply Permutation_length, sort_perm. Qed.

Section Total.
Hypothesis cmp_total : forall a b, (0 < cmp a b)%Z -> (cmp b a <= 0)%Z.

Lemma insert_sorted (x : A) (l : list A) :
  Sorted (JsArray.before cmp) l -> Sorted (JsArray.before cmp) (JsArray.insert cmp x l).
Proof.
  induction l as [|y l IH]; intros H; simpl.
  - repeat constructor.
  - destruct (cmp x y <=? 0)%Z eqn:E.
    + apply Z.leb_le in E. constructor; [exact H | now constructor].
    + apply Z.leb_gt in E. inversion H as [|? ? Hs Hh]; subst.
      constructor; [now apply IH|].
      destruct l as [|z l]; simpl.
      * constructor. now apply cmp_total.
      * destruct (cmp x z <=? 0)%Z.
        -- constructor. now apply cmp_total.
        -- inversion Hh; subst. now constructor.
Qed.

Lemma sort_sorted (l : list A) :
  Sorted (JsArray.before cmp) (JsArray.sort cmp l).
Proof.
  induction l as [|x l IH]; simpl; [constructor | now apply insert_sorted].
Qed.
End Total.

(** Stability: the members of a class whose members may stand before one
    another keep their order. *)
Section Stable.
Variable P : A -> bool.
Hypothesis P_tied :
  forall x y, P x = true -> P y = true -> (cmp x y <= 0)%Z.

Lemma filter_insert (x : A) (l : list A) :
  filter P (JsArray.insert cmp x l)
  = if P x then x :: filter P l else filter P l.
Proof.
  induction l as [|y l IH]; simpl; [reflexivity|].
  destruct (cmp x y <=? 0)%Z eqn:E; simpl; [reflexivity|].
  rewrite IH. destruct (P x) eqn:Px, (P y) eqn:Py; try reflexivity.
  apply Z.leb_gt in E. specialize (P_tied Px Py). lia.
Qed.

Lemma filter_sort (l : list A) :
  filter P (JsArray.sort cmp l) = filter P l.
Proof.
  induction l as [|x l IH]; simpl; [reflexivity|].
  rewrite filter_insert, IH. reflexivity.
Qed.
End Stable.

End Sort.

Lemma slice0_all (A : Type) (l : list A) :
  JsArray.slice0 l (Z.of_nat (List.length l)) = l.
Proof.
  unfold JsArray.slice0.
  destruct (Z.of_nat (List.length l) <? 0)%Z eqn:E; [apply Z.ltb_lt in E; lia|].
  rewrite Z.min_id, Nat2Z.id. apply firstn_all.
Qed.

Lemma slice0_pos (A : Type) (l : list A) (n : Z) :
  (0 < n)%Z -> JsArray.slice0 l n = firstn (Z.to_nat n) l.
Proof.
  intros H. unfold JsArray.slice0.
  destruct (n <? 0)%Z eqn:E; [apply Z.ltb_lt in E; lia|].
  destruct (Z.le_gt_cases n (Z.of_nat (List.length l))) as [Hle|Hgt].
  - now rewrite Z.min_l.
  - rewrite Z.min_r by lia. rewrite Nat2Z.id, firstn_all.
    symmetry. apply firstn_all2. lia.
Qed.

Lemma slice0_neg (A : Type) (l : list A) (n : Z) :
  (n < 0)%Z ->
  JsArray.slice0 l n = firstn (List.length l - Z.to_nat (- n)) l.
Proof.
  intros H. unfold JsArray.slice0.
  destruct (n <? 0)%Z eqn:E; [|apply Z.ltb_ge in E; lia].
  f_equal. lia.
Qed.

End SortFacts.

(* ------------------------------------------------------------------ *)
(** ** Counting tables *)

Module CountFacts.
Import JsString OpenAPI Server Spec JsStringFacts JsObjectFacts.

Lemma cnt_bump (o : JsObject.t Z) (k k' : string) :
  cnt (bump o k) k' = (cnt o k' + if (k =? k')%string then 1 else 0)%Z.
Proof.
  unfold bump, cnt. rewrite get_set.
  destruct (k =? k')%string eqn:E.
  - apply String.eqb_eq in E. subst k'.
    destruct (JsObject.get o k) as [n|]; [|reflexivity].
    destruct (n =? 0)%Z eqn:En; [apply Z.eqb_eq in En; subst|]; reflexivity.
  - lia.
Qed.

Lemma occurrences_cons (k x : string) (l : list string) :
  occurrences k (x :: l)
  = (occurrences k l + if (x =? k)%string then 1 else 0)%Z.
Proof.
  unfold occurrences. simpl. destruct (string_dec x k) as [->|H].
  - rewrite String.eqb_refl. lia.
  - apply String.eqb_neq in H. rewrite H. lia.
Qed.

Lemma cnt_tally (l : list string) (o : JsObject.t Z) (k : string) :
  cnt (fold_left bump l o) k = (cnt o k + occurrences k l)%Z.
Proof.
  revert o. induction l as [|x l IH]; intros o; simpl.
  - unfold occurrences. simpl. lia.
  - rewrite IH, cnt_bump, occurrences_cons. lia.
Qed.

Lemma occurrences_pos (k : string) (l : list string) :
  In k l <-> (0 < occurrences k l)%Z.
Proof.
  unfold occurrences. rewrite (count_occ_In string_dec). lia.
Qed.

Lemma occurrences_nonneg (k : string) (l : list string) :
  (0 <= occurrences k l)%Z.
Proof. unfold occurrences. lia. Qed.

Lemma keys_bump (o : JsObject.t Z) (k k' : string) :
  In k' (JsObject.keys (bump o k)) <-> k = k' \/ In k' (JsObject.keys o).
Proof.
  unfold bump.
  pose proof (keys_set_perm o k
                (match JsObject.get o k with
                 | Some n => if (n =? 0)%Z then 0%Z else n
                 | None => 0%Z
                 end + 1)%Z) as Hp.
  split.
  - intros H. apply (Permutation_in _ Hp) in H.
    destruct (JsObject.get o k); [now right|].
    destruct H as [H|H]; auto.
  - intros H. apply (Permutation_in _ (Permutation_sym Hp)).
    destruct (JsObject.get o k) eqn:E.
    + destruct H as [<-|H]; [|exact H].
      destruct (in_dec string_dec k (JsObject.keys o)) as [Hi|Hi]; [exact Hi|].
      apply get_none_keys in Hi. congruence.
    + destruct H as [<-|H]; [now left | now right].
Qed.

Lemma keys_tally (l : list string) (o : JsObject.t Z) (k : string) :
  In k (JsObject.keys (fold_left bump l o)) <-> In k (JsObject.keys o) \/ In k l.
Proof.
  revert o. induction l as [|x l IH]; intros o; simpl.
  - tauto.
  - rewrite IH, keys_bump. tauto.
Qed.

Lemma tally_NoDup (l : list string) (o : JsObject.t Z) :
  NoDup (JsObject.keys o) -> NoDup (JsObject.keys (fold_left bump l o)).
Proof.
  revert o. induction l as [|x l IH]; intros o H; simpl; [exact H|].
  apply IH. unfold bump. now apply set_NoDup.
Qed.

(** What a counting table holds: each string of the list, with the number of
    times it stands in the list. *)
Lemma tally_entries (l : list string) (k : string) (n : Z) :
  In (k, n) (JsObject.entries (fold_left bump l JsObject.empty))
  <-> In k l /\ n = occurrences k l.
Proof.
  unfold JsObject.entries.
  assert (Hnd : NoDup (JsObject.keys (fold_left bump l (@JsObject.empty Z))))
    by (apply tally_NoDup; constructor).
  pose proof (cnt_tally l JsObject.empty k) as Hc.
  unfold cnt at 2 in Hc. simpl in Hc.
  split.
  - intros H. pose proof (in_entries_get _ _ _ Hnd H) as Hg.
    assert (Hk : In k l).
    { apply (in_map fst) in H. simpl in H.
      apply keys_tally in H. destruct H as [[]|H]. exact H. }
    split; [exact Hk|]. unfold cnt in Hc. rewrite Hg in Hc. lia.
  - intros [Hk ->]. apply get_in_entries.
    destruct (JsObject.get (fold_left bump l JsObject.empty) k) as [n|] eqn:E.
    + unfold cnt in Hc. rewrite E in Hc. f_equal. lia.
    + apply get_none_keys in E. exfalso. apply E, keys_tally. now right.
Qed.

Lemma countTags_tally (es : list FortnoxEndpoint) :
  countTags es = fold_left bump (allTags es) JsObject.empty.
Proof.
  unfold countTags, allTags. generalize (@JsObject.empty Z).
  induction es as [|e es IH]; intros o; simpl; [reflexivity|].
  rewrite fold_left_app, IH.
  destruct (tags e); reflexivity.
Qed.

Lemma countMethods_tally (es : list FortnoxEndpoint) :
  countMethods es = fold_left bump (map method es) JsObject.empty.
Proof.
  unfold countMethods. generalize (@JsObject.empty Z).
  induction es as [|e es IH]; intros o; simpl; [reflexivity | apply IH].
Qed.

(** *** The order of the keys of a counting table *)

Lemma existsb_eqb_In (x : string) (seen : list string) :
  existsb (fun y => (y =? x)%string) seen = true <-> In x seen.
Proof.
  rewrite existsb_exists. split.
  - intros (y & Hy & E). apply String.eqb_eq in E. now subst.
  - intros H. exists x. split; [exact H | apply String.eqb_refl].
Qed.

Lemma firstSeen_ext (l : list string) (s1 s2 : list string) :
  (forall y, In y l -> (In y s1 <-> In y s2)) ->
  firstSeen s1 l = firstSeen s2 l.
Proof.
  revert s1 s2. induction l as [|x l IH]; intros s1 s2 H; simpl; [reflexivity|].
  assert (E : existsb (fun y => (y =? x)%string) s1
              = existsb (fun y => (y =? x)%string) s2).
  { apply eq_true_iff_eq. rewrite !existsb_eqb_In. apply H. now left. }
  rewrite E. destruct (existsb _ s2).
  - apply IH. intros y Hy. apply H. now right.
  - f_equal. apply IH. intros y Hy. simpl.
    specialize (H y (or_intror Hy)). tauto.
Qed.

Lemma tally_indexKeysAhead (l : list string) (o : JsObject.t Z) :
  indexKeysAhead (JsObject.keys o) ->
  indexKeysAhead (JsObject.keys (fold_left bump l o)).
Proof.
  revert o. induction l as [|x l IH]; intros o H; simpl; [exact H|].
  apply IH. unfold bump. now apply indexKeysAhead_set.
Qed.

Lemma tally_plain_keys (l : list string) (o : JsObject.t Z) :
  filter (fun x => negb (isIndexKey x)) (JsObject.keys (fold_left bump l o))
  = filter (fun x => negb (isIndexKey x)) (JsObject.keys o)
    ++ firstSeen (JsObject.keys o) (filter (fun x => negb (isIndexKey x)) l).
Proof.
  revert o. induction l as [|x l IH]; intros o; simpl.
  - now rewrite app_nil_r.
  - rewrite IH. unfold bump at 1. rewrite plain_keys_set.
    destruct (isIndexKey x) eqn:Ex; simpl.
    + assert (Hnil : match JsObject.get o x with
                     | Some _ => @nil string
                     | None => []
                     end = []) by now destruct (JsObject.get o x).
      rewrite Hnil, app_nil_r. f_equal.
      apply firstSeen_ext. intros y Hy. rewrite keys_bump.
      apply filter_In in Hy. destruct Hy as [_ Hy].
      split; [|tauto]. intros [<-|H]; [|exact H].
      rewrite Ex in Hy. discriminate.
    + destruct (JsObject.get o x) as [n|] eqn:Eg.
      * assert (Hin : In x (JsObject.keys o)).
        { destruct (in_dec string_dec x (JsObject.keys o)) as [Hi|Hi]; [exact Hi|].
          apply get_none_keys in Hi. congruence. }
        apply existsb_eqb_In in Hin. rewrite Hin, app_nil_r. f_equal.
        apply firstSeen_ext. intros y Hy. rewrite keys_bump.
        split; [|tauto]. intros [<-|H]; [|exact H].
        now apply existsb_eqb_In.
      * assert (Hin : existsb (fun y => (y =? x)%string) (JsObject.keys o) = false).
        { apply not_true_is_false. rewrite existsb_eqb_In.
          now apply get_none_keys. }
        rewrite Hin, <- app_assoc. simpl. do 2 f_equal.
        apply firstSeen_ext. intros y Hy. rewrite keys_bump. simpl. tauto.
Qed.

(** The keys of a counting table: array-index strings ahead, in ascending
    order; the other strings after them, in the order they are first seen. *)
Lemma tally_key_order (l : list string) :
  let ks := JsObject.keys (fold_left bump l JsObject.empty) in
  indexKeysAhead ks
  /\ filter (fun x => negb (isIndexKey x)) ks
     = firstSeen [] (filter (fun x => negb (isIndexKey x)) l).
Proof.
  split.
  - apply tally_indexKeysAhead. exact I.
  - apply (tally_plain_keys l JsObject.empty).
Qed.

End CountFacts.

(* ------------------------------------------------------------------ *)
(** ** The parsed document and the interfaces *)

Module RawFacts.
Import JsString OpenAPI Server Spec JsStringFacts JsObjectFacts CountFacts.

(** *** [JSON.parse] of an object *)

Section ParseObject.
Variable A : Type.
Implicit Types (o : JsObject.t A) (l : list (string * A)).

Lemma keys_set o k (v : A) k' :
  In k' (JsObject.keys (JsObject.set o k v)) <-> k = k' \/ In k' (JsObject.keys o).
Proof.
  pose proof (keys_set_perm o k v) as Hp.
  split.
  - intros H. apply (Permutation_in _ Hp) in H.
    destruct (JsObject.get o k); [now right|].
    destruct H as [H|H]; auto.
  - intros H. apply (Permutation_in _ (Permutation_sym Hp)).
    destruct (JsObject.get o k) eqn:E.
    + destruct H as [<-|H]; [|exact H].
      destruct (in_dec string_dec k (JsObject.keys o)) as [Hi|Hi]; [exact Hi|].
      apply get_none_keys in Hi. congruence.
    + destruct H as [<-|H]; [now left | now right].
Qed.

Lemma keys_defined l o k :
  In k (JsObject.keys (fold_left (@Raw.define A) l o))
  <-> In k (JsObject.keys o) \/ In k (map fst l).
Proof.
  revert o. induction l as [|x l IH]; intros o; simpl.
  - tauto.
  - rewrite IH. unfold Raw.define. rewrite keys_set. tauto.
Qed.

Lemma defined_NoDup l o :
  NoDup (JsObject.keys o) -> NoDup (JsObject.keys (fold_left (@Raw.define A) l o)).
Proof.
  revert o. induction l as [|x l IH]; intros o H; simpl; [exact H|].
  apply IH. unfold Raw.define. now apply set_NoDup.
Qed.

Lemma defined_indexKeysAhead l o :
  indexKeysAhead (JsObject.keys o) ->
  indexKeysAhead (JsObject.keys (fold_left (@Raw.define A) l o)).
Proof.
  revert o. induction l as [|x l IH]; intros o H; simpl; [exact H|].
  apply IH. unfold Raw.define. now apply indexKeysAhead_set.
Qed.

Lemma defined_plain_keys l o :
  filter (fun x => negb (isIndexKey x)) (JsObject.keys (fold_left (@Raw.define A) l o))
  = filter (fun x => negb (isIndexKey x)) (JsObject.keys o)
    ++ firstSeen (JsObject.keys o)
         (filter (fun x => negb (isIndexKey x)) (map fst l)).
Proof.
  revert o. induction l as [|[x v] l IH]; intros o; simpl.
  - now rewrite app_nil_r.
  - rewrite IH. unfold Raw.define. cbn [fst snd].
    rewrite plain_keys_set.
    destruct (isIndexKey x) eqn:Ex; simpl.
    + assert (Hnil : match JsObject.get o x with
                     | Some _ => @nil string
                     | None => []
                     end = []) by now destruct (JsObject.get o x).
      rewrite Hnil, app_nil_r. f_equal.
      apply firstSeen_ext. intros y Hy. rewrite keys_set.
      apply filter_In in Hy. destruct Hy as [_ Hy]. cbn [fst].
      split; [|tauto]. intros [<-|H]; [|exact H].
      rewrite Ex in Hy. discriminate.
    + destruct (JsObject.get o x) as [n|] eqn:Eg.
      * assert (Hin : In x (JsObject.keys o)).
        { destruct (in_dec string_dec x (JsObject.keys o)) as [Hi|Hi]; [exact Hi|].
          apply get_none_keys in Hi. congruence. }
        apply existsb_eqb_In in Hin. rewrite Hin, app_nil_r. f_equal.
        apply firstSeen_ext. intros y Hy. rewrite keys_set.
        cbn [fst].
        split; [|tauto]. intros [<-|H]; [|exact H].
        now apply existsb_eqb_In.
      * assert (Hin : existsb (fun y => (y =? x)%string) (JsObject.keys o) = false).
        { apply not_true_is_false. rewrite existsb_eqb_In.
          now apply get_none_keys. }
        rewrite Hin, <- app_assoc. simpl. do 2 f_equal.
        apply firstSeen_ext. intros y Hy. rewrite keys_set.
        simpl. tauto.
Qed.

Lemma get_app l l' k :
  JsObject.get (l ++ l') k
  = match JsObject.get l k with
    | Some v => Some v
    | None => JsObject.get l' k
    end.
Proof.
  induction l as [|[k0 v0] l IH]; simpl; [reflexivity|].
  now destruct (k0 =? k)%string.
Qed.

(** The value under a name is the value of its last member. *)
Lemma get_defined l o k :
  JsObject.get (fold_left (@Raw.define A) l o) k
  = match JsObject.get (rev l) k with
    | Some v => Some v
    | None => JsObject.get o k
    end.
Proof.
  revert o. induction l as [|[x v] l IH]; intros o; simpl; [reflexivity|].
  rewrite IH, get_app. destruct (JsObject.get (rev l) k); [reflexivity|].
  unfold Raw.define. cbn [fst snd JsObject.get]. rewrite get_set.
  now destruct (x =? k)%string.
Qed.

(** The table [JSON.parse] makes of the members of an object. *)
Lemma parseObject_spec l :
  let table := Raw.parseObject l in
  NoDup (JsObject.keys table)
  /\ (forall k, In k (JsObject.keys table) <-> In k (map fst l))
  /\ (forall k, JsObject.get table k = JsObject.get (rev l) k)
  /\ indexKeysAhead (JsObject.keys table)
  /\ filter (fun k => negb (isIndexKey k)) (JsObject.keys table)
     = firstSeen [] (filter (fun k => negb (isIndexKey k)) (map fst l)).
Proof.
  unfold Raw.parseObject. cbv zeta.
  split; [apply defined_NoDup; constructor|].
  split; [intros k; rewrite keys_defined; simpl; tauto|].
  split.
  { intros k. rewrite get_defined.
    now destruct (JsObject.get (rev l) k). }
  split; [apply defined_indexKeysAhead; exact I|].
  apply (defined_plain_keys l JsObject.empty).
Qed.

End ParseObject.

(** *** The index of a parsed document *)

Lemma parseOperation_declared (p m : string) (operation : Raw.Operation) :
  Raw.parseOperation p m operation
  = match Raw.declaredOperation operation with
    | Some operation' => Normal (parseOperation p m operation')
    | None => Throw TypeError
    end.
Proof.
  destruct operation as [id su de tg ps body rs].
  unfold Raw.parseOperation, Raw.requestBodySchemaOf, Raw.responseSchemaOf,
    Raw.declaredOperation, Raw.declaredRequestBody.
  cbn [Raw.op_requestBody Raw.op_responses Raw.rb_content].
  destruct body as [[bd br [content|]]|], rs as [responses|];
    cbn [bind Raw.rb_content]; reflexivity.
Qed.

Lemma declaredOperation_lacks (operation : Raw.Operation) :
  Raw.declaredOperation operation = None <-> lacksField operation = true.
Proof.
  unfold Raw.declaredOperation, Raw.declaredRequestBody, lacksField.
  destruct (Raw.op_responses operation); [|tauto].
  destruct (Raw.op_requestBody operation) as [body|];
    [|split; discriminate].
  destruct (Raw.rb_content body); [split; discriminate | tauto].
Qed.

Lemma declaredOperation_name (operation : Raw.Operation)
  (operation' : Operation) :
  Raw.declaredOperation operation = Some operation' ->
  op_operationId operation' = Raw.op_operationId operation.
Proof.
  unfold Raw.declaredOperation, Raw.declaredRequestBody.
  destruct (Raw.op_responses operation); [|discriminate].
  destruct (Raw.op_requestBody operation) as [body|].
  - destruct (Raw.rb_content body); [|discriminate]. now intros [= <-].
  - now intros [= <-].
Qed.

Lemma declaredSlot_lacks (slot : option Raw.Operation) :
  Raw.declaredSlot slot = None
  <-> exists operation, slot = Some operation /\ lacksField operation = true.
Proof.
  unfold Raw.declaredSlot. destruct slot as [operation|].
  - destruct (Raw.declaredOperation operation) eqn:E.
    + split; [discriminate|]. intros (op & Hop & H).
      injection Hop as <-.
      apply declaredOperation_lacks in H. congruence.
    + split; [|reflexivity]. intros _. exists operation.
      split; [reflexivity | now apply declaredOperation_lacks].
  - split; [discriminate|]. now intros (op & H & _).
Qed.

Lemma push_declared (p m : string) (slot : option Raw.Operation)
  (acc : list FortnoxEndpoint) :
  match slot with
  | Some operation =>
      endpoint <- Raw.parseOperation p m operation ;;
      Normal (acc ++ [endpoint])
  | None => Normal acc
  end
  = match Raw.declaredSlot slot with
    | Some slot' => Normal (pushed p m slot' acc)
    | None => Throw TypeError
    end.
Proof.
  unfold Raw.declaredSlot. destruct slot as [operation|]; [|reflexivity].
  rewrite parseOperation_declared.
  now destruct (Raw.declaredOperation operation).
Qed.

Lemma pushOperations_declared (p : string) (item : Raw.PathItem)
  (acc : list FortnoxEndpoint) :
  Raw.pushOperations p item acc
  = match Raw.declaredPathItem item with
    | Some item' => Normal (pushOperations p item' acc)
    | None => Throw TypeError
    end.
Proof.
  destruct item as [g po pu de pa].
  unfold Raw.pushOperations, Raw.declaredPathItem, pushOperations, methods.
  cbn [fold_left Raw.pathItem_get pathItem_get String.eqb Ascii.eqb Bool.eqb
       Raw.pi_get Raw.pi_post Raw.pi_put Raw.pi_delete Raw.pi_patch bind].
  rewrite (push_declared p "get" g acc).
  destruct (Raw.declaredSlot g) as [g'|]; [|reflexivity]. cbn [bind].
  rewrite (push_declared p "post" po).
  destruct (Raw.declaredSlot po) as [po'|]; [|reflexivity]. cbn [bind].
  rewrite (push_declared p "put" pu).
  destruct (Raw.declaredSlot pu) as [pu'|]; [|reflexivity]. cbn [bind].
  rewrite (push_declared p "delete" de).
  destruct (Raw.declaredSlot de) as [de'|]; [|reflexivity]. cbn [bind].
  rewrite (push_declared p "patch" pa).
  destruct (Raw.declaredSlot pa) as [pa'|]; [|reflexivity].
  reflexivity.
Qed.

Lemma collect_thrown (table : list (string * Raw.PathItem)) (e : JsError) :
  fold_left
    (fun acc entry =>
       endpoints <- acc ;;
       Raw.pushOperations (fst entry) (snd entry) endpoints)
    table (Throw e)
  = Throw e.
Proof. induction table as [|x table IH]; simpl; [reflexivity | exact IH]. Qed.

Lemma collect_declared (table : list (string * Raw.PathItem))
  (acc : list FortnoxEndpoint) :
  fold_left
    (fun acc entry =>
       endpoints <- acc ;;
       Raw.pushOperations (fst entry) (snd entry) endpoints)
    table (Normal acc)
  = match Raw.declaredTable table with
    | Some table' =>
        Normal
          (fold_left
             (fun endpoints entry =>
                pushOperations (fst entry) (snd entry) endpoints)
             table' acc)
    | None => Throw TypeError
    end.
Proof.
  revert acc. induction table as [|[k item] table IH]; intros acc;
    [reflexivity|].
  cbn [fold_left bind fst snd Raw.declaredTable].
  rewrite pushOperations_declared.
  destruct (Raw.declaredPathItem item) as [item'|].
  - rewrite IH. now destruct (Raw.declaredTable table).
  - apply collect_thrown.
Qed.

(** The index of a parsed document is the index of the document read
    through the interfaces, and a TypeError when it cannot be read so. *)
Lemma getAllEndpoints_declared (this : Raw.OpenAPIParser) :
  Raw.getAllEndpoints this
  = match Raw.declaredSpec (Raw.spec this) with
    | Some doc => getAllEndpoints {| spec := doc |}
    | None => Throw TypeError
    end.
Proof.
  unfold Raw.getAllEndpoints, Raw.declaredSpec, getAllEndpoints.
  destruct (Raw.paths (Raw.spec this)) as [table|]; [|reflexivity].
  unfold JsObject.entries. rewrite collect_declared.
  now destruct (Raw.declaredTable table).
Qed.

Lemma declaredTable_keys (table : list (string * Raw.PathItem))
  (table' : list (string * PathItem)) :
  Raw.declaredTable table = Some table' ->
  JsObject.keys table' = JsObject.keys table.
Proof.
  revert table'. induction table as [|[k item] table IH]; intros table';
    simpl.
  - now intros [= <-].
  - destruct (Raw.declaredPathItem item); [|discriminate].
    destruct (Raw.declaredTable table) as [rest|]; [|discriminate].
    intros [= <-]. simpl. f_equal. now apply IH.
Qed.

Lemma declaredSlot_label (k m : string) (slot : option Raw.Operation)
  (slot' : option Operation) :
  Raw.declaredSlot slot = Some slot' ->
  labels match slot' with Some o => [(k, m, o)] | None => [] end
  = rawLabels match slot with Some o => [(k, m, o)] | None => [] end.
Proof.
  unfold Raw.declaredSlot. destruct slot as [o|].
  - destruct (Raw.declaredOperation o) as [o'|] eqn:E; [|discriminate].
    intros [= <-]. simpl. now rewrite (declaredOperation_name _ E).
  - now intros [= <-].
Qed.

Lemma operationsOf_declared (k : string) (item : Raw.PathItem)
  (item' : PathItem) :
  Raw.declaredPathItem item = Some item' ->
  labels (operationsOf (k, item')) = rawLabels (rawOperationsOf (k, item)).
Proof.
  destruct item as [g po pu de pa]. unfold Raw.declaredPathItem.
  cbn [Raw.pi_get Raw.pi_post Raw.pi_put Raw.pi_delete Raw.pi_patch].
  destruct (Raw.declaredSlot g) as [g'|] eqn:Eg; [|discriminate].
  destruct (Raw.declaredSlot po) as [po'|] eqn:Epo; [|discriminate].
  destruct (Raw.declaredSlot pu) as [pu'|] eqn:Epu; [|discriminate].
  destruct (Raw.declaredSlot de) as [de'|] eqn:Ede; [|discriminate].
  destruct (Raw.declaredSlot pa) as [pa'|] eqn:Epa; [|discriminate].
  intros [= <-].
  unfold operationsOf, rawOperationsOf, canonicalMethods, labels, rawLabels.
  cbn [flat_map operationAt rawOperationAt String.eqb Ascii.eqb Bool.eqb
       fst snd pi_get pi_post pi_put pi_delete pi_patch
       Raw.pi_get Raw.pi_post Raw.pi_put Raw.pi_delete Raw.pi_patch].
  rewrite !map_app, !app_nil_r.
  pose proof (declaredSlot_label k "GET" g Eg) as H1.
  pose proof (declaredSlot_label k "POST" po Epo) as H2.
  pose proof (declaredSlot_label k "PUT" pu Epu) as H3.
  pose proof (declaredSlot_label k "DELETE" de Ede) as H4.
  pose proof (declaredSlot_label k "PATCH" pa Epa) as H5.
  unfold labels, rawLabels in *.
  now rewrite H1, H2, H3, H4, H5.
Qed.

(** The traversal of the document read through the interfaces names the
    operations of the parsed table, in the same order. *)
Lemma traversal_declared (table : list (string * Raw.PathItem))
  (table' : list (string * PathItem)) :
  Raw.declaredTable table = Some table' ->
  labels (traversal table') = rawLabels (rawTraversal table).
Proof.
  revert table'. induction table as [|[k item] table IH]; intros table';
    simpl.
  - now intros [= <-].
  - destruct (Raw.declaredPathItem item) as [item'|] eqn:Ei; [|discriminate].
    destruct (Raw.declaredTable table) as [rest|]; [|discriminate].
    intros [= <-]. unfold traversal, rawTraversal, labels, rawLabels in *.
    cbn [flat_map]. rewrite !map_app. f_equal.
    + exact (operationsOf_declared k item Ei).
    + now apply IH.
Qed.

Lemma declaredPathItem_lacks (k : string) (item : Raw.PathItem) :
  Raw.declaredPathItem item = None
  <-> exists x, In x (rawOperationsOf (k, item)) /\ lacksField (snd x) = true.
Proof.
  destruct item as [g po pu de pa].
  unfold Raw.declaredPathItem, rawOperationsOf, canonicalMethods.
  cbn [flat_map rawOperationAt String.eqb Ascii.eqb Bool.eqb fst snd
       Raw.pi_get Raw.pi_post Raw.pi_put Raw.pi_delete Raw.pi_patch].
  rewrite app_nil_r.
  assert (HS : forall (m : string) (slot : option Raw.Operation),
             Raw.declaredSlot slot = None
             <-> exists x,
                   In x match slot with
                        | Some o => [(k, m, o)]
                        | None => []
                        end
                   /\ lacksField (snd x) = true).
  { intros m slot. rewrite declaredSlot_lacks. split.
    - intros (o & -> & H). exists (k, m, o). split; [now left | exact H].
    - intros (x & Hx & H). destruct slot as [o|]; [|contradiction].
      destruct Hx as [<-|[]]. now exists o. }
  pose proof (HS "GET" g) as Sg. pose proof (HS "POST" po) as Spo.
  pose proof (HS "PUT" pu) as Spu. pose proof (HS "DELETE" de) as Sde.
  pose proof (HS "PATCH" pa) as Spa.
  split.
  - intros H.
    destruct (Raw.declaredSlot g);
      [|destruct (proj1 Sg eq_refl) as (x & Hx & Hl); exists x;
        split; [|exact Hl]; rewrite !in_app_iff; tauto].
    destruct (Raw.declaredSlot po);
      [|destruct (proj1 Spo eq_refl) as (x & Hx & Hl); exists x;
        split; [|exact Hl]; rewrite !in_app_iff; tauto].
    destruct (Raw.declaredSlot pu);
      [|destruct (proj1 Spu eq_refl) as (x & Hx & Hl); exists x;
        split; [|exact Hl]; rewrite !in_app_iff; tauto].
    destruct (Raw.declaredSlot de);
      [|destruct (proj1 Sde eq_refl) as (x & Hx & Hl); exists x;
        split; [|exact Hl]; rewrite !in_app_iff; tauto].
    destruct (Raw.declaredSlot pa);
      [discriminate
      |destruct (proj1 Spa eq_refl) as (x & Hx & Hl); exists x;
        split; [|exact Hl]; rewrite !in_app_iff; tauto].
  - intros (x & Hx & Hl). rewrite !in_app_iff in Hx.
    destruct Hx as [Hx|[Hx|[Hx|[Hx|Hx]]]].
    + rewrite (proj2 Sg); [reflexivity | now exists x].
    + rewrite (proj2 Spo); [|now exists x].
      now destruct (Raw.declaredSlot g).
    + rewrite (proj2 Spu); [|now exists x].
      now destruct (Raw.declaredSlot g), (Raw.declaredSlot po).
    + rewrite (proj2 Sde); [|now exists x].
      now destruct (Raw.declaredSlot g), (Raw.declaredSlot po),
        (Raw.declaredSlot pu).
    + rewrite (proj2 Spa); [|now exists x].
      now destruct (Raw.declaredSlot g), (Raw.declaredSlot po),
        (Raw.declaredSlot pu), (Raw.declaredSlot de).
Qed.

(** A parsed table cannot be read through the interfaces exactly when one
    of its operations lacks a field. *)
Lemma declaredTable_incomplete (table : list (string * Raw.PathItem)) :
  Raw.declaredTable table = None <-> incomplete table.
Proof.
  unfold incomplete, rawTraversal.
  induction table as [|[k item] table IH]; simpl.
  - split; [discriminate | now intros (x & [] & _)].
  - pose proof (declaredPathItem_lacks k item) as Hi.
    destruct (Raw.declaredPathItem item) as [item'|].
    + destruct (Raw.declaredTable table) as [rest|].
      * split; [discriminate|]. intros (x & Hx & Hl).
        apply in_app_or in Hx. destruct Hx as [Hx|Hx].
        -- assert (E : Some item' = None)
             by (apply (proj2 Hi); now exists x).
           discriminate E.
        -- assert (E : Some rest = None)
             by (apply (proj2 IH); now exists x).
           discriminate E.
      * split; [|reflexivity]. intros _.
        destruct (proj1 IH eq_refl) as (x & Hx & Hl).
        exists x. split; [apply in_or_app; now right | exact Hl].
    + split; [|reflexivity]. intros _.
      destruct (proj1 Hi eq_refl) as (x & Hx & Hl).
      exists x. split; [apply in_or_app; now left | exact Hl].
Qed.

(** The construction of the server over a parsed document. *)
Lemma server_of_document (doc : Raw.OpenAPISpec) :
  Raw.FortnoxMCPServer_new (Raw.Json doc)
  = match Raw.declaredSpec doc with
    | Some doc' =>
        es <- getAllEndpoints {| spec := doc' |} ;;
        Normal {| Raw.parser := {| Raw.spec := doc |}; Raw.endpoints := es |}
    | None => Throw TypeError
    end.
Proof.
  unfold Raw.FortnoxMCPServer_new. cbn [Raw.OpenAPIParser_new bind].
  rewrite getAllEndpoints_declared. cbn [Raw.spec].
  now destruct (Raw.declaredSpec doc).
Qed.

(** A server built over a parsed document is, read through the interfaces,
    the server built over the document read through the interfaces: what
    holds of the servers [Server.FortnoxMCPServer_new] builds holds of the
    servers built over parsed documents. *)
Lemma built_from_document (f : Raw.SpecFile) (srv : Raw.FortnoxMCPServer) :
  Raw.FortnoxMCPServer_new f = Normal srv ->
  exists doc this,
    Raw.declaredSpec (Raw.spec (Raw.parser srv)) = Some doc
    /\ Raw.declaredServer srv = Some this
    /\ FortnoxMCPServer_new (Json doc) = Normal this.
Proof.
  destruct f as [| |doc]; [intros H; discriminate H ..|].
  rewrite server_of_document.
  destruct (Raw.declaredSpec doc) as [doc'|] eqn:E; [|discriminate].
  unfold FortnoxMCPServer_new. cbn [OpenAPIParser_new bind].
  destruct (getAllEndpoints {| spec := doc' |}) as [es|] eqn:Ees;
    [|discriminate].
  cbn [bind]. intros [= <-].
  exists doc', {| parser := {| spec := doc' |}; endpoints := es |}.
  unfold Raw.declaredServer. cbn [Raw.parser Raw.spec Raw.endpoints].
  rewrite E. split; [reflexivity|]. split; [reflexivity|].
  cbn [OpenAPIParser_new bind]. now rewrite Ees.
Qed.

End RawFacts.

(* ------------------------------------------------------------------ *)
(** ** The endpoint index *)

Module Index.
Import JsString OpenAPI Server Spec JsStringFacts SortFacts.

Lemma pushOperations_app (p : string) (item : PathItem)
  (acc : list FortnoxEndpoint) :
  pushOperations p item acc = acc ++ map endpointOf (operationsOf (p, item)).
Proof.
  unfold pushOperations, operationsOf, methods, canonicalMethods. simpl.
  destruct item as [g po pu de pa]. simpl.
  destruct g, po, pu, de, pa; simpl;
    rewrite <- ?app_assoc, ?app_nil_r; reflexivity.
Qed.

Lemma collect_app (table : list (string * PathItem))
  (acc : list FortnoxEndpoint) :
  fold_left
    (fun endpoints entry => pushOperations (fst entry) (snd entry) endpoints)
    table acc
  = acc ++ map endpointOf (traversal table).
Proof.
  revert acc. induction table as [|[p item] table IH]; intros acc; simpl.
  - now rewrite app_nil_r.
  - rewrite IH, pushOperations_app.
    now rewrite map_app, app_assoc.
Qed.

Lemma getAllEndpoints_traversal (this : OpenAPIParser)
  (table : JsObject.t PathItem) :
  paths (spec this) = Some table ->
  getAllEndpoints this = Normal (map endpointOf (traversal table)).
Proof.
  intros H. unfold getAllEndpoints. rewrite H.
  unfold JsObject.entries. now rewrite collect_app.
Qed.

Lemma traversal_methods (table : list (string * PathItem)) :
  Forall (fun x => In (snd (fst x)) canonicalMethods) (traversal table).
Proof.
  apply Forall_forall. intros [[p m] o] H.
  unfold traversal in H. apply in_flat_map in H. destruct H as (entry & _ & H).
  unfold operationsOf in H. apply in_flat_map in H. destruct H as (m' & Hm & H).
  destruct (operationAt (snd entry) m'); simpl in H; [|contradiction].
  destruct H as [H|[]]. injection H as _ <- _. exact Hm.
Qed.

(** Every endpoint of an index carries one of the five methods, in capitals. *)
Lemma index_methods (this : OpenAPIParser) (es : list FortnoxEndpoint) :
  getAllEndpoints this = Normal es ->
  Forall (fun e => In (method e) canonicalMethods) es.
Proof.
  unfold getAllEndpoints. destruct (paths (spec this)) as [table|]; [|discriminate].
  unfold JsObject.entries. rewrite collect_app. simpl. intros [= <-].
  apply Forall_map. eapply Forall_impl; [|apply traversal_methods].
  intros [[p m] o] H. simpl in *.
  destruct H as [<-|[<-|[<-|[<-|[<-|[]]]]]]; simpl; auto 6.
Qed.

Lemma firstSchema_first (content : JsObject.t MediaType) :
  firstSchema content = firstEntrySchema content.
Proof.
  unfold firstSchema, firstEntrySchema, JsObject.keys.
  destruct content as [|[k entry] rest]; simpl; [reflexivity|].
  destruct (truthy k); [|reflexivity]. now rewrite String.eqb_refl.
Qed.

Lemma callTool_with_arguments (this : FortnoxMCPServer) (name : string)
  (args : ToolCallArguments) :
  Handler.callTool this name (Some args) = handleToolCall this name args.
Proof.
  unfold Handler.callTool, Handler.dispatchRequest, Handler.reading,
    handleToolCall, dispatch.
  repeat
    match goal with
    | |- context [(name =? ?t)%string] =>
        destruct (name =? t)%string; [reflexivity|]
    end.
  reflexivity.
Qed.

Lemma define_plain (A : Type) (o : JsObject.t A) (k : string) (v : A) :
  isIndexKey k = false ->
  ~ In k (JsObject.keys o) ->
  Raw.define o (k, v) = o ++ [(k, v)].
Proof.
  intros Hk Hn. unfold Raw.define, JsObject.set. cbn [fst snd].
  apply JsObjectFacts.get_none_keys in Hn. rewrite Hn.
  unfold isIndexKey in Hk. now destruct (array_index k).
Qed.

(** With distinct names, none of them an array index, the parsed table has
    the members as the text has them. *)
Lemma parseObject_plain (A : Type) (members : list (string * A)) :
  forallb (fun k => negb (isIndexKey k)) (map fst members) = true ->
  NoDup (map fst members) ->
  Raw.parseObject members = members.
Proof.
  unfold Raw.parseObject.
  assert (H : forall (l o : list (string * A)),
             forallb (fun k => negb (isIndexKey k)) (map fst l) = true ->
             NoDup (map fst (o ++ l)) ->
             fold_left (@Raw.define A) l o = o ++ l).
  { induction l as [|[k v] l IH]; intros o Hp Hn; simpl.
    - now rewrite app_nil_r.
    - simpl in Hp. apply andb_true_iff in Hp. destruct Hp as [Hk Hp].
      rewrite define_plain.
      + rewrite IH; [now rewrite <- app_assoc | exact Hp|].
        now rewrite <- app_assoc.
      + now apply negb_true_iff.
      + rewrite map_app in Hn. simpl in Hn.
        apply NoDup_remove_2 in Hn. intros Hi. apply Hn.
        apply in_or_app. now left. }
  intros Hp Hn. now apply (H members []).
Qed.

Lemma names_of_traversal (table : list (string * PathItem)) :
  map nameOf (map endpointOf (traversal table)) = labels (traversal table).
Proof.
  unfold labels. rewrite map_map. apply map_ext_in.
  intros [[p m] o] H. unfold nameOf, endpointOf. simpl.
  pose proof (traversal_methods table) as F. rewrite Forall_forall in F.
  specialize (F _ H). simpl in F.
  destruct F as [<-|[<-|[<-|[<-|[<-|[]]]]]]; reflexivity.
Qed.

Lemma names_of_rows (es : list FortnoxEndpoint) :
  map rowNameOf (map toRow es) = map nameOf es.
Proof. rewrite map_map. now apply map_ext. Qed.

(** C1, as the code has it.  The [paths] object of the document is read in
    the order of [Object.entries] over the parsed object: the names that are
    array indices first, in ascending order, then the other names in the
    order the document first has them, each name once with the value of its
    last member; with distinct names none of which is an array index, that
    is the document's own order.  When every operation has [responses], and
    [content] under its request body, the server is built and its index is
    the traversal of that table: the paths in that order, within a path the
    methods GET, POST, PUT, DELETE, PATCH, one endpoint for each operation
    that is there; otherwise, as on a document without [paths], the
    construction throws a TypeError.  [list_all_endpoints], called with an
    arguments object that sets no filter, lists the whole index, each
    endpoint once, in that order; called without an arguments object it
    answers with an error. *)
Theorem index_is_traversal_and_listAll_lists_it :
  forall (i : option Info) (sv : option (list ServerEntry))
         (c : option Components) (members : list (string * Raw.PathItem)),
    (NoDup (JsObject.keys (Raw.parseObject members))
     /\ (forall k, In k (JsObject.keys (Raw.parseObject members))
                   <-> In k (map fst members))
     /\ (forall k, JsObject.get (Raw.parseObject members) k
                   = JsObject.get (rev members) k)
     /\ indexKeysAhead (JsObject.keys (Raw.parseObject members))
     /\ filter (fun k => negb (isIndexKey k))
          (JsObject.keys (Raw.parseObject members))
        = firstSeen [] (filter (fun k => negb (isIndexKey k))
                          (map fst members))
     /\ (forallb (fun k => negb (isIndexKey k)) (map fst members) = true ->
         NoDup (map fst members) ->
         Raw.parseObject members = members))
    /\ Raw.FortnoxMCPServer_new (Raw.Json (Raw.mkOpenAPISpec i sv None c))
       = Throw TypeError
    /\ (incomplete (Raw.parseObject members) ->
        Raw.FortnoxMCPServer_new (Raw.Json (parsedDocument i sv c members))
        = Throw TypeError)
    /\ (~ incomplete (Raw.parseObject members) ->
        exists srv this,
          Raw.FortnoxMCPServer_new (Raw.Json (parsedDocument i sv c members))
          = Normal srv
          /\ Raw.declaredServer srv = Some this
          /\ map nameOf (endpoints this)
             = rawLabels (rawTraversal (Raw.parseObject members))
          /\ (exists table,
                 Raw.declaredTable (Raw.parseObject members) = Some table
                 /\ JsObject.keys table
                    = JsObject.keys (Raw.parseObject members)
                 /\ endpoints this = map endpointOf (traversal table))
          /\ Handler.callTool this "list_all_endpoints" (Some noArgs)
             = ok (EndpointsReply
                     {| el_method := None; el_tag := None;
                        el_totalFound := List.length (endpoints this);
                        el_showing := List.length (endpoints this);
                        el_limitedTo := None;
                        el_rows := map toRow (endpoints this);
                        el_notShown := None |})
          /\ map rowNameOf (map toRow (endpoints this))
             = rawLabels (rawTraversal (Raw.parseObject members))
          /\ Handler.callTool this "list_all_endpoints" None
             = failed (Failure TypeError)).
Proof.
  intros i sv c members.
  destruct (RawFacts.parseObject_spec members) as (K1 & K2 & K3 & K4 & K5).
  split; [|split; [reflexivity|split]].
  - split; [exact K1|]. split; [exact K2|]. split; [exact K3|].
    split; [exact K4|]. split; [exact K5|]. apply parseObject_plain.
  - intros H. apply RawFacts.declaredTable_incomplete in H.
    rewrite RawFacts.server_of_document.
    unfold Raw.declaredSpec, parsedDocument. cbn [Raw.paths]. now rewrite H.
  - intros H.
    destruct (Raw.declaredTable (Raw.parseObject members)) as [table|] eqn:E;
      [|now apply RawFacts.declaredTable_incomplete in E].
    exists {| Raw.parser := {| Raw.spec := parsedDocument i sv c members |};
              Raw.endpoints := map endpointOf (traversal table) |}.
    exists {| parser := {| spec := mkOpenAPISpec i sv (Some table) c |};
              endpoints := map endpointOf (traversal table) |}.
    assert (Ed : Raw.declaredSpec (parsedDocument i sv c members)
                 = Some (mkOpenAPISpec i sv (Some table) c)).
    { unfold Raw.declaredSpec, parsedDocument.
      cbn [Raw.paths Raw.info Raw.servers Raw.components]. now rewrite E. }
    assert (En : map nameOf (map endpointOf (traversal table))
                 = rawLabels (rawTraversal (Raw.parseObject members))).
    { rewrite names_of_traversal. now apply RawFacts.traversal_declared. }
    split; [|split; [|split; [|split; [|split; [|split]]]]].
    + rewrite RawFacts.server_of_document, Ed.
      rewrite (@getAllEndpoints_traversal
                 {| spec := mkOpenAPISpec i sv (Some table) c |}
                 table eq_refl).
      reflexivity.
    + unfold Raw.declaredServer. cbn [Raw.parser Raw.spec Raw.endpoints].
      now rewrite Ed.
    + exact En.
    + exists table. split; [reflexivity|].
      split; [now apply RawFacts.declaredTable_keys | reflexivity].
    + rewrite callTool_with_arguments.
      unfold handleToolCall, dispatch.
      cbn [String.eqb Ascii.eqb Bool.eqb].
      unfold listAllEndpoints, filterEndpoints, limit_or.
      cbn [a_method a_tag a_limit if_truthy endpoints].
      rewrite slice0_all, Z.ltb_irrefl. reflexivity.
    + cbn [endpoints]. now rewrite names_of_rows.
    + reflexivity.
Qed.

(** C1 as stated fails: the document has the path [b] before the path [1],
    and the index, as the listing, has the path [1] first; and the listing
    asked for without an arguments object is an error. *)
Lemma index_has_number_paths_first :
  map fst numberedPathsMembers = ["b"; "1"]
  /\ Raw.FortnoxMCPServer_new (Raw.Json numberedPathsDocument)
     = Normal {| Raw.parser := {| Raw.spec := numberedPathsDocument |};
                 Raw.endpoints := numberedPathsIndex |}
  /\ map path numberedPathsIndex = ["1"; "b"]
  /\ Raw.declaredServer
       {| Raw.parser := {| Raw.spec := numberedPathsDocument |};
          Raw.endpoints := numberedPathsIndex |}
     = Some numberedPathsServer
  /\ map row_path
       (rowsOf (Handler.callTool numberedPathsServer "list_all_endpoints"
                  (Some noArgs)))
     = ["1"; "b"]
  /\ Handler.callTool numberedPathsServer "list_all_endpoints" None
     = failed (Failure TypeError).
Proof. repeat split. Qed.

(** C7, as the code has it.  The request-body schema of a flattened operation
    is the schema of the first entry of [requestBody.content], in key order,
    when that entry's key is not the empty string, and is absent when there is
    no request body, no entry, or an empty first key; the response schema is
    read the same way from the content of the 200 response when there is one,
    otherwise of the 201 response, otherwise it is absent: the value depends
    on no other status code. *)
Theorem parseOperation_schemas :
  forall (p m : string) (operation : Operation),
    requestBodySchema (parseOperation p m operation)
    = match op_requestBody operation with
      | Some body => firstEntrySchema (rb_content body)
      | None => None
      end
    /\ responseSchema (parseOperation p m operation)
       = match JsObject.get (op_responses operation) "200",
               JsObject.get (op_responses operation) "201" with
         | Some r, _ =>
             match r_content r with
             | Some content => firstEntrySchema content
             | None => None
             end
         | None, Some r =>
             match r_content r with
             | Some content => firstEntrySchema content
             | None => None
             end
         | None, None => None
         end.
Proof.
  intros p m operation. unfold parseOperation, successResponse. simpl. split.
  - destruct (op_requestBody operation); [apply firstSchema_first | reflexivity].
  - destruct (JsObject.get (op_responses operation) "200") as [r|].
    + destruct (r_content r); [apply firstSchema_first | reflexivity].
    + destruct (JsObject.get (op_responses operation) "201") as [r|];
        [|reflexivity].
      destruct (r_content r); [apply firstSchema_first | reflexivity].
Qed.

(** C7 as stated fails: the first media type of this request body carries a
    schema, and the endpoint has none, because the key of the entry is the
    empty string. *)
Lemma parseOperation_skips_unnamed_media_type :
  requestBodySchema (parseOperation "/3/things" "post" unnamedMediaOperation)
  = None
  /\ match op_requestBody unnamedMediaOperation with
     | Some body => firstEntryCarries (rb_content body)
     | None => None
     end = Some sampleSchema.
Proof. split; reflexivity. Qed.

End Index.

(* ------------------------------------------------------------------ *)
(** ** The loader and the schema resolver *)

Module Loader.
Import JsString OpenAPI Server Spec JsStringFacts SortFacts.

Lemma drop_app (p s : string) : drop (String.length p) (p ++ s) = s.
Proof. induction p as [|c p IH]; simpl; [now destruct s | exact IH]. Qed.

Lemma replace_prefix (p s : string) : replace (p ++ s) p "" = s.
Proof.
  rewrite replace_unfold.
  assert (H : String.prefix p (p ++ s) = true)
    by (apply prefix_spec; now exists s).
  rewrite H. simpl. apply drop_app.
Qed.


Lemma if_truthy_some (x : option string) (s : string) :
  if_truthy x = Some s <-> x = Some s /\ s <> EmptyString.
Proof.
  unfold if_truthy. destruct x as [s'|].
  - destruct (truthy s') eqn:E.
    + apply truthy_spec in E. split.
      * intros [= <-]. auto.
      * intros [[= <-] _]. reflexivity.
    + split; [discriminate|]. intros [[= <-] H].
      apply truthy_spec in H. congruence.
  - split; [discriminate | intros [H _]; discriminate].
Qed.

(** C2, as the code has it.  The loader fails when the file cannot be read or
    its text is not parseable, and only then: it looks at no field of the
    document.  The construction of the server, where the index is built,
    throws a TypeError on a document without [paths], and on a document in
    which an operation lacks [responses] or a request body lacks [content];
    every other document, with or without [info], [servers] and
    [components], is loaded and indexed, and the server answers
    [list_all_endpoints], called with an arguments object, without an
    error. *)
Theorem loader_checks_no_field :
  (forall f : Raw.SpecFile,
      match Raw.OpenAPIParser_new f with
      | Throw _ => f = Raw.Unreadable \/ f = Raw.Malformed
      | Normal p => f = Raw.Json (Raw.spec p)
      end)
  /\ Raw.FortnoxMCPServer_new Raw.Unreadable = Throw IOError
  /\ Raw.FortnoxMCPServer_new Raw.Malformed = Throw SyntaxError
  /\ (forall i sv c,
         Raw.FortnoxMCPServer_new (Raw.Json (Raw.mkOpenAPISpec i sv None c))
         = Throw TypeError)
  /\ (forall i sv c table,
         incomplete table ->
         Raw.FortnoxMCPServer_new
           (Raw.Json (Raw.mkOpenAPISpec i sv (Some table) c))
         = Throw TypeError)
  /\ (forall i sv c table,
         ~ incomplete table ->
         exists srv this,
           Raw.FortnoxMCPServer_new
             (Raw.Json (Raw.mkOpenAPISpec i sv (Some table) c))
           = Normal srv
           /\ Raw.spec (Raw.parser srv) = Raw.mkOpenAPISpec i sv (Some table) c
           /\ Raw.declaredServer srv = Some this
           /\ info (spec (parser this)) = i
           /\ servers (spec (parser this)) = sv
           /\ components (spec (parser this)) = c
           /\ map nameOf (endpoints this) = rawLabels (rawTraversal table)
           /\ (forall args,
                  isError (Handler.callTool this "list_all_endpoints"
                             (Some args)) = false)
           /\ Handler.callTool this "list_all_endpoints" None
              = failed (Failure TypeError)).
Proof.
  split; [|split; [|split; [|split; [|split]]]].
  - intros [| |doc]; simpl; auto.
  - reflexivity.
  - reflexivity.
  - reflexivity.
  - intros i sv c table H. apply RawFacts.declaredTable_incomplete in H.
    rewrite RawFacts.server_of_document.
    unfold Raw.declaredSpec. cbn [Raw.paths]. now rewrite H.
  - intros i sv c table H.
    destruct (Raw.declaredTable table) as [table'|] eqn:E;
      [|now apply RawFacts.declaredTable_incomplete in E].
    assert (Ed : Raw.declaredSpec (Raw.mkOpenAPISpec i sv (Some table) c)
                 = Some (mkOpenAPISpec i sv (Some table') c)).
    { unfold Raw.declaredSpec.
      cbn [Raw.paths Raw.info Raw.servers Raw.components]. now rewrite E. }
    exists {| Raw.parser :=
                {| Raw.spec := Raw.mkOpenAPISpec i sv (Some table) c |};
              Raw.endpoints := map endpointOf (traversal table') |}.
    exists {| parser := {| spec := mkOpenAPISpec i sv (Some table') c |};
              endpoints := map endpointOf (traversal table') |}.
    split; [|split; [|split; [|split; [|split; [|split; [|split; [|split]]]]]]];
      try reflexivity.
    + rewrite RawFacts.server_of_document, Ed.
      rewrite (@Index.getAllEndpoints_traversal
                 {| spec := mkOpenAPISpec i sv (Some table') c |}
                 table' eq_refl).
      reflexivity.
    + unfold Raw.declaredServer. cbn [Raw.parser Raw.spec Raw.endpoints].
      now rewrite Ed.
    + cbn [endpoints]. rewrite Index.names_of_traversal.
      now apply RawFacts.traversal_declared.
Qed.

(** C2 as stated fails: a document that has neither [info] nor
    [components.schemas] is loaded, the server is built on it and answers a
    query. *)
Lemma incomplete_document_is_served :
  Raw.FortnoxMCPServer_new
    (Raw.Json (Raw.mkOpenAPISpec None None (Some []) None))
  = Normal {| Raw.parser :=
                {| Raw.spec := Raw.mkOpenAPISpec None None (Some []) None |};
              Raw.endpoints := [] |}
  /\ Raw.declaredServer
       {| Raw.parser :=
            {| Raw.spec := Raw.mkOpenAPISpec None None (Some []) None |};
          Raw.endpoints := [] |}
     = Some {| parser := {| spec := barePathsDocument |}; endpoints := [] |}
  /\ OpenAPIParser_new (Json barePathsDocument)
     = Normal {| spec := barePathsDocument |}
  /\ FortnoxMCPServer_new (Json barePathsDocument)
     = Normal {| parser := {| spec := barePathsDocument |}; endpoints := [] |}
  /\ handleToolCall
       {| parser := {| spec := barePathsDocument |}; endpoints := [] |}
       "list_all_endpoints" noArgs
     = ok (EndpointsReply
             {| el_method := None; el_tag := None;
                el_totalFound := 0; el_showing := 0; el_limitedTo := None;
                el_rows := []; el_notShown := None |}).
Proof. repeat split. Qed.




End Loader.

(* ------------------------------------------------------------------ *)
(** ** The query operations *)

Module Query.
Import JsString OpenAPI Server Spec JsStringFacts SortFacts CountFacts Loader Index.

Lemma filter_twice (A : Type) (f g : A -> bool) (l : list A) :
  filter g (filter f l) = filter (fun x => f x && g x) l.
Proof.
  induction l as [|x l IH]; simpl; [reflexivity|].
  destruct (f x); simpl; [|exact IH].
  destruct (g x); now rewrite IH.
Qed.

Lemma filter_all (A : Type) (l : list A) :
  filter (fun _ => true && true) l = l.
Proof. induction l as [|x l IH]; simpl; [reflexivity | now f_equal]. Qed.

Lemma occurs_after (k pre s : string) :
  occurs k s -> occurs k (pre ++ s).
Proof.
  intros (a & b & ->). induction pre as [|c pre IH]; simpl.
  - now exists a, b.
  - destruct IH as (a' & b' & E). exists (String c a'), b'.
    simpl. now rewrite E.
Qed.

Lemma tags_include_spec (e : FortnoxEndpoint) (t : string) :
  tags_include e t = true <-> exists ts, tags e = Some ts /\ In t ts.
Proof.
  unfold tags_include. destruct (tags e) as [ts|].
  - rewrite CountFacts.existsb_eqb_In. split.
    + intros H. now exists ts.
    + intros (ts' & [= <-] & H). exact H.
  - split; [discriminate | intros (ts & H & _); discriminate].
Qed.

Lemma filterEndpoints_keepTest (this : FortnoxMCPServer) (args : ToolCallArguments) :
  filterEndpoints this args = filter (keepTest args) (endpoints this).
Proof.
  unfold filterEndpoints, keepTest.
  destruct (if_truthy (a_method args)) as [m|],
           (if_truthy (a_tag args)) as [t|].
  - apply filter_twice.
  - apply filter_ext. intros e. now rewrite andb_true_r.
  - reflexivity.
  - symmetry. apply filter_all.
Qed.

Lemma keepTest_spec (args : ToolCallArguments) (e : FortnoxEndpoint) :
  keepTest args e = true <-> listAllKeeps args e.
Proof.
  unfold keepTest, listAllKeeps. rewrite andb_true_iff.
  assert (Hm : match if_truthy (a_method args) with
               | Some m => (toUpperCase (method e) =? toUpperCase m)%string
               | None => true
               end = true
               <-> (forall m, a_method args = Some m -> m <> EmptyString ->
                              ci_eq (method e) m)).
  { destruct (if_truthy (a_method args)) as [m|] eqn:E.
    - apply if_truthy_some in E. destruct E as [E Hne].
      rewrite String.eqb_eq, toUpperCase_ci. split.
      + intros H m' Hm' _. rewrite E in Hm'. now injection Hm' as <-.
      + intros H. now apply H.
    - split; [|reflexivity]. intros _ m Hm Hne.
      assert (if_truthy (a_method args) = Some m) by (apply if_truthy_some; auto).
      congruence. }
  assert (Ht : match if_truthy (a_tag args) with
               | Some t => tags_include e t
               | None => true
               end = true
               <-> (forall t, a_tag args = Some t -> t <> EmptyString ->
                              exists ts, tags e = Some ts /\ In t ts)).
  { destruct (if_truthy (a_tag args)) as [t|] eqn:E.
    - apply if_truthy_some in E. destruct E as [E Hne].
      rewrite tags_include_spec. split.
      + intros H t' Ht' _. rewrite E in Ht'. now injection Ht' as <-.
      + intros H. now apply H.
    - split; [|reflexivity]. intros _ t Ht Hne.
      assert (if_truthy (a_tag args) = Some t) by (apply if_truthy_some; auto).
      congruence. }
  tauto.
Qed.

Lemma slice0_truncated (A : Type) (limit : option Z) (d : Z) (l : list A) :
  JsArray.slice0 l (limit_or limit d)
  = truncated limit (fun l => JsArray.slice0 l d) l.
Proof.
  unfold truncated, limit_or. destruct limit as [n|]; [|reflexivity].
  destruct (Z.ltb_spec 0 n) as [Hpos|Hle].
  - destruct (Z.eqb_spec n 0); [lia|]. now apply slice0_pos.
  - destruct (Z.eqb_spec n 0); [reflexivity|]. apply slice0_neg. lia.
Qed.

(** C3, as the code has it.  [listAllEndpoints] keeps the endpoints of the
    index whose method is the given one up to case, when a non-empty method
    is given, and whose tags hold the given tag as it is written, when a
    non-empty tag is given; both tests must pass, and the index order stays.
    A positive limit lets the first [limit] of them through; without a limit,
    and with the limit 0, all are shown; a negative limit leaves out the last
    ones.  The count of the kept endpoints is reported next to the count of
    those shown. *)
Theorem listAll_filters_then_truncates :
  forall (this : FortnoxMCPServer) (args : ToolCallArguments),
  exists keep : FortnoxEndpoint -> bool,
    (forall e, keep e = true <-> listAllKeeps args e)
    /\ exists v,
         listAllEndpoints this args = ok (EndpointsReply v)
         /\ el_totalFound v = List.length (filter keep (endpoints this))
         /\ el_rows v
            = map toRow
                (truncated (a_limit args) (fun l => l)
                   (filter keep (endpoints this)))
         /\ el_showing v = List.length (el_rows v).
Proof.
  intros this args. exists (keepTest args). split; [apply keepTest_spec|].
  eexists. split; [reflexivity|]. simpl.
  rewrite filterEndpoints_keepTest. split; [reflexivity|].
  rewrite slice0_truncated.
  assert (E : truncated (a_limit args)
                (fun l => JsArray.slice0 l
                            (Z.of_nat (List.length (filter (keepTest args) (endpoints this)))))
                (filter (keepTest args) (endpoints this))
              = truncated (a_limit args) (fun l => l)
                  (filter (keepTest args) (endpoints this))).
  { unfold truncated. destruct (a_limit args) as [n|];
      [destruct (0 <? n)%Z; [reflexivity|]; destruct (n =? 0)%Z;
       [|reflexivity]|]; apply slice0_all. }
  rewrite E. split; [reflexivity | now rewrite length_map].
Qed.

(** C3 as stated fails: with the limit 0 the two endpoints are both shown,
    where the first 0 entries are none; and with the empty string for a
    method both are kept, where no endpoint has that method. *)
Lemma listAll_limit_zero_shows_all :
  listAllEndpoints customersServer
    (mkArgs None None (Some 0%Z) None None None None)
  = ok (EndpointsReply
          {| el_method := None; el_tag := None;
             el_totalFound := 2; el_showing := 2; el_limitedTo := None;
             el_rows := [toRow getCustomers; toRow postCustomers];
             el_notShown := None |})
  /\ firstn (Z.to_nat 0) (endpoints customersServer) = []
  /\ listAllEndpoints customersServer
       (mkArgs (Some "") None None None None None None)
     = ok (EndpointsReply
             {| el_method := None; el_tag := None;
                el_totalFound := 2; el_showing := 2; el_limitedTo := None;
                el_rows := [toRow getCustomers; toRow postCustomers];
                el_notShown := None |})
  /\ filter (fun e => (toUpperCase (method e) =? toUpperCase "")%string)
       (endpoints customersServer) = [].
Proof. repeat split. Qed.

(** C6.  [getEndpointDetails] looks the pair up by the path as it is written
    and the method in capitals.  When no endpoint has that key the reply is a
    failure, returned and not thrown, whose text names [search_endpoints] and
    [list_all_endpoints]; when one has, the reply is that endpoint, and its
    path and method are the key. *)
Theorem getEndpointDetails_by_exact_key :
  forall (this : FortnoxMCPServer) (p m : string)
         (tag : option string) (limit : option Z)
         (resource keyword schemaName : option string),
  exists r,
    getEndpointDetails this
      (mkArgs (Some m) tag limit (Some p) resource keyword schemaName)
    = Normal r
    /\ ((isError r = true
         /\ noSuchKey (endpoints this) p (toUpperCase m)
         /\ exists text,
              content r = Text text
              /\ includes text "search_endpoints" = true
              /\ includes text "list_all_endpoints" = true)
        \/ (isError r = false
            /\ exists d,
                 content r = DetailsReply d
                 /\ In (d_endpoint d) (endpoints this)
                 /\ path (d_endpoint d) = p
                 /\ method (d_endpoint d) = toUpperCase m)).
Proof.
  intros this p m tag limit resource keyword schemaName.
  unfold getEndpointDetails. cbn [a_method a_path same_path].
  destruct (find _ (endpoints this)) as [e|] eqn:E.
  - eexists. split; [reflexivity|]. right. split; [reflexivity|].
    apply find_some in E. destruct E as [Hin Hk].
    apply andb_true_iff in Hk. destruct Hk as [Hp Hm].
    apply String.eqb_eq in Hp, Hm.
    eexists. split; [reflexivity|]. simpl. auto.
  - eexists. split; [reflexivity|]. left. split; [reflexivity|]. split.
    + intros e Hin [Hp Hm].
      pose proof (find_none _ _ E e Hin) as Hk. simpl in Hk.
      rewrite Hp, Hm, !String.eqb_refl in Hk. discriminate.
    + exists ("Endpoint not found: " ++ toUpperCase m ++ " " ++ p ++ nl ++ nl
              ++ "Tip: Use search_endpoints or list_all_endpoints to find the correct path.")%string.
      split; [reflexivity|].
      split; apply includes_spec; repeat apply occurs_after;
        apply includes_spec; reflexivity.
Qed.

Lemma opt_includes_spec (x : option string) (k : string) :
  opt_includes x (toLowerCase k) = true
  <-> exists s, x = Some s /\ ci_occurs k s.
Proof.
  unfold opt_includes. destruct x as [s|].
  - rewrite includes_lower_ci. split.
    + intros H. now exists s.
    + intros (s' & [= <-] & H). exact H.
  - split; [discriminate | intros (s & H & _); discriminate].
Qed.

Lemma searchMatch_spec (k : string) (e : FortnoxEndpoint) :
  searchMatch (toLowerCase k) e = true <-> searchHit k e.
Proof.
  unfold searchMatch, searchHit.
  rewrite !orb_true_iff, !opt_includes_spec, !includes_lower_ci.
  assert (Ht : match tags e with
               | Some ts => existsb (fun t => includes (toLowerCase t) (toLowerCase k)) ts
               | None => false
               end = true
               <-> exists ts t, tags e = Some ts /\ In t ts /\ ci_occurs k t).
  { destruct (tags e) as [ts|].
    - rewrite existsb_exists. split.
      + intros (t & Hin & H). apply includes_lower_ci in H. now exists ts, t.
      + intros (ts' & t & [= <-] & Hin & H). exists t.
        split; [exact Hin | now apply includes_lower_ci].
    - split; [discriminate | intros (ts & t & H & _); discriminate]. }
  tauto.
Qed.

(** C4, as the code has it.  An endpoint is a match of the search exactly
    when the keyword occurs, up to case, in its path, summary, description,
    operation id or one of its tags.  The matches stand in index order; their
    count is taken before the limit applies; a positive limit lets the first
    [limit] matches through, no limit and the limit 0 the first 20, and a
    negative limit leaves out the last ones. *)
Theorem search_matches_in_index_order :
  forall (this : FortnoxMCPServer) (k : string) (limit : option Z)
         (m tag p resource schemaName : option string),
    (forall e, searchMatch (toLowerCase k) e = true <-> searchHit k e)
    /\ exists r,
         searchEndpoints this
           (mkArgs m tag limit p resource (Some k) schemaName) = Normal r
         /\ isError r = false
         /\ match filter (searchMatch (toLowerCase k)) (endpoints this) with
            | [] => exists text, content r = Text text
            | hit :: hits =>
                exists v,
                  content r = SearchReply v
                  /\ sr_totalMatches v = List.length (hit :: hits)
                  /\ sr_results v = truncated limit (firstn 20) (hit :: hits)
                  /\ sr_showing v = List.length (sr_results v)
            end.
Proof.
  intros this k limit m tag p resource schemaName.
  split; [intros e; apply searchMatch_spec|].
  unfold searchEndpoints. cbn [a_keyword a_limit].
  destruct (filter (searchMatch (toLowerCase k)) (endpoints this))
    as [|hit hits] eqn:E.
  - eexists. split; [reflexivity|]. split; [reflexivity|].
    eexists. reflexivity.
  - eexists. split; [reflexivity|]. split; [reflexivity|].
    eexists. split; [reflexivity|]. cbn [sr_totalMatches sr_results sr_showing].
    split; [reflexivity|]. split; [|reflexivity].
    rewrite slice0_truncated. unfold truncated.
    destruct limit as [n|]; [|now apply slice0_pos].
    destruct (0 <? n)%Z; [reflexivity|].
    destruct (n =? 0)%Z; [now apply slice0_pos | reflexivity].
Qed.

(** C4 as stated fails: with the limit 0 the search for customer returns its
    two matches, where the first 0 matches are none. *)
Lemma search_limit_zero_returns_twenty :
  searchEndpoints customersServer
    (mkArgs None None (Some 0%Z) None None (Some "Customer") None)
  = Normal (ok (SearchReply
                  {| sr_keyword := "customer";
                     sr_totalMatches := 2;
                     sr_showing := 2;
                     sr_results := [getCustomers; postCustomers];
                     sr_notShown := None |}))
  /\ firstn (Z.to_nat 0) [getCustomers; postCustomers] = [].
Proof. split; reflexivity. Qed.

(** *** Resources *)

Lemma tagMatchesResource_spec (r t : string) :
  tagMatchesResource r t = true
  <-> occurs (toLowerCase r) (toLowerCase t)
      \/ occurs (replace (toLowerCase t) "fortnox_" "") (toLowerCase r).
Proof.
  unfold tagMatchesResource. now rewrite orb_true_iff, !includes_spec.
Qed.

Lemma matchesResource_spec (r : string) (e : FortnoxEndpoint) :
  matchesResource r e = true <-> resourceHit r e.
Proof.
  unfold matchesResource, resourceHit. destruct (tags e) as [ts|].
  - rewrite existsb_exists. split.
    + intros (t & Hin & H). apply tagMatchesResource_spec in H.
      now exists ts, t.
    + intros (ts' & t & [= <-] & Hin & H). exists t.
      split; [exact Hin | now apply tagMatchesResource_spec].
  - split; [discriminate | intros (ts & t & H & _); discriminate].
Qed.

Lemma resourceHit_by_prefix (r : string) (e : FortnoxEndpoint) :
  vendorOnlyAsPrefix e -> (resourceHit r e <-> resourceHitByPrefix r e).
Proof.
  intros Hv. unfold resourceHit, resourceHitByPrefix.
  split; intros (ts & t & Ht & Hin & H); exists ts, t;
    (split; [exact Ht|]; split; [exact Hin|]);
    pose proof (replace_strip_prefix _ _ (Hv ts t Ht Hin)) as E.
  - now rewrite <- E.
  - now rewrite E.
Qed.

Lemma one_bucket (e : FortnoxEndpoint) :
  In (method e) canonicalMethods -> bucketsHolding e = 1.
Proof.
  unfold bucketsHolding, isList, isGet, isCreate, isUpdate, isDelete.
  intros [H|[H|[H|[H|[H|[]]]]]]; rewrite <- H; simpl;
    try reflexivity; destruct (includes (path e) "{"); reflexivity.
Qed.

Lemma buckets_permutation (l : list FortnoxEndpoint) :
  Forall (fun e => bucketsHolding e = 1) l ->
  Permutation l
    (g_list (group l) ++ g_get (group l) ++ g_create (group l)
       ++ g_update (group l) ++ g_delete (group l)).
Proof.
  unfold group. cbn [g_list g_get g_create g_update g_delete].
  induction 1 as [|e l He Hl IH]; [reflexivity|].
  unfold bucketsHolding in He. simpl in He. simpl.
  destruct (isList e), (isGet e), (isCreate e), (isUpdate e), (isDelete e);
    simpl in He; try discriminate;
    (etransitivity; [apply perm_skip, IH|]);
    repeat first
      [ reflexivity
      | apply Permutation_middle
      | etransitivity; [apply Permutation_middle|]; apply Permutation_app_head ].
Qed.

Lemma built_index (f : SpecFile) (srv : FortnoxMCPServer) :
  FortnoxMCPServer_new f = Normal srv ->
  getAllEndpoints (parser srv) = Normal (endpoints srv).
Proof.
  unfold FortnoxMCPServer_new, bind.
  destruct (OpenAPIParser_new f) as [p|]; [|discriminate].
  destruct (getAllEndpoints p) as [es|] eqn:E; [|discriminate].
  intros [= <-]. exact E.
Qed.

Lemma isList_spec (e : FortnoxEndpoint) : isList e = true <-> listBucket e.
Proof.
  unfold isList, listBucket.
  rewrite andb_true_iff, String.eqb_eq, negb_true_iff.
  rewrite <- includes_spec. now destruct (includes (path e) "{").
Qed.

Lemma isGet_spec (e : FortnoxEndpoint) : isGet e = true <-> getBucket e.
Proof.
  unfold isGet, getBucket.
  now rewrite andb_true_iff, String.eqb_eq, includes_spec.
Qed.

Lemma isCreate_spec (e : FortnoxEndpoint) :
  isCreate e = true <-> createBucket e.
Proof. apply String.eqb_eq. Qed.

Lemma isUpdate_spec (e : FortnoxEndpoint) :
  isUpdate e = true <-> updateBucket e.
Proof.
  unfold isUpdate, updateBucket. now rewrite orb_true_iff, !String.eqb_eq.
Qed.

Lemma isDelete_spec (e : FortnoxEndpoint) :
  isDelete e = true <-> deleteBucket e.
Proof. apply String.eqb_eq. Qed.

(** The buckets of [group], by method and path. *)
Lemma group_buckets (l : list FortnoxEndpoint) (e : FortnoxEndpoint) :
  (In e (g_list (group l)) <-> In e l /\ listBucket e)
  /\ (In e (g_get (group l)) <-> In e l /\ getBucket e)
  /\ (In e (g_create (group l)) <-> In e l /\ createBucket e)
  /\ (In e (g_update (group l)) <-> In e l /\ updateBucket e)
  /\ (In e (g_delete (group l)) <-> In e l /\ deleteBucket e).
Proof.
  unfold group. cbn [g_list g_get g_create g_update g_delete].
  rewrite !filter_In.
  rewrite isList_spec, isGet_spec, isCreate_spec, isUpdate_spec,
    isDelete_spec.
  tauto.
Qed.

(** C5, as the code has it.  [getEndpointsByResource] selects the endpoints
    that have a tag [t] such that the lower-case [t] contains the lower-case
    resource name, or the lower-case resource name contains the lower-case
    [t] from which the first occurrence of the vendor string is taken out;
    for a tag that carries the vendor string at its start or not at all, that
    is [t] with the vendor prefix stripped.  With no match the reply is a
    failure.  Otherwise the reply has five buckets of matches: list holds
    the matches of method GET whose path has no placeholder, get those of
    method GET whose path has one, create those of method POST, update those
    of method PUT or PATCH, delete those of method DELETE; each match is in
    one bucket and one only, and the buckets together are the matches. *)
Theorem getByResource_matches_and_partitions :
  forall (f : SpecFile) (srv : FortnoxMCPServer) (resource : string)
         (m tag p keyword schemaName : option string) (limit : option Z),
    FortnoxMCPServer_new f = Normal srv ->
    (forall e, matchesResource resource e = true <-> resourceHit resource e)
    /\ (forall e, vendorOnlyAsPrefix e ->
                  (matchesResource resource e = true
                   <-> resourceHitByPrefix resource e))
    /\ exists r,
         getEndpointsByResource srv
           (mkArgs m tag limit p (Some resource) keyword schemaName) = Normal r
         /\ match filter (matchesResource resource) (endpoints srv) with
            | [] => isError r = true /\ exists text, content r = Text text
            | x :: xs =>
                isError r = false
                /\ exists v,
                     content r = ResourceReply v
                     /\ re_total v = List.length (x :: xs)
                     /\ re_grouped v = group (x :: xs)
                     /\ (forall e,
                            (In e (g_list (re_grouped v))
                             <-> In e (x :: xs) /\ listBucket e)
                            /\ (In e (g_get (re_grouped v))
                                <-> In e (x :: xs) /\ getBucket e)
                            /\ (In e (g_create (re_grouped v))
                                <-> In e (x :: xs) /\ createBucket e)
                            /\ (In e (g_update (re_grouped v))
                                <-> In e (x :: xs) /\ updateBucket e)
                            /\ (In e (g_delete (re_grouped v))
                                <-> In e (x :: xs) /\ deleteBucket e))
                     /\ Permutation (x :: xs)
                          (g_list (re_grouped v) ++ g_get (re_grouped v)
                             ++ g_create (re_grouped v)
                             ++ g_update (re_grouped v)
                             ++ g_delete (re_grouped v))
                     /\ Forall (fun e => bucketsHolding e = 1) (x :: xs)
            end.
Proof.
  intros f srv resource m tag p keyword schemaName limit Hnew.
  split; [intros e; apply matchesResource_spec|].
  split.
  { intros e Hv. rewrite matchesResource_spec. now apply resourceHit_by_prefix. }
  assert (Hm : Forall (fun e => bucketsHolding e = 1)
                 (filter (matchesResource resource) (endpoints srv))).
  { apply Forall_forall. intros e He. apply filter_In in He.
    destruct He as [He _]. apply one_bucket.
    pose proof (@index_methods _ _ (@built_index _ _ Hnew)) as F.
    rewrite Forall_forall in F. now apply F. }
  unfold getEndpointsByResource. cbn [a_resource].
  destruct (filter (matchesResource resource) (endpoints srv)) as [|x xs].
  - eexists. split; [reflexivity|]. split; [reflexivity|].
    eexists. reflexivity.
  - eexists. split; [reflexivity|]. split; [reflexivity|].
    eexists. split; [reflexivity|].
    cbn [re_total re_grouped]. split; [reflexivity|]. split; [reflexivity|].
    split; [intros e; apply group_buckets|].
    split; [now apply buckets_permutation | exact Hm].
Qed.

(** The resource Customers over the index of the customers document. *)
Lemma getByResource_witness :
  exists r,
    getEndpointsByResource
      {| parser := {| spec := customersDocument |};
         endpoints := [getCustomers; postCustomers] |}
      (mkArgs None None None None (Some "Customers") None None) = Normal r
    /\ isError r = false.
Proof.
  destruct (@getByResource_matches_and_partitions
              (Json customersDocument)
              {| parser := {| spec := customersDocument |};
                 endpoints := [getCustomers; postCustomers] |}
              "Customers" None None None None None None eq_refl)
    as (_ & _ & r & Hr & H).
  exists r. split; [exact Hr|].
  vm_compute in H. destruct H as [H _]. exact H.
Defined.

(** C5 as stated fails: the tag carries the vendor string in the middle, so
    stripping the prefix leaves it whole and the resource name contains
    neither form of it; the code takes the vendor string out of the middle
    and returns the endpoint. *)
Lemma getByResource_strips_inner_vendor_string :
  getEndpointsByResource legacyServer
    (mkArgs None None None None (Some "legacy_archive") None None)
  = Normal (ok (ResourceReply
                  {| re_resource := "legacy_archive";
                     re_total := 1;
                     re_grouped :=
                       {| g_list := [legacyArchive]; g_get := [];
                          g_create := []; g_update := [];
                          g_delete := [] |} |}))
  /\ includes (toLowerCase "Legacy_fortnox_Archive") (toLowerCase "legacy_archive")
     || includes (toLowerCase "legacy_archive")
          (strip_prefix "fortnox_" (toLowerCase "Legacy_fortnox_Archive"))
     = false.
Proof. split; reflexivity. Qed.

(** *** Resource groups and the overview *)

Lemma lex_compare_antisym (a b : list N) :
  lex_compare b a = CompOpp (lex_compare a b).
Proof.
  revert b. induction a as [|x a IH]; intros [|y b]; simpl; try reflexivity.
  rewrite (N.compare_antisym x y).
  destruct (x ?= y)%N; simpl; [apply IH | reflexivity | reflexivity].
Qed.

Lemma localeCompare_antisym (a b : string) :
  localeCompare b a = (- localeCompare a b)%Z.
Proof.
  unfold localeCompare.
  rewrite (lex_compare_antisym (weights primary a) (weights primary b)),
    (lex_compare_antisym (weights tertiary a) (weights tertiary b)).
  destruct (lex_compare (weights primary a) (weights primary b)); simpl;
    try reflexivity.
  destruct (lex_compare (weights tertiary a) (weights tertiary b)); reflexivity.
Qed.

Lemma byTagName_total (a b : string * Z) :
  (0 < byTagName a b)%Z -> (byTagName b a <= 0)%Z.
Proof. unfold byTagName. rewrite (localeCompare_antisym (fst a) (fst b)). lia. Qed.

Lemma byCountDesc_total (a b : string * Z) :
  (0 < byCountDesc a b)%Z -> (byCountDesc b a <= 0)%Z.
Proof. unfold byCountDesc. lia. Qed.

Lemma Sorted_weaken (A : Type) (R R' : A -> A -> Prop) (l : list A) :
  (forall a b, R a b -> R' a b) -> Sorted R l -> Sorted R' l.
Proof.
  intros HR. induction 1 as [|x l Hs IH Hh]; constructor; [exact IH|].
  destruct Hh; constructor. now apply HR.
Qed.

Lemma StronglySorted_app_inv (A : Type) (R : A -> A -> Prop) (a b : list A) :
  StronglySorted R (a ++ b) ->
  forall x y, In x a -> In y b -> R x y.
Proof.
  induction a as [|z a IH]; intros H x y Hx Hy; [contradiction|].
  simpl in H. inversion H as [|? ? Hs Hall]; subst.
  destruct Hx as [<-|Hx].
  - rewrite Forall_forall in Hall. apply Hall, in_or_app. now right.
  - now apply IH.
Qed.

Lemma countTags_entries (es : list FortnoxEndpoint) (t : string) (n : Z) :
  In (t, n) (JsObject.entries (countTags es))
  <-> In t (allTags es) /\ n = occurrences t (allTags es).
Proof. rewrite countTags_tally. apply tally_entries. Qed.

(** C8, as the code has it.  For tags that are none of the names an object
    inherits, the full list of [listResourceGroups] holds one entry for each
    tag of the index, with the number of (endpoint, tag) pairs of that tag;
    the entries are sorted by the tag as it is stored, vendor prefix
    included, and each is shown with the first occurrence of the vendor
    string taken out. *)
Theorem listResourceGroups_sorted_by_stored_tag :
  forall this : FortnoxMCPServer,
    plainNames (allTags (endpoints this)) ->
    exists v byName,
      listResourceGroups this = ok (GroupsReply v)
      /\ rg_all v
         = map (fun entry => (replace (fst entry) "fortnox_" "", snd entry)) byName
      /\ Sorted (fun a b => (localeCompare (fst a) (fst b) <= 0)%Z) byName
      /\ Permutation byName (JsObject.entries (countTags (endpoints this)))
      /\ (forall t n,
             In (t, n) byName
             <-> In t (allTags (endpoints this))
                 /\ n = occurrences t (allTags (endpoints this))).
Proof.
  intros this _.
  set (byCount := JsArray.sort byCountDesc
                    (JsObject.entries (countTags (endpoints this)))).
  assert (Hp : Permutation (JsArray.sort byTagName byCount)
                 (JsObject.entries (countTags (endpoints this)))).
  { etransitivity; [apply sort_perm|]. apply sort_perm. }
  eexists. exists (JsArray.sort byTagName byCount).
  split; [reflexivity|]. split; [reflexivity|]. split; [|split].
  - apply (@sort_sorted _ byTagName byTagName_total).
  - exact Hp.
  - intros t n. rewrite <- countTags_entries. split; intros H.
    + now apply (Permutation_in _ Hp).
    + now apply (Permutation_in _ (Permutation_sym Hp)).
Qed.

(** The groups of the customers server. *)
Lemma listResourceGroups_witness :
  exists v, listResourceGroups customersServer = ok (GroupsReply v)
            /\ rg_all v = [("Customers", 2%Z)].
Proof.
  destruct (@listResourceGroups_sorted_by_stored_tag customersServer)
    as (v & byName & Hv & Hall & _).
  - repeat constructor; intros H; simpl in H;
      repeat (destruct H as [H|H]; [discriminate|]); exact H.
  - exists v. split; [exact Hv|].
    injection Hv as <-. reflexivity.
Defined.

(** C8 as stated fails: Apple is before Banana in the alphabet, and the tag
    fortnox_Apple, shown as Apple, is listed after Banana, because the list
    is sorted by the tags with their prefix. *)
Lemma listResourceGroups_sorts_with_prefix :
  listResourceGroups mixedPrefixServer
  = ok (GroupsReply
          {| rg_total := 2;
             rg_categories := [("Other", [("Apple", 1%Z); ("Banana", 1%Z)])];
             rg_all := [("Banana", 1%Z); ("Apple", 1%Z)] |})
  /\ localeCompare (replace "fortnox_Apple" "fortnox_" "")
       (replace "Banana" "fortnox_" "") = (-1)%Z.
Proof. split; reflexivity. Qed.

Lemma countMethods_entries (es : list FortnoxEndpoint) (m : string) (n : Z) :
  In (m, n) (JsObject.entries (countMethods es))
  <-> In m (map method es) /\ n = occurrences m (map method es).
Proof. rewrite countMethods_tally. apply tally_entries. Qed.

Lemma ranked_properties (entries : list (string * Z)) :
  let ranked := JsArray.sort byCountDesc entries in
  Permutation ranked entries
  /\ JsArray.slice0 ranked 10 = firstn 10 ranked
  /\ (forall x y, In x (firstn 10 ranked) -> In y (skipn 10 ranked) ->
                  (snd y <= snd x)%Z)
  /\ Sorted (fun a b => (snd b <= snd a)%Z) ranked
  /\ (forall c, filter (fun x => (snd x =? c)%Z) ranked
                = filter (fun x => (snd x =? c)%Z) entries).
Proof.
  intros ranked.
  assert (Hs : Sorted (fun a b : string * Z => (snd b <= snd a)%Z) ranked).
  { apply Sorted_weaken with (R := JsArray.before byCountDesc).
    - unfold JsArray.before, byCountDesc. intros a b. lia.
    - apply (@sort_sorted _ byCountDesc byCountDesc_total). }
  split; [apply sort_perm|]. split; [apply slice0_pos; lia|].
  split; [|split; [exact Hs|]].
  - intros x y Hx Hy.
    apply (@StronglySorted_app_inv _ (fun a b : string * Z => (snd b <= snd a)%Z)
             (firstn 10 ranked) (skipn 10 ranked)); [|exact Hx|exact Hy].
    rewrite firstn_skipn. apply Sorted_StronglySorted; [|exact Hs].
    intros a b c Hab Hbc. lia.
  - intros c. apply filter_sort. intros x y Hx Hy.
    apply Z.eqb_eq in Hx, Hy. unfold byCountDesc. lia.
Qed.

(** C9, as the code has it.  For tags that are none of the names an object
    inherits: when the document has a first server and an [info], the
    overview succeeds; it counts the endpoints of each method and the
    (endpoint, tag) pairs of each tag, and lists the first ten tags, or all
    when there are fewer, of the ranking by falling count, so that no tag
    left out has a higher count than a listed one.  Tags of equal count stay
    in the order of the counting table, where the tags that are array-index
    strings stand ahead in ascending order and the other tags follow in the
    order they are first seen.  Without a server the overview throws the
    error of [getBaseUrl], and without [info] a type error. *)
Theorem overview_counts_and_ranks :
  forall this : FortnoxMCPServer,
    plainNames (allTags (endpoints this)) ->
    match servers (spec (parser this)), info (spec (parser this)) with
    | Some (s :: _), Some i =>
        exists v ranked,
          getAPIOverview this = Normal (ok (OverviewReply v))
          /\ ov_baseUrl v = sv_url s
          /\ ov_title v = i_title i
          /\ ov_totalEndpoints v = List.length (endpoints this)
          /\ (forall m n,
                 In (m, n) (ov_byMethod v)
                 <-> In m (map method (endpoints this))
                     /\ n = occurrences m (map method (endpoints this)))
          /\ (forall t n,
                 In (t, n) ranked
                 <-> In t (allTags (endpoints this))
                     /\ n = occurrences t (allTags (endpoints this)))
          /\ Permutation ranked (JsObject.entries (countTags (endpoints this)))
          /\ ov_topGroups v = firstn 10 ranked
          /\ (forall x y, In x (firstn 10 ranked) -> In y (skipn 10 ranked) ->
                          (snd y <= snd x)%Z)
          /\ Sorted (fun a b => (snd b <= snd a)%Z) ranked
          /\ (forall c,
                 filter (fun x => (snd x =? c)%Z) ranked
                 = filter (fun x => (snd x =? c)%Z)
                     (JsObject.entries (countTags (endpoints this))))
          /\ indexKeysAhead (JsObject.keys (countTags (endpoints this)))
          /\ filter (fun x => negb (isIndexKey x))
               (JsObject.keys (countTags (endpoints this)))
             = firstSeen []
                 (filter (fun x => negb (isIndexKey x))
                    (allTags (endpoints this)))
    | Some (_ :: _), None => getAPIOverview this = Throw TypeError
    | _, _ =>
        getAPIOverview this = Throw (Error "No servers defined in OpenAPI spec")
    end.
Proof.
  intros this _. unfold getAPIOverview, getBaseUrl, getSpec.
  destruct (servers (spec (parser this))) as [[|s rest]|];
    destruct (info (spec (parser this))) as [i|]; try reflexivity.
  destruct (ranked_properties (JsObject.entries (countTags (endpoints this))))
    as (Hperm & Hslice & Htop & Hsorted & Hstable).
  eexists. exists (JsArray.sort byCountDesc
                     (JsObject.entries (countTags (endpoints this)))).
  split; [reflexivity|]. cbn [bind ov_baseUrl ov_title ov_totalEndpoints
                              ov_byMethod ov_topGroups].
  split; [reflexivity|]. split; [reflexivity|]. split; [reflexivity|].
  split; [intros m n; apply countMethods_entries|].
  split.
  { intros t n. rewrite <- countTags_entries. split; intros H.
    - now apply (Permutation_in _ Hperm).
    - now apply (Permutation_in _ (Permutation_sym Hperm)). }
  split; [exact Hperm|]. split; [exact Hslice|]. split; [exact Htop|].
  split; [exact Hsorted|]. split; [exact Hstable|].
  rewrite countTags_tally. apply (tally_key_order (allTags (endpoints this))).
Qed.

(** The overview of the two groups of [mixedPrefixServer]. *)
Lemma overview_witness :
  exists v,
    getAPIOverview mixedPrefixServer = Normal (ok (OverviewReply v))
    /\ ov_topGroups v = [("fortnox_Apple", 1%Z); ("Banana", 1%Z)].
Proof.
  assert (Hplain : plainNames (allTags (endpoints mixedPrefixServer))).
  { repeat constructor; intros H; simpl in H;
      repeat (destruct H as [H|H]; [discriminate|]); exact H. }
  pose proof (@overview_counts_and_ranks mixedPrefixServer Hplain) as H.
  cbv beta iota zeta
    delta [mixedPrefixServer servedDocument parser spec servers info] in H.
  destruct H as (v & ranked & Hv & _).
  exists v. split; [exact Hv|].
  injection Hv as <-. reflexivity.
Defined.

(** C9 as stated fails twice.  The tag b is seen before the tag 1, both have
    one endpoint, and the overview lists 1 first: a counting table keeps its
    array-index keys ahead of the others.  And over a document with an empty
    list of servers the overview is an error. *)
Lemma overview_number_tag_first_and_needs_server :
  getAPIOverview numberedTagServer
  = Normal (ok (OverviewReply
                  {| ov_title := "Fortnox API";
                     ov_version := "1.0";
                     ov_baseUrl := "https://api.fortnox.se";
                     ov_totalEndpoints := 2;
                     ov_resourceGroups := 2;
                     ov_byMethod := [("GET", 2%Z)];
                     ov_topGroups := [("1", 1%Z); ("b", 1%Z)];
                     ov_description := "No description available" |}))
  /\ firstSeen [] (allTags (endpoints numberedTagServer)) = ["b"; "1"]
  /\ handleToolCall noServersServer "get_api_overview" noArgs
     = failed (Failure (Error "No servers defined in OpenAPI spec")).
Proof. repeat split. Qed.

End Query.

(* ------------------------------------------------------------------ *)
(** ** Further vocabulary *)

Module SpecMore.
Import JsString OpenAPI Server ToolList Client Spec.

(** The natural key of an endpoint. *)
Definition endpointKey (e : FortnoxEndpoint) : string * string :=
  (path e, method e).

(** The names of the categories, in the order the reply lists them. *)
Definition categoryNames : list string :=
  ["Core Business"; "Financial"; "Documents"; "Configuration"; "Other"].

(** How an entry of the count table is shown. *)
Definition cleanEntry (entry : string * Z) : string * Z :=
  (replace (fst entry) "fortnox_" "", snd entry).

(** The sum of the counts of a list of entries. *)
Definition totalCount (entries : list (string * Z)) : Z :=
  fold_right (fun entry acc => (snd entry + acc)%Z) 0%Z entries.

(** The schema the registry holds under a name. *)
Definition registered (this : OpenAPIParser) (name : string) : option Schema :=
  match components (spec this) with
  | Some c =>
      match c_schemas c with
      | Some table => JsObject.get table name
      | None => None
      end
  | None => None
  end.

Fixpoint all_chars (P : ascii -> bool) (s : string) : bool :=
  match s with
  | EmptyString => true
  | String c s' => P c && all_chars P s'
  end.

(** How many times a character stands in a string. *)
Fixpoint count_char (c : ascii) (s : string) : nat :=
  match s with
  | EmptyString => 0
  | String d s' => (if Ascii.eqb c d then 1 else 0) + count_char c s'
  end.

(** The characters a form-encoded name or value is made of. *)
Definition encoded_char (c : ascii) : bool :=
  unreserved c || Ascii.eqb c "+" || Ascii.eqb c "%".

(** The value of a query parameter is there. *)
Definition defined (kv : string * QueryValue) : bool :=
  match snd kv with
  | QUndefined => false
  | _ => true
  end.

(** The customers document with a registry of one schema and a server. *)
Definition customerSchema : Schema :=
  mkSchema (Some "object") (Some "A customer")
    (Some [("CustomerNumber", mkSchema (Some "string") None None None None)])
    None None.

Definition registryParser : OpenAPIParser :=
  {| spec :=
       {| info := info servedDocument; servers := servers servedDocument;
          paths := paths customersDocument;
          components := Some {| c_schemas := Some [("Customer", customerSchema)] |} |} |}.

Definition registryServer : FortnoxMCPServer :=
  {| parser := registryParser; endpoints := [getCustomers; postCustomers] |}.

Definition sampleClient : FortnoxAPIClient :=
  {| config := {| accessToken := "token"; cfg_baseUrl := None;
                  clientSecret := Some "secret" |};
     baseUrl := "https://api.fortnox.se" |}.

(** The categories with the entries of a ranking that fall in each. *)
Definition categorized (ranked : list (string * Z))
  : list (string * list (string * Z)) :=
  map
    (fun c =>
       (c,
        map cleanEntry
          (filter (fun e => (categoryOf categoryRules (fst e) =? c)%string)
             ranked)))
    categoryNames.

Definition isHeaderOrCookie (p : Param) : bool :=
  match p_in p with
  | InHeader | InCookie => true
  | _ => false
  end.

(** The overview of [mixedPrefixServer]. *)
Definition mixedOverview : Overview :=
  {| ov_title := "Fortnox API";
     ov_version := "1.0";
     ov_baseUrl := "https://api.fortnox.se";
     ov_totalEndpoints := 2;
     ov_resourceGroups := 2;
     ov_byMethod := [("GET", 2%Z)];
     ov_topGroups := [("fortnox_Apple", 1%Z); ("Banana", 1%Z)];
     ov_description := "No description available" |}.

(** What the search for customer finds over [customersServer]. *)
Definition customerSearch : SearchResults :=
  {| sr_keyword := "customer";
     sr_totalMatches := 2;
     sr_showing := 2;
     sr_results := [getCustomers; postCustomers];
     sr_notShown := None |}.

End SpecMore.

(* ------------------------------------------------------------------ *)
(** ** More on the index *)

Module IndexMore.
Import JsString OpenAPI Server Spec SpecMore JsStringFacts Index Loader.

Lemma keys_of_traversal (table : list (string * PathItem)) :
  map endpointKey (map endpointOf (traversal table)) = map fst (traversal table).
Proof.
  rewrite map_map. apply map_ext_in. intros [[p m] o] H.
  pose proof (traversal_methods table) as F. rewrite Forall_forall in F.
  specialize (F _ H). simpl in F.
  destruct F as [<-|[<-|[<-|[<-|[<-|[]]]]]]; reflexivity.
Qed.

Lemma operationsOf_keys (entry : string * PathItem) :
  NoDup (map fst (operationsOf entry))
  /\ forall k, In k (map fst (operationsOf entry)) -> fst k = fst entry.
Proof.
  destruct entry as [p [g po pu de pa]].
  unfold operationsOf, canonicalMethods. simpl.
  destruct g, po, pu, de, pa; simpl; split;
    try (repeat constructor; simpl; intuition discriminate);
    intros k H; repeat (destruct H as [<-|H]; [reflexivity|]); contradiction.
Qed.

Lemma traversal_paths (table : list (string * PathItem)) (k : string * string) :
  In k (map fst (traversal table)) -> In (fst k) (JsObject.keys table).
Proof.
  unfold traversal, JsObject.keys. induction table as [|entry table IH]; simpl.
  - tauto.
  - rewrite map_app, in_app_iff. intros [H|H].
    + left. symmetry. now apply (proj2 (operationsOf_keys entry)).
    + right. now apply IH.
Qed.

Lemma traversal_keys_NoDup (table : list (string * PathItem)) :
  NoDup (JsObject.keys table) -> NoDup (map fst (traversal table)).
Proof.
  unfold JsObject.keys. induction table as [|entry table IH]; simpl.
  - constructor.
  - intros H. inversion H as [|? ? Hni Hnd]; subst.
    unfold traversal. simpl. rewrite map_app. apply NoDup_app.
    + apply operationsOf_keys.
    + now apply IH.
    + intros k Hk Hk'. apply Hni.
      rewrite <- (proj2 (operationsOf_keys entry) k Hk).
      now apply traversal_paths.
Qed.

Lemma find_by_key (l : list FortnoxEndpoint) (e : FortnoxEndpoint) :
  NoDup (map endpointKey l) -> In e l ->
  find (fun x => same_path x (Some (path e)) && (method x =? method e)%string) l
  = Some e.
Proof.
  induction l as [|x l IH]; intros Hnd Hin; [contradiction|].
  simpl in *. inversion Hnd as [|? ? Hni Hnd']; subst.
  destruct ((path x =? path e)%string && (method x =? method e)%string) eqn:E.
  - destruct Hin as [->|Hin]; [reflexivity|].
    apply andb_true_iff in E. destruct E as [Ep Em].
    apply String.eqb_eq in Ep, Em. exfalso. apply Hni.
    apply in_map_iff. exists e. split; [|exact Hin].
    unfold endpointKey. now rewrite Ep, Em.
  - destruct Hin as [->|Hin].
    + rewrite !String.eqb_refl in E. discriminate.
    + now apply IH.
Qed.

Lemma canonical_upper (m : string) :
  In m canonicalMethods -> toUpperCase m = m.
Proof. intros [<-|[<-|[<-|[<-|[<-|[]]]]]]; reflexivity. Qed.

(** X1.  When the paths of the document are distinct, as the keys of an
    object are, no two endpoints of the index have the same path and
    method. *)
Theorem index_keys_are_unique :
  forall (this : OpenAPIParser) (table : JsObject.t PathItem),
    paths (spec this) = Some table ->
    NoDup (JsObject.keys table) ->
    exists es,
      getAllEndpoints this = Normal es /\ NoDup (map endpointKey es).
Proof.
  intros this table Hp Hnd. exists (map endpointOf (traversal table)).
  split; [now apply getAllEndpoints_traversal|].
  rewrite keys_of_traversal. now apply traversal_keys_NoDup.
Qed.

Lemma index_keys_are_unique_witness :
  exists es,
    getAllEndpoints {| spec := customersDocument |} = Normal es
    /\ NoDup (map endpointKey es).
Proof.
  eapply (@index_keys_are_unique {| spec := customersDocument |}).
  - reflexivity.
  - repeat constructor. simpl. tauto.
Defined.

(** X2.  Looking up an endpoint of the index by its own path and method,
    the method written in any case, returns that very endpoint, provided the
    paths of the document are distinct. *)
Theorem details_of_indexed_endpoint :
  forall (f : SpecFile) (srv : FortnoxMCPServer) (e : FortnoxEndpoint)
         (m : string),
    FortnoxMCPServer_new f = Normal srv ->
    (forall table, paths (spec (parser srv)) = Some table ->
                   NoDup (JsObject.keys table)) ->
    In e (endpoints srv) ->
    ci_eq m (method e) ->
    exists d,
      getEndpointDetails srv
        (mkArgs (Some m) None None (Some (path e)) None None None)
      = Normal (ok (DetailsReply d))
      /\ d_endpoint d = e.
Proof.
  intros f srv e m Hnew Hnd Hin Hci.
  pose proof (@Query.built_index _ _ Hnew) as Hidx.
  assert (Hm : toUpperCase m = method e).
  { apply toUpperCase_ci in Hci. rewrite Hci. apply canonical_upper.
    pose proof (@index_methods _ _ Hidx) as F. rewrite Forall_forall in F.
    now apply F. }
  assert (Hk : NoDup (map endpointKey (endpoints srv))).
  { unfold getAllEndpoints in Hidx.
    destruct (paths (spec (parser srv))) as [table|] eqn:Ep; [|discriminate].
    unfold JsObject.entries in Hidx. rewrite collect_app in Hidx.
    simpl in Hidx. injection Hidx as <-.
    rewrite keys_of_traversal. apply traversal_keys_NoDup. now apply Hnd. }
  unfold getEndpointDetails. cbn [a_method a_path]. rewrite Hm.
  rewrite (find_by_key _ _ Hk Hin). eexists. split; reflexivity.
Qed.

Lemma details_of_indexed_endpoint_witness :
  exists d,
    getEndpointDetails
      {| parser := {| spec := customersDocument |};
         endpoints := [getCustomers; postCustomers] |}
      (mkArgs (Some "post") None None (Some "/3/customers") None None None)
    = Normal (ok (DetailsReply d))
    /\ d_endpoint d = postCustomers.
Proof.
  apply (@details_of_indexed_endpoint (Json customersDocument)
           {| parser := {| spec := customersDocument |};
              endpoints := [getCustomers; postCustomers] |}
           postCustomers "post").
  - reflexivity.
  - intros table [= <-]. repeat constructor. simpl. tauto.
  - simpl. tauto.
  - apply toUpperCase_ci. reflexivity.
Defined.

(** X3.  Listing with a non-empty tag shows the endpoints [getEndpointsByTag]
    returns for that tag, in the same order, and counts them. *)
Theorem listAll_by_tag_is_getEndpointsByTag :
  forall (this : OpenAPIParser) (es : list FortnoxEndpoint) (tag : string),
    getAllEndpoints this = Normal es ->
    tag <> EmptyString ->
    exists byTag v,
      getEndpointsByTag this tag = Normal byTag
      /\ listAllEndpoints {| parser := this; endpoints := es |}
           (mkArgs None (Some tag) None None None None None)
         = ok (EndpointsReply v)
      /\ el_rows v = map toRow byTag
      /\ el_totalFound v = List.length byTag.
Proof.
  intros this es tag Hes Hne.
  exists (filter (fun endpoint => tags_include endpoint tag) es).
  eexists. split; [|split; [reflexivity|]].
  - unfold getEndpointsByTag. rewrite Hes. reflexivity.
  - assert (Ht : if_truthy (Some tag) = Some tag)
      by (apply if_truthy_some; auto).
    unfold filterEndpoints. cbn [a_method a_tag a_limit if_truthy el_rows
                                  el_totalFound endpoints limit_or].
    cbn [if_truthy] in Ht. rewrite Ht.
    rewrite SortFacts.slice0_all. split; reflexivity.
Qed.

Lemma listAll_by_tag_witness :
  exists byTag v,
    getEndpointsByTag {| spec := customersDocument |} "fortnox_Customers"
    = Normal byTag
    /\ listAllEndpoints
         {| parser := {| spec := customersDocument |};
            endpoints := [getCustomers; postCustomers] |}
         (mkArgs None (Some "fortnox_Customers") None None None None None)
       = ok (EndpointsReply v)
    /\ el_rows v = map toRow byTag
    /\ el_totalFound v = List.length byTag.
Proof.
  apply (@listAll_by_tag_is_getEndpointsByTag
           {| spec := customersDocument |} [getCustomers; postCustomers]
           "fortnox_Customers").
  - reflexivity.
  - discriminate.
Defined.

End IndexMore.

(* ------------------------------------------------------------------ *)
(** ** More on the query operations *)

Module QueryMore.
Import JsString OpenAPI Server Spec SpecMore.
Import JsStringFacts JsObjectFacts SortFacts CountFacts Index Loader Query.

(** X4.  [getSchemaDetails] returns the schema the registry holds under the
    name, as it is stored, whatever characters the name has; and when the
    registry holds none under it, a failure naming the schema, provided the
    name is none of the names every object inherits ([constructor],
    [toString] and the like): under such a name the lookup finds the
    inherited member, which the registry table of the model does not
    hold. *)
Theorem getSchemaDetails_returns_registered :
  forall (this : FortnoxMCPServer) (name : string)
         (m tag p resource keyword : option string) (limit : option Z),
    (registered (parser this) name = None -> ~ In name inheritedNames) ->
    getSchemaDetails this
      (mkArgs m tag limit p resource keyword (Some name))
    = match registered (parser this) name with
      | Some schema => ok (SchemaReply name schema)
      | None => failed (Text ("Schema not found: " ++ name)%string)
      end.
Proof.
  intros this name m tag p resource keyword limit _.
  unfold getSchemaDetails, registered, resolveSchemaRef, startsWith, show.
  cbn [a_schemaName].
  assert (E : String.prefix "#/components/schemas/"
                ("#/components/schemas/" ++ name) = true)
    by (apply prefix_spec; now exists name).
  rewrite E, replace_prefix. cbn [negb].
  destruct (components (spec (parser this))) as [c|]; [|reflexivity].
  destruct (c_schemas c) as [table|]; [|reflexivity].
  destruct (JsObject.get table name); reflexivity.
Qed.

Lemma getSchemaDetails_returns_registered_witness :
  getSchemaDetails registryServer
    (mkArgs None None None None None None (Some "Customer"))
  = ok (SchemaReply "Customer" customerSchema)
  /\ getSchemaDetails registryServer
       (mkArgs None None None None None None (Some "Invoice"))
     = failed (Text "Schema not found: Invoice").
Proof.
  split.
  - apply (@getSchemaDetails_returns_registered registryServer "Customer"
             None None None None None None).
    discriminate.
  - apply (@getSchemaDetails_returns_registered registryServer "Invoice"
             None None None None None None).
    intros _ H. simpl in H.
    repeat (destruct H as [H|H]; [discriminate|]). exact H.
Defined.

Lemma or_default_truthy (x : option string) (d : string) :
  truthy d = true -> truthy (or_default x d) = true.
Proof.
  intros Hd. unfold or_default, if_truthy. destruct x as [s|]; [|exact Hd].
  destruct (truthy s) eqn:E; [exact E | exact Hd].
Qed.

(** X5.  The description of a schema is never the empty string. *)
Theorem getSchemaDescription_not_empty :
  forall (this : OpenAPIParser) (schema : Schema),
    truthy (getSchemaDescription this schema) = true.
Proof.
  intros this schema. unfold getSchemaDescription.
  destruct (if_truthy (s_ref schema)) as [ref|].
  - destruct (resolveSchemaRef this ref);
      [now apply or_default_truthy | reflexivity].
  - destruct (if_truthy (s_description schema)) as [d|] eqn:Ed.
    + apply if_truthy_some in Ed. now apply truthy_spec.
    + destruct (s_type schema) as [t|]; [|reflexivity].
      destruct (s_properties schema) as [props|], (s_items schema) as [items|];
        repeat match goal with
               | |- context [match ?x with EmptyString => _ | String _ _ => _ end] =>
                   destruct x
               | |- context [match ?x with Ascii _ _ _ _ _ _ _ _ => _ end] =>
                   destruct x
               | |- context [if ?b then _ else _] => destruct b
               end;
        try reflexivity; now apply or_default_truthy.
Qed.

Lemma required_or_optional (l : list Param) :
  Permutation l (filter isRequired l ++ filter (fun p => negb (isRequired p)) l).
Proof.
  induction l as [|p l IH]; simpl; [reflexivity|].
  destruct (isRequired p); simpl.
  - now apply perm_skip.
  - now apply Permutation_cons_app.
Qed.

Lemma in_three_kinds (l : list Param) :
  List.length (filter isPathParam l) + List.length (filter isQueryParam l)
  + List.length (filter isHeaderOrCookie l) = List.length l.
Proof.
  induction l as [|p l IH]; simpl; [reflexivity|].
  unfold isPathParam, isQueryParam, isHeaderOrCookie in *.
  destruct (p_in p); simpl; lia.
Qed.

(** X6.  In the details of an endpoint every parameter is listed as required
    or as optional, never as both, a parameter that does not say counting as
    optional; the path and query lists hold the parameters of those two
    places, and a header or cookie parameter is in neither. *)
Theorem details_sort_the_parameters :
  forall (this : FortnoxMCPServer) (args : ToolCallArguments)
         (r : ToolResult) (d : Details),
    getEndpointDetails this args = Normal r ->
    content r = DetailsReply d ->
    Permutation (parameters (d_endpoint d))
      (d_requiredParams d ++ d_optionalParams d)
    /\ (forall p, In p (d_requiredParams d)
                  <-> In p (parameters (d_endpoint d)) /\ p_required p = Some true)
    /\ (forall p, In p (d_pathParams d)
                  <-> In p (parameters (d_endpoint d)) /\ p_in p = InPath)
    /\ (forall p, In p (d_queryParams d)
                  <-> In p (parameters (d_endpoint d)) /\ p_in p = InQuery)
    /\ List.length (d_pathParams d) + List.length (d_queryParams d)
       + List.length (filter isHeaderOrCookie (parameters (d_endpoint d)))
       = List.length (parameters (d_endpoint d)).
Proof.
  intros this args r d Hr Hc. unfold getEndpointDetails in Hr.
  destruct (a_method args) as [m|]; [|discriminate].
  destruct (find _ (endpoints this)) as [e|]; injection Hr as <-;
    [|discriminate].
  injection Hc as <-. cbn [d_endpoint d_requiredParams d_optionalParams
                            d_pathParams d_queryParams].
  split; [apply required_or_optional|]. split; [|split; [|split]].
  - intros p. rewrite filter_In. unfold isRequired.
    destruct (p_required p) as [[|]|]; intuition congruence.
  - intros p. rewrite filter_In. unfold isPathParam.
    destruct (p_in p); intuition congruence.
  - intros p. rewrite filter_In. unfold isQueryParam.
    destruct (p_in p); intuition congruence.
  - apply in_three_kinds.
Qed.

Lemma details_sort_the_parameters_witness :
  exists d,
    getEndpointDetails customersServer
      (mkArgs (Some "GET") None None (Some "/3/customers") None None None)
    = Normal (ok (DetailsReply d))
    /\ Permutation (parameters (d_endpoint d))
         (d_requiredParams d ++ d_optionalParams d).
Proof.
  eexists. split; [reflexivity|].
  eapply (@details_sort_the_parameters customersServer
            (mkArgs (Some "GET") None None (Some "/3/customers") None None None));
    reflexivity.
Defined.

(** *** Categories *)

Lemma categoryOf_named (rules : list (string * list string)) (tag : string) :
  In (categoryOf rules tag) (map fst rules ++ ["Other"]).
Proof.
  induction rules as [|[c kws] rules IH]; simpl; [now left|].
  destruct (existsb _ kws); [now left | now right].
Qed.

Lemma categoryOf_other (rules : list (string * list string)) (tag : string) :
  Forall (fun rule => fst rule <> "Other") rules ->
  (categoryOf rules tag = "Other"
   <-> forall c kws k, In (c, kws) rules -> In k kws -> ~ occurs k tag).
Proof.
  induction 1 as [|[c kws] rules Hc Hrules IH]; simpl.
  - split; [intros _ c kws k [] | reflexivity].
  - destruct (existsb (fun k => includes tag k) kws) eqn:E.
    + split; [intros H; now elim Hc|]. intros H. exfalso.
      apply existsb_exists in E. destruct E as (k & Hk & Hi).
      apply includes_spec in Hi. exact (H c kws k (or_introl eq_refl) Hk Hi).
    + rewrite IH. split.
      * intros H c' kws' k [[= <- <-]|Hin] Hk Ho.
        -- apply includes_spec in Ho.
           assert (existsb (fun k => includes tag k) kws = true)
             by (apply existsb_exists; now exists k).
           congruence.
        -- exact (H c' kws' k Hin Hk Ho).
      * intros H c' kws' k Hin. apply (H c' kws' k). now right.
Qed.

(** X7.  The category of a tag is one of the five; it is Other exactly when
    none of the keywords occurs in the tag as it is written, capitals and
    all; and a tag in which a Core Business keyword occurs is Core Business
    whatever else occurs in it. *)
Theorem categoryOf_first_match :
  forall tag : string,
    In (categoryOf categoryRules tag) categoryNames
    /\ (categoryOf categoryRules tag = "Other"
        <-> forall c kws k,
              In (c, kws) categoryRules -> In k kws -> ~ occurs k tag)
    /\ ((exists k,
            In k ["Customers"; "Suppliers"; "Employees"; "Articles"; "Products"]
            /\ occurs k tag)
        -> categoryOf categoryRules tag = "Core Business").
Proof.
  intros tag. split; [|split].
  - apply (categoryOf_named categoryRules tag).
  - apply categoryOf_other. repeat constructor; discriminate.
  - intros (k & Hk & Ho). unfold categoryRules. simpl.
    assert (E : existsb (fun k => includes tag k)
                  ["Customers"; "Suppliers"; "Employees"; "Articles"; "Products"]
                = true).
    { apply existsb_exists. exists k. split; [exact Hk|].
      now apply includes_spec. }
    simpl in E. now rewrite E.
Qed.

Lemma map_other_keys (c : string) (entry : string * Z)
  (T : JsObject.t (list (string * Z))) :
  ~ In c (JsObject.keys T) ->
  map (fun x => (fst x, if (fst x =? c)%string then snd x ++ [entry] else snd x)) T
  = T.
Proof.
  unfold JsObject.keys. induction T as [|[k v] T IH]; simpl; [reflexivity|].
  intros H. destruct (k =? c)%string eqn:E.
  - apply String.eqb_eq in E. tauto.
  - rewrite IH; [reflexivity | tauto].
Qed.

Lemma pushEntry_map (T : JsObject.t (list (string * Z))) (c : string)
  (entry : string * Z) :
  NoDup (JsObject.keys T) ->
  pushEntry T c entry
  = map (fun x => (fst x, if (fst x =? c)%string then snd x ++ [entry] else snd x)) T.
Proof.
  unfold pushEntry. intros Hnd.
  destruct (JsObject.get T c) as [items|] eqn:Eg.
  - revert Eg. unfold JsObject.keys in Hnd.
    induction T as [|[k v] T IH]; simpl; [discriminate|].
    inversion Hnd as [|? ? Hni Hnd']; subst.
    destruct (k =? c)%string eqn:E.
    + intros [= ->]. apply String.eqb_eq in E. subst k.
      now rewrite (@map_other_keys c entry T Hni).
    + intros Eg. now rewrite (IH Hnd' Eg).
  - symmetry. apply map_other_keys. now apply get_none_keys.
Qed.

Section Classified.
Variable cat : string * Z -> string.
Variable shown : string * Z -> string * Z.

Lemma classify_fold (l : list (string * Z))
  (T : JsObject.t (list (string * Z))) :
  NoDup (JsObject.keys T) ->
  fold_left (fun categories entry => pushEntry categories (cat entry) (shown entry))
    l T
  = map
      (fun x =>
         (fst x,
          snd x ++ map shown (filter (fun e => (cat e =? fst x)%string) l)))
      T.
Proof.
  revert T. induction l as [|e l IH]; intros T Hnd; cbn [fold_left].
  - rewrite <- (map_id T) at 1. apply map_ext. intros [k v]. simpl.
    now rewrite app_nil_r.
  - rewrite pushEntry_map by exact Hnd. rewrite IH.
    + rewrite map_map. apply map_ext. intros [k v]. cbn [fst snd filter].
      rewrite (String.eqb_sym (cat e) k).
      destruct (k =? cat e)%string; cbn [map];
        [now rewrite <- app_assoc | reflexivity].
    + unfold JsObject.keys in *. rewrite map_map. simpl. exact Hnd.
Qed.

Lemma classify_five (l : list (string * Z)) :
  Forall (fun e => In (cat e) categoryNames) l ->
  Permutation (map shown l)
    (flat_map snd
       (map (fun c => (c, map shown (filter (fun e => (cat e =? c)%string) l)))
          categoryNames)).
Proof.
  unfold categoryNames. cbn [map flat_map snd]. rewrite app_nil_r.
  induction 1 as [|e l Hc Hl IH]; [reflexivity|].
  cbn [filter map].
  destruct Hc as [Hc|[Hc|[Hc|[Hc|[Hc|[]]]]]]; rewrite <- Hc; simpl;
    (etransitivity; [apply perm_skip, IH|]);
    repeat first
      [ reflexivity
      | apply Permutation_middle
      | etransitivity; [apply Permutation_middle|]; apply Permutation_app_head ].
Qed.
End Classified.

Lemma five_categories (l : list (string * Z)) :
  Permutation (map cleanEntry l) (flat_map snd (categorized l)).
Proof.
  apply (classify_five (fun e => categoryOf categoryRules (fst e)) cleanEntry).
  apply Forall_forall. intros e _.
  apply (categoryOf_named categoryRules (fst e)).
Qed.

Lemma flat_map_nonempty (A B : Type) (l : list (A * list B)) :
  flat_map snd (filter (fun c => (0 <? List.length (snd c))%nat) l)
  = flat_map snd l.
Proof.
  induction l as [|[a bs] l IH]; simpl; [reflexivity|].
  destruct bs as [|b bs]; simpl; [exact IH | now rewrite IH].
Qed.

(** X8.  For tags that are none of the names an object inherits, the
    category view of [listResourceGroups] lists the categories in their
    fixed order, leaving out the empty ones; each category holds, in ranking
    order, the tags the rule table assigns to it; and every tag of the index
    stands in one category and one only. *)
Theorem categories_partition_the_tags :
  forall this : FortnoxMCPServer,
    plainNames (allTags (endpoints this)) ->
    exists v ranked,
      listResourceGroups this = ok (GroupsReply v)
      /\ ranked = JsArray.sort byCountDesc
                    (JsObject.entries (countTags (endpoints this)))
      /\ rg_categories v
         = filter (fun c => (0 <? List.length (snd c))%nat) (categorized ranked)
      /\ Permutation (map cleanEntry ranked) (flat_map snd (rg_categories v))
      /\ List.length (flat_map snd (rg_categories v)) = rg_total v.
Proof.
  intros this _. eexists. eexists. split; [reflexivity|].
  split; [reflexivity|]. cbn [rg_categories rg_total].
  set (ranked := JsArray.sort byCountDesc
                   (JsObject.entries (countTags (endpoints this)))).
  assert (E : fold_left
                (fun categories entry =>
                   pushEntry categories (categoryOf categoryRules (fst entry))
                     (cleanEntry entry))
                ranked emptyCategories
              = categorized ranked).
  { rewrite (classify_fold (fun e => categoryOf categoryRules (fst e)) cleanEntry);
      [reflexivity|].
    repeat constructor; simpl; intuition discriminate. }
  match goal with
  | |- ?shown = _ /\ _ =>
      assert (E' : shown
                   = filter (fun c => (0 <? List.length (snd c))%nat)
                       (categorized ranked))
        by exact (f_equal (filter (fun c => (0 <? List.length (snd c))%nat)) E)
  end.
  rewrite E'. split; [reflexivity|]. rewrite flat_map_nonempty.
  split; [apply five_categories|].
  rewrite <- (Permutation_length (five_categories ranked)).
  now rewrite length_map.
Qed.

Lemma categories_partition_the_tags_witness :
  exists v,
    listResourceGroups mixedPrefixServer = ok (GroupsReply v)
    /\ rg_categories v = [("Other", [("Apple", 1%Z); ("Banana", 1%Z)])].
Proof.
  destruct (@categories_partition_the_tags mixedPrefixServer)
    as (v & ranked & Hv & _).
  - repeat constructor; intros H; simpl in H;
      repeat (destruct H as [H|H]; [discriminate|]); exact H.
  - exists v. split; [exact Hv|]. injection Hv as <-. reflexivity.
Defined.

(** *** Sums of counts *)

Lemma totalCount_app (a b : list (string * Z)) :
  totalCount (a ++ b) = (totalCount a + totalCount b)%Z.
Proof.
  unfold totalCount. induction a as [|x a IH]; simpl; [reflexivity|].
  rewrite IH. lia.
Qed.

Lemma totalCount_perm (a b : list (string * Z)) :
  Permutation a b -> totalCount a = totalCount b.
Proof.
  unfold totalCount.
  induction 1; simpl; try lia.
Qed.

Lemma totalCount_clean (l : list (string * Z)) :
  totalCount (map cleanEntry l) = totalCount l.
Proof.
  unfold totalCount. induction l as [|x l IH]; simpl; [reflexivity|].
  now rewrite IH.
Qed.

Lemma totalCount_update (o : JsObject.t Z) (k : string) (v0 v : Z) :
  JsObject.get o k = Some v0 ->
  totalCount (JsObject.update o k v) = (totalCount o - v0 + v)%Z.
Proof.
  unfold totalCount. induction o as [|[k' v'] o IH]; simpl; [discriminate|].
  destruct (k' =? k)%string.
  - intros [= ->]. simpl. lia.
  - intros H. simpl. rewrite (IH H). lia.
Qed.

Lemma totalCount_insert_index (n : N) (o : JsObject.t Z) (k : string) (v : Z) :
  totalCount (JsObject.insert_index n k v o) = (v + totalCount o)%Z.
Proof.
  unfold totalCount. induction o as [|[k' v'] o IH]; simpl; [reflexivity|].
  destruct (array_index k') as [n'|]; [|reflexivity].
  destruct (n <? n')%N; simpl; [reflexivity|]. rewrite IH. lia.
Qed.

Lemma totalCount_bump (o : JsObject.t Z) (k : string) :
  totalCount (bump o k) = (totalCount o + 1)%Z.
Proof.
  unfold bump, JsObject.set. destruct (JsObject.get o k) as [n|] eqn:E.
  - rewrite (totalCount_update _ _ _ E).
    destruct (n =? 0)%Z eqn:En; [apply Z.eqb_eq in En|]; lia.
  - destruct (array_index k).
    + rewrite totalCount_insert_index. lia.
    + rewrite totalCount_app. unfold totalCount at 2. simpl. lia.
Qed.

Lemma totalCount_tally (l : list string) (o : JsObject.t Z) :
  totalCount (fold_left bump l o) = (totalCount o + Z.of_nat (List.length l))%Z.
Proof.
  revert o. induction l as [|x l IH]; intros o; cbn [fold_left List.length].
  - lia.
  - rewrite IH, totalCount_bump. lia.
Qed.

Lemma tally_distinct (l : list string) :
  List.length (JsObject.keys (fold_left bump l JsObject.empty))
  = List.length (nodup string_dec l).
Proof.
  apply Permutation_length, NoDup_Permutation.
  - apply tally_NoDup. constructor.
  - apply NoDup_nodup.
  - intros x. rewrite keys_tally, nodup_In. simpl. tauto.
Qed.

(** X9.  For tags that are none of the names an object inherits, the counts
    of the full list of [listResourceGroups] add up to the number of
    (endpoint, tag) pairs of the index, and the number of groups reported is
    the number of distinct tags, one entry of the full list for each. *)
Theorem group_counts_add_up :
  forall this : FortnoxMCPServer,
    plainNames (allTags (endpoints this)) ->
    exists v,
      listResourceGroups this = ok (GroupsReply v)
      /\ totalCount (rg_all v)
         = Z.of_nat (List.length (allTags (endpoints this)))
      /\ rg_total v
         = List.length (nodup string_dec (allTags (endpoints this)))
      /\ List.length (rg_all v) = rg_total v.
Proof.
  intros this _. eexists. split; [reflexivity|]. cbn [rg_all rg_total].
  split; [|split].
  - change (totalCount
              (map cleanEntry
                 (JsArray.sort byTagName
                    (JsArray.sort byCountDesc
                       (JsObject.entries (countTags (endpoints this))))))
            = Z.of_nat (List.length (allTags (endpoints this)))).
    rewrite totalCount_clean.
    rewrite (totalCount_perm (sort_perm byTagName _)),
      (totalCount_perm (sort_perm byCountDesc _)).
    unfold JsObject.entries. rewrite countTags_tally, totalCount_tally.
    reflexivity.
  - rewrite sort_length. unfold JsObject.entries.
    rewrite countTags_tally, <- tally_distinct.
    unfold JsObject.keys. now rewrite length_map.
  - now rewrite length_map, !sort_length.
Qed.

Lemma group_counts_add_up_witness :
  exists v,
    listResourceGroups customersServer = ok (GroupsReply v)
    /\ totalCount (rg_all v) = 2%Z.
Proof.
  destruct (@group_counts_add_up customersServer) as (v & Hv & Hsum & _).
  - repeat constructor; intros H; simpl in H;
      repeat (destruct H as [H|H]; [discriminate|]); exact H.
  - exists v. split; [exact Hv | exact Hsum].
Defined.

Lemma in_slice0 (A : Type) (l : list A) (n : Z) (x : A) :
  In x (JsArray.slice0 l n) -> In x l.
Proof.
  unfold JsArray.slice0. intros H.
  rewrite <- (firstn_skipn
                (Z.to_nat
                   (if (n <? 0)%Z
                    then Z.max (Z.of_nat (List.length l) + n) 0
                    else Z.min n (Z.of_nat (List.length l)))) l).
  apply in_or_app. now left.
Qed.

(** X10.  When the overview succeeds, over tags that are none of the names
    an object inherits: its method counts add up to its number of endpoints,
    its number of resource groups is the number [listResourceGroups] reports,
    and each of its top groups is an entry of the full list of
    [listResourceGroups], with the same count. *)
Theorem overview_agrees_with_groups :
  forall (this : FortnoxMCPServer) (v : Overview),
    plainNames (allTags (endpoints this)) ->
    getAPIOverview this = Normal (ok (OverviewReply v)) ->
    totalCount (ov_byMethod v) = Z.of_nat (ov_totalEndpoints v)
    /\ exists w,
         listResourceGroups this = ok (GroupsReply w)
         /\ ov_resourceGroups v = rg_total w
         /\ forall entry, In entry (ov_topGroups v) ->
                          In (cleanEntry entry) (rg_all w).
Proof.
  intros this v _ H. unfold getAPIOverview, getBaseUrl, getSpec in H.
  destruct (servers (spec (parser this))) as [[|s rest]|];
    cbn [bind] in H; try discriminate.
  destruct (info (spec (parser this))) as [i|]; [|discriminate].
  injection H as <-.
  cbn [ov_byMethod ov_totalEndpoints ov_resourceGroups ov_topGroups].
  split.
  - unfold JsObject.entries. rewrite countMethods_tally, totalCount_tally.
    rewrite length_map. reflexivity.
  - eexists. split; [reflexivity|]. cbn [rg_total rg_all]. split.
    + rewrite sort_length. unfold JsObject.keys, JsObject.entries.
      now rewrite length_map.
    + intros entry Hin. apply in_slice0 in Hin. apply in_map.
      apply (Permutation_in _ (Permutation_sym (sort_perm byTagName _))).
      exact Hin.
Qed.

Lemma overview_agrees_with_groups_witness :
  exists v,
    getAPIOverview mixedPrefixServer = Normal (ok (OverviewReply v))
    /\ totalCount (ov_byMethod v) = Z.of_nat (ov_totalEndpoints v).
Proof.
  eexists. split; [reflexivity|].
  eapply (@overview_agrees_with_groups mixedPrefixServer).
  - repeat constructor; intros H; simpl in H;
      repeat (destruct H as [H|H]; [discriminate|]); exact H.
  - reflexivity.
Defined.

(** *** Letter case, empty arguments and limits *)

Lemma ci_eq_truthy (a b : string) : ci_eq a b -> truthy a = truthy b.
Proof. destruct 1; reflexivity. Qed.

(** The listing of a reply of [listAllEndpoints]. *)
Definition listingOf (r : ToolResult) : option EndpointList :=
  match content r with
  | EndpointsReply l => Some l
  | _ => None
  end.

(** X11.  The case of the letters of a keyword or of a method never selects
    other endpoints: two keywords that differ in case only get the same
    search reply; two methods that differ in case only get the same details,
    and listings with the same counts, the same rows, the same tag and the
    same notes.  The listings themselves differ where they repeat the method
    as it was given. *)
Theorem replies_ignore_letter_case :
  forall (this : FortnoxMCPServer) (a b : string)
         (m tag p resource keyword schemaName : option string)
         (limit : option Z),
    ci_eq a b ->
    searchEndpoints this (mkArgs m tag limit p resource (Some a) schemaName)
    = searchEndpoints this (mkArgs m tag limit p resource (Some b) schemaName)
    /\ getEndpointDetails this
         (mkArgs (Some a) tag limit p resource keyword schemaName)
       = getEndpointDetails this
           (mkArgs (Some b) tag limit p resource keyword schemaName)
    /\ exists la lb,
         listAllEndpoints this
           (mkArgs (Some a) tag limit p resource keyword schemaName)
         = ok (EndpointsReply la)
         /\ listAllEndpoints this
              (mkArgs (Some b) tag limit p resource keyword schemaName)
            = ok (EndpointsReply lb)
         /\ el_method la = if_truthy (Some a)
         /\ el_method lb = if_truthy (Some b)
         /\ el_tag la = el_tag lb
         /\ el_totalFound la = el_totalFound lb
         /\ el_showing la = el_showing lb
         /\ el_limitedTo la = el_limitedTo lb
         /\ el_rows la = el_rows lb
         /\ el_notShown la = el_notShown lb.
Proof.
  intros this a b m tag p resource keyword schemaName limit H.
  pose proof (proj2 (toLowerCase_ci a b) H) as Hl.
  pose proof (proj2 (toUpperCase_ci a b) H) as Hu.
  pose proof (ci_eq_truthy H) as Ht.
  split; [|split].
  - unfold searchEndpoints. cbn [a_keyword a_limit]. now rewrite Hl.
  - unfold getEndpointDetails. cbn [a_method a_path]. now rewrite Hu.
  - assert (E : filterEndpoints this
                  (mkArgs (Some a) tag limit p resource keyword schemaName)
                = filterEndpoints this
                    (mkArgs (Some b) tag limit p resource keyword schemaName)).
    { unfold filterEndpoints, if_truthy. cbn [a_method a_tag]. rewrite Ht.
      destruct (truthy b); [now rewrite Hu | reflexivity]. }
    unfold listAllEndpoints. rewrite E. cbn [a_method a_tag a_limit].
    do 2 eexists. split; [reflexivity|]. split; [reflexivity|].
    cbn [el_method el_tag el_totalFound el_showing el_limitedTo el_rows
         el_notShown].
    repeat split; reflexivity.
Qed.

Lemma replies_ignore_letter_case_witness :
  searchEndpoints customersServer
    (mkArgs None None None None None (Some "CUSTOMER") None)
  = searchEndpoints customersServer
      (mkArgs None None None None None (Some "customer") None)
  /\ listingOf (listAllEndpoints customersServer
                  (mkArgs (Some "get") None None None None None None))
     <> listingOf (listAllEndpoints customersServer
                     (mkArgs (Some "GET") None None None None None None)).
Proof.
  split.
  - apply (@replies_ignore_letter_case customersServer "CUSTOMER" "customer"
             None None None None None None None).
    apply toLowerCase_ci. reflexivity.
  - vm_compute. discriminate.
Defined.

Lemma includes_empty (s : string) : includes s "" = true.
Proof. rewrite includes_unfold. now destruct s. Qed.

Lemma filter_every (A : Type) (f : A -> bool) (l : list A) :
  (forall x, f x = true) -> filter f l = l.
Proof.
  intros H. induction l as [|x l IH]; simpl; [reflexivity|].
  now rewrite H, IH.
Qed.

(** X12.  The empty keyword matches every endpoint: over an index that is
    not empty the search counts the whole index and returns its first
    entries, as the limit lets them through. *)
Theorem empty_keyword_matches_all :
  forall (this : FortnoxMCPServer)
         (m tag p resource schemaName : option string) (limit : option Z),
    searchEndpoints this (mkArgs m tag limit p resource (Some "") schemaName)
    = match endpoints this with
      | [] =>
          Normal (ok (Text
            ("No endpoints found matching " ++ dq ++ dq ++ nl ++ nl
             ++ "Tip: Try different keywords or use list_resource_groups to explore available resources.")%string))
      | _ :: _ =>
          Normal (ok (SearchReply
            {| sr_keyword := "";
               sr_totalMatches := List.length (endpoints this);
               sr_showing :=
                 List.length (truncated limit (firstn 20) (endpoints this));
               sr_results := truncated limit (firstn 20) (endpoints this);
               sr_notShown :=
                 if (limit_or limit 20 <? Z.of_nat (List.length (endpoints this)))%Z
                 then Some (Z.of_nat (List.length (endpoints this))
                            - limit_or limit 20)%Z
                 else None |}))
      end.
Proof.
  intros this m tag p resource schemaName limit.
  unfold searchEndpoints. cbn [a_keyword a_limit toLowerCase map_chars].
  rewrite (filter_every (searchMatch "") (endpoints this)).
  - destruct (endpoints this) as [|e es]; [reflexivity|].
    rewrite slice0_truncated.
    assert (E : truncated limit (fun l => JsArray.slice0 l 20) (e :: es)
                = truncated limit (firstn 20) (e :: es)).
    { unfold truncated. destruct limit as [n|]; [|now apply slice0_pos].
      destruct (0 <? n)%Z; [reflexivity|].
      destruct (n =? 0)%Z; [now apply slice0_pos | reflexivity]. }
    rewrite E. reflexivity.
  - intros e. unfold searchMatch. now rewrite includes_empty.
Qed.

(** X13.  With a positive limit [listAllEndpoints] shows the smaller of the
    limit and the number of endpoints kept; when the limit is the smaller
    one the reply says how many are left out, and the two numbers add up to
    the number kept. *)
Theorem listAll_positive_limit :
  forall (this : FortnoxMCPServer) (n : Z)
         (m tag p resource keyword schemaName : option string),
    (0 < n)%Z ->
    exists v,
      listAllEndpoints this
        (mkArgs m tag (Some n) p resource keyword schemaName)
      = ok (EndpointsReply v)
      /\ el_showing v = Nat.min (Z.to_nat n) (el_totalFound v)
      /\ el_notShown v
         = (if (n <? Z.of_nat (el_totalFound v))%Z
            then Some (Z.of_nat (el_totalFound v) - Z.of_nat (el_showing v))%Z
            else None)
      /\ el_limitedTo v
         = (if (n <? Z.of_nat (el_totalFound v))%Z then Some n else None).
Proof.
  intros this n m tag p resource keyword schemaName Hn.
  eexists. split; [reflexivity|].
  cbn [el_showing el_totalFound el_notShown el_limitedTo a_limit].
  assert (El : limit_or (Some n)
                 (Z.of_nat
                    (List.length
                       (filterEndpoints this
                          (mkArgs m tag (Some n) p resource keyword schemaName))))
               = n).
  { unfold limit_or. destruct (Z.eqb_spec n 0); [lia | reflexivity]. }
  rewrite El, (slice0_pos _ Hn), length_firstn.
  split; [reflexivity|]. split; [|reflexivity].
  destruct (Z.ltb_spec n
              (Z.of_nat
                 (List.length
                    (filterEndpoints this
                       (mkArgs m tag (Some n) p resource keyword schemaName)))));
    [|reflexivity].
  f_equal. lia.
Qed.

Lemma listAll_positive_limit_witness :
  exists v,
    listAllEndpoints customersServer
      (mkArgs None None (Some 1%Z) None None None None)
    = ok (EndpointsReply v)
    /\ el_showing v = 1 /\ el_notShown v = Some 1%Z.
Proof.
  destruct (@listAll_positive_limit customersServer 1%Z
              None None None None None None eq_refl)
    as (v & Hv & Hs & Hn & _).
  exists v. split; [exact Hv|].
  injection Hv as <-. split; reflexivity.
Defined.

(** *** Resource names *)

Lemma occurs_self (s : string) : occurs s s.
Proof.
  exists EmptyString, EmptyString. simpl.
  induction s as [|c s IH]; simpl; [reflexivity | now rewrite <- IH].
Qed.

Lemma toLowerCase_app (a b : string) :
  toLowerCase (a ++ b) = (toLowerCase a ++ toLowerCase b)%string.
Proof. apply map_chars_app. Qed.

(** X14.  A resource may be named with or without the vendor prefix, in any
    case: an endpoint that has the tag fortnox_[x] is selected for the
    resource [x] and for the resource fortnox_[x], however the letters of
    the resource are cased. *)
Theorem resource_with_or_without_prefix :
  forall (e : FortnoxEndpoint) (ts : list string) (x r : string),
    tags e = Some ts ->
    In ("fortnox_" ++ x)%string ts ->
    ci_eq r x \/ ci_eq r ("fortnox_" ++ x)%string ->
    matchesResource r e = true.
Proof.
  intros e ts x r Ht Hin Hr. apply matchesResource_spec.
  exists ts, ("fortnox_" ++ x)%string. split; [exact Ht|]. split; [exact Hin|].
  left. destruct Hr as [Hr|Hr]; apply toLowerCase_ci in Hr; rewrite Hr.
  - rewrite toLowerCase_app. apply occurs_after, occurs_self.
  - apply occurs_self.
Qed.

Lemma resource_with_or_without_prefix_witness :
  matchesResource "CUSTOMERS" getCustomers = true.
Proof.
  apply (@resource_with_or_without_prefix getCustomers
           ["fortnox_Customers"] "Customers" "CUSTOMERS").
  - reflexivity.
  - simpl. tauto.
  - left. apply toLowerCase_ci. reflexivity.
Defined.

(** X15.  For the empty resource name every endpoint that has a tag is
    selected, and no other. *)
Theorem empty_resource_selects_the_tagged :
  forall es : list FortnoxEndpoint,
    filter (matchesResource "") es = filter hasTag es.
Proof.
  intros es. apply filter_ext. intros e.
  unfold matchesResource, hasTag. destruct (tags e) as [[|t ts]|];
    try reflexivity.
  cbn [existsb]. unfold tagMatchesResource.
  change (toLowerCase "") with EmptyString.
  now rewrite includes_empty.
Qed.

End QueryMore.

(* ------------------------------------------------------------------ *)
(** ** The tool list and the dispatch *)

Module ToolFacts.
Import JsString OpenAPI Server ToolList Spec SpecMore JsStringFacts.

Ltac not_this_tool name H :=
  let E := fresh "E" in
  destruct (String.eqb_spec name H) as [E|E];
  [ exfalso; subst name | clear E ].

(** X16.  The dispatch answers the seven tools of the tool list and no
    other: a name that is not in the list gets the failure Unknown tool with
    the name, and a name of the list never gets that reply. *)
Theorem dispatch_answers_the_tool_list :
  forall (this : FortnoxMCPServer) (name : string) (args : ToolCallArguments),
    (In name (map t_name generateTools) ->
     content (handleToolCall this name args)
     <> Text ("Unknown tool: " ++ name)%string)
    /\ (~ In name (map t_name generateTools) ->
        handleToolCall this name args
        = failed (Text ("Unknown tool: " ++ name)%string)).
Proof.
  intros this name args. split.
  - intros [<-|[<-|[<-|[<-|[<-|[<-|[<-|[]]]]]]]];
      unfold handleToolCall, dispatch; cbn [String.eqb Ascii.eqb Bool.eqb].
    + destruct (getAPIOverview this) as [r|e] eqn:E; [|discriminate].
      unfold getAPIOverview in E.
      destruct (getBaseUrl (parser this)); [|discriminate].
      cbn [bind] in E. destruct (info (getSpec (parser this)));
        [|discriminate].
      injection E as <-. discriminate.
    + discriminate.
    + unfold getEndpointDetails. destruct (a_method args); [|discriminate].
      destruct (find _ (endpoints this)); discriminate.
    + unfold getEndpointsByResource. destruct (a_resource args).
      * destruct (filter _ (endpoints this)); discriminate.
      * destruct (existsb hasTag (endpoints this)); discriminate.
    + unfold searchEndpoints. destruct (a_keyword args); [|discriminate].
      destruct (filter _ (endpoints this)); discriminate.
    + discriminate.
    + unfold getSchemaDetails.
      destruct (resolveSchemaRef (parser this) _); discriminate.
  - intros H. unfold handleToolCall, dispatch.
    not_this_tool name "get_api_overview"; [apply H; simpl; tauto|].
    not_this_tool name "list_all_endpoints"; [apply H; simpl; tauto|].
    not_this_tool name "get_endpoint_details"; [apply H; simpl; tauto|].
    not_this_tool name "get_endpoints_by_resource"; [apply H; simpl; tauto|].
    not_this_tool name "search_endpoints"; [apply H; simpl; tauto|].
    not_this_tool name "list_resource_groups"; [apply H; simpl; tauto|].
    not_this_tool name "get_schema_details"; [apply H; simpl; tauto|].
    reflexivity.
Qed.

(** X17.  A tool of the list other than the overview, called with an
    arguments object that holds the arguments its schema requires, returns
    its reply without an exception being thrown.  Called without an
    arguments object, each of the five tools that read their arguments
    throws a TypeError, which the handler turns into an error reply:
    [list_all_endpoints] among them, although its schema requires no
    argument; [list_resource_groups] reads none and answers as ever. *)
Theorem required_arguments_suffice :
  forall (this : FortnoxMCPServer) (tool : Tool),
    In tool generateTools ->
    t_name tool <> "get_api_overview" ->
    (forall args : ToolCallArguments,
        forallb (holds args) (t_required tool) = true ->
        exists r,
          Handler.dispatchRequest this (t_name tool) (Some args) = Normal r
          /\ Handler.callTool this (t_name tool) (Some args) = r)
    /\ (t_name tool <> "list_resource_groups" ->
        Handler.dispatchRequest this (t_name tool) None = Throw TypeError
        /\ Handler.callTool this (t_name tool) None
           = failed (Failure TypeError))
    /\ (t_name tool = "list_resource_groups" ->
        Handler.callTool this (t_name tool) None = listResourceGroups this).
Proof.
  intros this tool Hin Hname.
  destruct Hin as [<-|[<-|[<-|[<-|[<-|[<-|[<-|[]]]]]]]];
    unfold Handler.callTool, Handler.dispatchRequest, Handler.reading;
    cbn [t_name t_required String.eqb Ascii.eqb Bool.eqb];
    try (now elim Hname);
    (split; [|split; [intros H; try (now elim H); split; reflexivity
                     |intros H; try discriminate H; reflexivity]]);
    intros args Hreq;
    cbn [t_required forallb holds String.eqb Ascii.eqb Bool.eqb andb] in Hreq.
  - eexists. split; reflexivity.
  - unfold getEndpointDetails.
    destruct (a_path args), (a_method args); try discriminate.
    destruct (find _ (endpoints this)); eexists; split; reflexivity.
  - unfold getEndpointsByResource.
    destruct (a_resource args); try discriminate.
    destruct (filter _ (endpoints this)); eexists; split; reflexivity.
  - unfold searchEndpoints.
    destruct (a_keyword args); try discriminate.
    destruct (filter _ (endpoints this)); eexists; split; reflexivity.
  - eexists. split; reflexivity.
  - eexists. split; reflexivity.
Qed.

Lemma required_arguments_suffice_witness :
  (exists r,
      Handler.dispatchRequest customersServer "search_endpoints"
        (Some (mkArgs None None None None None (Some "customer") None))
      = Normal r)
  /\ Handler.callTool customersServer "search_endpoints" None
     = failed (Failure TypeError).
Proof.
  destruct (@required_arguments_suffice customersServer
              (mkTool "search_endpoints"
                 [ mkProperty "keyword" "string" None;
                   mkProperty "limit" "number" None ] ["keyword"]))
    as (H1 & H2 & _).
  - simpl. tauto.
  - discriminate.
  - split.
    + destruct (H1 (mkArgs None None None None None (Some "customer") None)
                  eq_refl) as (r & Hr & _).
      now exists r.
    + apply H2. discriminate.
Defined.

End ToolFacts.

(* ------------------------------------------------------------------ *)
(** ** The parser singleton and the client *)

Module ClientFacts.
Import JsString OpenAPI Server Client Spec SpecMore.
Import JsStringFacts JsObjectFacts Loader.

(** X18.  The parser is loaded once: after a call of [getOpenAPIParser] that
    returns, every later call returns the same parser without reading the
    file, whatever the file holds by then; after a call that throws, nothing
    is kept and the next call reads the file again. *)
Theorem parser_is_loaded_once :
  forall f f' : SpecFile,
    match getOpenAPIParser None f with
    | (Normal p, cache) =>
        cache = Some p /\ getOpenAPIParser cache f' = (Normal p, cache)
    | (Throw e, cache) =>
        cache = None
        /\ getOpenAPIParser cache f' = getOpenAPIParser None f'
    end.
Proof.
  intros f f'. unfold getOpenAPIParser at 1.
  destruct (OpenAPIParser_new f) as [p|e]; split; reflexivity.
Qed.

Lemma trimStart_empty (s : string) :
  trimStart s = EmptyString <-> all_chars is_space s = true.
Proof.
  induction s as [|c s IH]; simpl; [tauto|].
  destruct (is_space c); simpl; [exact IH|].
  split; discriminate.
Qed.

Lemma trimEnd_keeps_head (c : ascii) (s : string) :
  is_space c = false -> trimEnd (String c s) <> EmptyString.
Proof.
  intros H. simpl. destruct (trimEnd s); [rewrite H|]; discriminate.
Qed.

(** [trim] leaves nothing exactly of the strings made of white space. *)
Lemma trim_empty (s : string) :
  trim s = EmptyString <-> all_chars is_space s = true.
Proof.
  unfold trim. rewrite <- trimStart_empty. split.
  - intros H. destruct (trimStart s) as [|c t] eqn:E; [reflexivity|].
    exfalso. revert H. apply trimEnd_keeps_head.
    clear -E. induction s as [|d s IH]; simpl in E; [discriminate|].
    destruct (is_space d) eqn:Ed; [now apply IH|].
    injection E as <- _. exact Ed.
  - intros ->. reflexivity.
Qed.

Lemma blank_not_valid (t : string) :
  negb (truthy t) || (trim t =? "")%string = all_chars is_space t.
Proof.
  destruct (all_chars is_space t) eqn:E.
  - apply trim_empty in E. rewrite E. apply orb_true_r.
  - destruct (trim t =? "")%string eqn:Et.
    + apply String.eqb_eq, trim_empty in Et. congruence.
    + rewrite orb_false_r. destruct t; [discriminate | reflexivity].
Qed.

Lemma validateConfig_blank (config : FortnoxConfig) :
  validateConfig config
  = if all_chars is_space (accessToken config)
    then Throw (Error "FORTNOX_ACCESS_TOKEN is required but not provided")
    else Normal tt.
Proof. unfold validateConfig. now rewrite blank_not_valid. Qed.

(** X19.  Over access tokens of ASCII characters, [validateConfig] rejects
    exactly the tokens made of tabs, line feeds, vertical tabs, form feeds,
    carriage returns and spaces only, the empty token among them, with the
    message that the token is required; every other ASCII token passes. *)
Theorem validateConfig_rejects_blank_tokens :
  forall config : FortnoxConfig,
    all_chars is_ascii (accessToken config) = true ->
    validateConfig config
    = if all_chars is_space (accessToken config)
      then Throw (Error "FORTNOX_ACCESS_TOKEN is required but not provided")
      else Normal tt.
Proof.
  intros config _. unfold validateConfig. now rewrite blank_not_valid.
Qed.

Lemma validateConfig_rejects_blank_tokens_witness :
  validateConfig (mkConfig (String "009" " ") None None)
  = Throw (Error "FORTNOX_ACCESS_TOKEN is required but not provided")
  /\ validateConfig (mkConfig "token" None None) = Normal tt.
Proof.
  split.
  - apply (@validateConfig_rejects_blank_tokens
             (mkConfig (String "009" " ") None None)).
    reflexivity.
  - reflexivity.
Defined.

(** X20.  [createFortnoxClient] returns [null] when the access token is not
    set or is empty, and leaves the parser alone; for a token that is set
    and made of white space only it does not return [null]: the constructor
    throws; and a client it returns carries the token and the secret of the
    environment. *)
Theorem createFortnoxClient_by_token :
  forall (parser : option OpenAPIParser) (f : SpecFile) (env : Env),
    match FORTNOX_ACCESS_TOKEN env with
    | None => createFortnoxClient parser f env = (Normal None, parser)
    | Some t =>
        if (t =? "")%string
        then createFortnoxClient parser f env = (Normal None, parser)
        else if all_chars is_space t
        then createFortnoxClient parser f env
             = (Throw (Error "FORTNOX_ACCESS_TOKEN is required but not provided"),
                parser)
        else forall r parser',
               createFortnoxClient parser f env = (Normal r, parser') ->
               exists c,
                 r = Some c
                 /\ accessToken (config c) = t
                 /\ clientSecret (config c) = FORTNOX_CLIENT_SECRET env
    end.
Proof.
  intros parser f env. unfold createFortnoxClient, if_truthy, truthy.
  destruct (FORTNOX_ACCESS_TOKEN env) as [t|]; [|reflexivity].
  destruct (t =? "")%string eqn:Et; [reflexivity|]. cbn [negb].
  unfold FortnoxAPIClient_new. rewrite validateConfig_blank.
  cbn [accessToken cfg_baseUrl].
  destruct (all_chars is_space t); [reflexivity|].
  intros r parser'.
  destruct (if_truthy (FORTNOX_BASE_URL env)) as [url|].
  - cbn [bind]. intros [= <- <-]. eexists. split; [reflexivity|].
    split; reflexivity.
  - destruct (getOpenAPIParser parser f) as [[p|e] cache]; cbn [bind];
      [|discriminate].
    destruct (getBaseUrl p) as [url|e]; cbn [bind]; [|discriminate].
    intros [= <- <-]. eexists. split; [reflexivity|]. split; reflexivity.
Qed.

(** X21.  A client configured with a base URL is made without the parser:
    the file is not read, the parser variable stays as it was, and for a
    token that is not blank the client has the configured URL. *)
Theorem configured_base_url_needs_no_parser :
  forall (parser : option OpenAPIParser) (f f' : SpecFile)
         (config : FortnoxConfig) (url : string),
    cfg_baseUrl config = Some url ->
    url <> EmptyString ->
    FortnoxAPIClient_new parser f config = FortnoxAPIClient_new parser f' config
    /\ snd (FortnoxAPIClient_new parser f config) = parser
    /\ (all_chars is_space (accessToken config) = false ->
        fst (FortnoxAPIClient_new parser f config)
        = Normal {| config := config; baseUrl := url |}).
Proof.
  intros parser f f' config url Hu Hne.
  assert (Ht : if_truthy (cfg_baseUrl config) = Some url)
    by (apply if_truthy_some; auto).
  unfold FortnoxAPIClient_new. rewrite validateConfig_blank, Ht.
  destruct (all_chars is_space (accessToken config));
    repeat split; try reflexivity; discriminate.
Qed.

Lemma configured_base_url_witness :
  FortnoxAPIClient_new None Malformed
    (mkConfig "token" (Some "https://example.test") None)
  = FortnoxAPIClient_new None Unreadable
      (mkConfig "token" (Some "https://example.test") None).
Proof.
  apply (@configured_base_url_needs_no_parser None Malformed Unreadable
           (mkConfig "token" (Some "https://example.test") None)
           "https://example.test").
  - reflexivity.
  - discriminate.
Defined.

(** X22.  A client made without a configured base URL, over the parser the
    server uses, has the base URL the overview of that server reports. *)
Theorem client_and_overview_share_the_base_url :
  forall (this : FortnoxMCPServer) (v : Overview) (f : SpecFile)
         (config : FortnoxConfig) (c : FortnoxAPIClient)
         (cache : option OpenAPIParser),
    getAPIOverview this = Normal (ok (OverviewReply v)) ->
    if_truthy (cfg_baseUrl config) = None ->
    FortnoxAPIClient_new (Some (parser this)) f config = (Normal c, cache) ->
    baseUrl c = ov_baseUrl v /\ cache = Some (parser this).
Proof.
  intros this v f config c cache Hov Hu Hc.
  unfold getAPIOverview in Hov. unfold FortnoxAPIClient_new in Hc.
  rewrite Hu in Hc. destruct (validateConfig config); [|discriminate].
  cbn [getOpenAPIParser bind] in Hc.
  destruct (getBaseUrl (parser this)) as [url|e]; [|discriminate].
  cbn [bind] in Hov, Hc.
  destruct (info (getSpec (parser this))); [|discriminate].
  injection Hov as <-. injection Hc as <- <-. split; reflexivity.
Qed.

Lemma client_and_overview_witness :
  baseUrl {| config := mkConfig "token" None None;
             baseUrl := "https://api.fortnox.se" |}
  = ov_baseUrl mixedOverview
  /\ Some (parser mixedPrefixServer) = Some (parser mixedPrefixServer).
Proof.
  apply (@client_and_overview_share_the_base_url mixedPrefixServer
           mixedOverview Unreadable (mkConfig "token" None None)
           {| config := mkConfig "token" None None;
              baseUrl := "https://api.fortnox.se" |}
           (Some (parser mixedPrefixServer))); reflexivity.
Defined.

(** *** URLs *)

Lemma prefix_app (p s : string) : String.prefix p (p ++ s) = true.
Proof. apply prefix_spec. now exists s. Qed.

Lemma append_assoc (a b c : string) :
  ((a ++ b) ++ c)%string = (a ++ b ++ c)%string.
Proof. induction a as [|x a IH]; simpl; [reflexivity | now rewrite IH]. Qed.

(** X23.  A path is taken with or without its leading slash: the two give
    the same URL; and the URL always starts with the base URL followed by a
    slash. *)
Theorem buildUrl_normalizes_the_slash :
  forall (this : FortnoxAPIClient) (path : string)
         (queryParams : option (JsObject.t QueryValue)),
    (startsWith path "/" = false ->
     buildUrl this path queryParams
     = buildUrl this ("/" ++ path)%string queryParams)
    /\ String.prefix (baseUrl this ++ "/")%string
         (buildUrl this path queryParams) = true.
Proof.
  intros this path queryParams. split.
  - intros H. unfold buildUrl. rewrite H.
    assert (E : startsWith ("/" ++ path) "/" = true) by apply prefix_app.
    now rewrite E.
  - unfold buildUrl.
    assert (E : exists rest,
               (if startsWith path "/" then path else ("/" ++ path)%string)
               = ("/" ++ rest)%string).
    { destruct (startsWith path "/") eqn:Es.
      - unfold startsWith in Es. apply prefix_spec in Es. exact Es.
      - now exists path. }
    destruct E as [rest ->].
    destruct queryParams as [table|];
      [destruct (truthy (serialize (appendParams table)))|];
      rewrite <- !append_assoc; rewrite ?append_assoc;
      rewrite <- (append_assoc (baseUrl this) "/"); apply prefix_app.
Qed.

Lemma appendParams_fold (l : list (string * QueryValue))
  (acc : list (string * string)) :
  fold_left
    (fun params kv =>
       match toParam (snd kv) with
       | Some value => params ++ [(fst kv, value)]
       | None => params
       end)
    l acc
  = acc
    ++ flat_map
         (fun kv =>
            match toParam (snd kv) with
            | Some value => [(fst kv, value)]
            | None => []
            end)
         l.
Proof.
  revert acc. induction l as [|kv l IH]; intros acc; simpl.
  - now rewrite app_nil_r.
  - rewrite IH. destruct (toParam (snd kv)); simpl;
      [now rewrite <- app_assoc | reflexivity].
Qed.

Lemma appendParams_defined (table : JsObject.t QueryValue) :
  appendParams (filter defined table) = appendParams table.
Proof.
  unfold appendParams, JsObject.entries. rewrite !appendParams_fold. simpl.
  induction table as [|[k v] table IH]; simpl; [reflexivity|].
  unfold defined at 1. destruct v as [s|n|[|]|]; simpl;
    try (now rewrite IH); exact IH.
Qed.

(** X24.  Parameters without a value are left out of the URL: the URL is
    the one built from the parameters that have a value, and with none that
    has a value it is the URL built without parameters, with no question
    mark added. *)
Theorem buildUrl_drops_undefined :
  forall (this : FortnoxAPIClient) (path : string)
         (table : JsObject.t QueryValue),
    buildUrl this path (Some table)
    = buildUrl this path (Some (filter defined table))
    /\ (filter defined table = [] ->
        buildUrl this path (Some table) = buildUrl this path None).
Proof.
  intros this path table. unfold buildUrl.
  rewrite (appendParams_defined table). split; [reflexivity|].
  intros H. rewrite <- (appendParams_defined table), H. reflexivity.
Qed.

Lemma count_char_app (c : ascii) (a b : string) :
  count_char c (a ++ b) = count_char c a + count_char c b.
Proof.
  induction a as [|x a IH]; simpl; [reflexivity|]. rewrite IH. lia.
Qed.

Lemma all_chars_app (P : ascii -> bool) (a b : string) :
  all_chars P (a ++ b) = all_chars P a && all_chars P b.
Proof.
  induction a as [|x a IH]; simpl; [reflexivity|].
  now rewrite IH, andb_assoc.
Qed.

Lemma encodeChar_encoded (c : ascii) :
  all_chars encoded_char (encodeChar c) = true.
Proof.
  assert (H : forallb (fun c => all_chars encoded_char (encodeChar c)) all_ascii
              = true) by (vm_compute; reflexivity).
  rewrite forallb_forall in H. apply H, in_all_ascii.
Qed.

Lemma encode_encoded (s : string) : all_chars encoded_char (encode s) = true.
Proof.
  induction s as [|c s IH]; simpl; [reflexivity|].
  now rewrite all_chars_app, encodeChar_encoded, IH.
Qed.

Lemma count_char_absent (P : ascii -> bool) (c : ascii) (s : string) :
  P c = false -> all_chars P s = true -> count_char c s = 0.
Proof.
  intros Hc. induction s as [|d s IH]; simpl; [reflexivity|].
  intros H. apply andb_true_iff in H. destruct H as [Hd Hs].
  destruct (Ascii.eqb_spec c d) as [->|_]; [congruence|].
  now rewrite IH.
Qed.

Lemma count_in_pair (c : ascii) (kv : string * string) :
  encoded_char c = false ->
  count_char c (encode (fst kv) ++ "=" ++ encode (snd kv))
  = if Ascii.eqb c "=" then 1 else 0.
Proof.
  intros Hc. rewrite !count_char_app.
  rewrite (count_char_absent encoded_char c (encode (fst kv)) Hc (encode_encoded _)),
    (count_char_absent encoded_char c (encode (snd kv)) Hc (encode_encoded _)).
  simpl. lia.
Qed.

(** X25.  Names and values cannot break the query string: an encoded name
    or value is made of letters, digits and the signs * - . _ + and percent
    only, so that the query string has one equals sign for each parameter
    and one ampersand between two parameters, and no other. *)
Theorem query_string_is_escaped :
  forall params : list (string * string),
    Forall (fun kv => all_chars encoded_char (encode (fst kv)) = true
                      /\ all_chars encoded_char (encode (snd kv)) = true)
      params
    /\ count_char "=" (serialize params) = List.length params
    /\ count_char "&" (serialize params) = List.length params - 1.
Proof.
  intros params. split; [|split].
  - apply Forall_forall. intros kv _. split; apply encode_encoded.
  - unfold serialize. induction params as [|kv params IH]; [reflexivity|].
    cbn [map String.concat List.length].
    destruct params as [|kv' params].
    + cbn [map]. now rewrite (count_in_pair "=" kv).
    + cbn [map] in *.
      rewrite count_char_app, (count_in_pair "=" kv) by reflexivity.
      rewrite count_char_app, IH. simpl. lia.
  - unfold serialize. induction params as [|kv params IH]; [reflexivity|].
    cbn [map String.concat List.length].
    destruct params as [|kv' params].
    + cbn [map]. now rewrite (count_in_pair "&" kv).
    + cbn [map] in *.
      rewrite count_char_app, (count_in_pair "&" kv) by reflexivity.
      rewrite count_char_app, IH. simpl. lia.
Qed.

(** *** Headers *)

Lemma get_assign (custom headers : JsObject.t string) (k : string) :
  NoDup (JsObject.keys custom) ->
  JsObject.get (assign headers custom) k
  = match JsObject.get custom k with
    | Some v => Some v
    | None => JsObject.get headers k
    end.
Proof.
  unfold assign, JsObject.entries, JsObject.keys. revert headers.
  induction custom as [|[k0 v0] custom IH]; intros headers Hnd; simpl;
    [reflexivity|].
  inversion Hnd as [|? ? Hni Hnd']; subst.
  rewrite (IH _ Hnd'). destruct (k0 =? k)%string eqn:E.
  - apply String.eqb_eq in E. subst k0.
    assert (Hn : JsObject.get custom k = None) by now apply get_none_keys.
    rewrite Hn, get_set. now rewrite String.eqb_refl.
  - destruct (JsObject.get custom k); [reflexivity|].
    rewrite get_set. now rewrite E.
Qed.

(** X26.  A custom header replaces the header of the same name and leaves
    the others: the headers of a request are the custom ones and, under the
    names the custom ones do not use, the content type, the accept header,
    the access token of the configuration and, when there is one, its client
    secret. *)
Theorem custom_headers_override :
  forall (this : FortnoxAPIClient) (custom : JsObject.t string) (k : string),
    NoDup (JsObject.keys custom) ->
    ~ In "__proto__" (JsObject.keys custom) ->
    JsObject.get (buildHeaders this (Some custom)) k
    = match JsObject.get custom k with
      | Some v => Some v
      | None => JsObject.get (buildHeaders this None) k
      end
    /\ JsObject.get (buildHeaders this None) "Access-Token"
       = Some (accessToken (config this))
    /\ JsObject.get (buildHeaders this None) "Content-Type"
       = Some "application/json"
    /\ JsObject.get (buildHeaders this None) "Client-Secret"
       = if_truthy (clientSecret (config this)).
Proof.
  intros this custom k Hnd _. unfold buildHeaders.
  split; [now apply get_assign|].
  destruct (if_truthy (clientSecret (config this))) as [secret|];
    repeat split; rewrite ?get_set; reflexivity.
Qed.

Lemma custom_headers_override_witness :
  JsObject.get
    (buildHeaders sampleClient (Some [("Accept", "application/pdf")])) "Accept"
  = Some "application/pdf".
Proof.
  apply (@custom_headers_override sampleClient
           [("Accept", "application/pdf")] "Accept").
  - repeat constructor. simpl. tauto.
  - simpl. intuition discriminate.
Defined.

End ClientFacts.

(* ------------------------------------------------------------------ *)
(** ** Bounds of the replies *)

Module Bounds.
Import JsString OpenAPI Server Spec SpecMore SortFacts.

(** X27.  The overview lists ten groups, or all the groups when there are
    fewer than ten. *)
Theorem overview_lists_at_most_ten :
  forall (this : FortnoxMCPServer) (v : Overview),
    getAPIOverview this = Normal (ok (OverviewReply v)) ->
    List.length (ov_topGroups v) = Nat.min 10 (ov_resourceGroups v).
Proof.
  intros this v H. unfold getAPIOverview in H.
  destruct (getBaseUrl (parser this)); [|discriminate]. cbn [bind] in H.
  destruct (info (getSpec (parser this))); [|discriminate].
  injection H as <-. cbn [ov_topGroups ov_resourceGroups].
  rewrite slice0_pos by lia. rewrite length_firstn, sort_length.
  unfold JsObject.keys, JsObject.entries. now rewrite length_map.
Qed.

Lemma overview_lists_at_most_ten_witness :
  List.length (ov_topGroups mixedOverview)
  = Nat.min 10 (ov_resourceGroups mixedOverview).
Proof.
  apply (@overview_lists_at_most_ten mixedPrefixServer mixedOverview).
  reflexivity.
Defined.

(** X28.  Without a limit a search that has matches returns twenty of them,
    or all when there are fewer, and says how many it leaves out. *)
Theorem search_returns_twenty_by_default :
  forall (this : FortnoxMCPServer) (k : string) (r : ToolResult)
         (v : SearchResults) (m tag p resource schemaName : option string),
    searchEndpoints this (mkArgs m tag None p resource (Some k) schemaName)
    = Normal r ->
    content r = SearchReply v ->
    sr_showing v = Nat.min 20 (sr_totalMatches v)
    /\ sr_showing v = List.length (sr_results v)
    /\ sr_notShown v
       = (if (20 <? Z.of_nat (sr_totalMatches v))%Z
          then Some (Z.of_nat (sr_totalMatches v) - 20)%Z
          else None).
Proof.
  intros this k r v m tag p resource schemaName Hr Hc.
  unfold searchEndpoints in Hr. cbn [a_keyword a_limit limit_or] in Hr.
  destruct (filter _ (endpoints this)) as [|hit hits] eqn:E;
    injection Hr as <-; [discriminate|].
  injection Hc as <-. cbn [sr_showing sr_totalMatches sr_results sr_notShown].
  rewrite slice0_pos by lia. rewrite length_firstn.
  split; [reflexivity|]. split; reflexivity.
Qed.

Lemma search_returns_twenty_witness :
  sr_showing customerSearch = Nat.min 20 (sr_totalMatches customerSearch)
  /\ sr_showing customerSearch = List.length (sr_results customerSearch)
  /\ sr_notShown customerSearch
     = (if (20 <? Z.of_nat (sr_totalMatches customerSearch))%Z
        then Some (Z.of_nat (sr_totalMatches customerSearch) - 20)%Z
        else None).
Proof.
  apply (@search_returns_twenty_by_default customersServer "customer"
           (ok (SearchReply customerSearch)) customerSearch
           None None None None None); reflexivity.
Defined.

End Bounds.
